(** * shell-tunnel: a shell exported through a UNIX socket

    A shallow embedding of [shell-tunnel.c] and the properties of its
    byte relay, its acceptor, its client proxy and its command line.

    The program is a sequence of system calls.  It is modelled from the
    point of view of ONE process: the state of that process and of the
    part of the system it can observe is a [World]; every system call is
    a function on worlds that records an [event] in the world's [trace];
    whatever the kernel and the peers decide (which descriptors become
    readable, what a read returns, whether [bind] or [fork] succeeds) is
    read from scripts stored in the world, so that a statement quantified
    over every world covers every behaviour of the environment.
    [fork] returns what the script says: a run in which it returns 0 is
    the run of the child, a run in which it returns a positive number is
    the run of the parent. *)

From Stdlib Require Import ZArith List Lia.
From Stdlib.Strings Require Import Byte.
From stdpp Require Import gmap strings list.

Local Open Scope string_scope.
Local Open Scope Z_scope.
Local Open Scope list_scope.

(** ** Data *)

(** The result of one [read(fd, &buff, 1)]: one byte, end of file, or an
    error. *)
Inductive rd : Type :=
| RdByte (b : byte)
| RdEof
| RdErr.

(** The result of one [write(fd, &buff, 1)]: 1, 0 or -1. *)
Inductive wr : Type :=
| WrOk
| WrZero
| WrErr.

Definition rd_len (r : rd) : Z :=
  match r with RdByte _ => 1 | RdEof => 0 | RdErr => -1 end.

Definition wr_len (r : wr) : Z :=
  match r with WrOk => 1 | WrZero => 0 | WrErr => -1 end.

(** What is behind an open descriptor: the results of the reads still to
    come (an exhausted script reads as end of file), the results of the
    writes still to come (an exhausted script accepts every byte), and
    the bytes written so far, oldest first. *)
Record chan : Type := Chan {
  rx : list rd;
  wres : list wr;
  tx : list byte }.

(** [struct termios]: the four flag words and the control characters. *)
Record termios : Type := Termios {
  c_iflag : Z;
  c_oflag : Z;
  c_cflag : Z;
  c_lflag : Z;
  c_cc : list Z }.

Definition termios_zero : termios := Termios 0 0 0 0 [].

Inductive shut_how : Type := SHUT_RD | SHUT_WR | SHUT_RDWR.

(** The system calls of the program, with their arguments and results. *)
Inductive event : Type :=
| EvSocket (r : Z)
| EvBind (fd : Z) (path : string) (r : Z)
| EvListen (fd : Z) (backlog : Z) (r : Z)
| EvChmod (path : string) (mode : Z) (r : Z)
| EvAccept (fd : Z) (r : Z)
| EvConnect (fd : Z) (path : string) (r : Z)
| EvFork (r : Z)
| EvClose (fd : Z)
| EvUnlink (path : string)
| EvSignalIgnChld
| EvOpenpty (r : Z) (mst slv : Z)
| EvSetsid (r : Z)
| EvDup2 (oldfd newfd : Z)
| EvIoctlSctty (fd : Z) (r : Z)
| EvExecvp (file : string) (argv : list string) (r : Z)
| EvShutdown (fd : Z) (how : shut_how)
| EvTcGet (r : option termios)
| EvTcSet (t : termios)
| EvSelect (nfds : Z) (readfds : list Z)
| EvRead (fd : Z) (r : rd)
| EvWrite (fd : Z) (b : byte) (r : wr).

(** The process and what it can observe. *)
Record World : Type := mkWorld {
  fds : gmap Z chan;                  (* the open descriptors *)
  ready : list (list Z);              (* what the successive selects report readable *)
  newfds : list (option (Z * chan));  (* what the successive socket, accept and openpty calls hand out *)
  rets : list Z;                      (* the results of the other calls, in order *)
  fs : gset string;                   (* the paths that exist in the filesystem *)
  tty : option termios;               (* the settings of the terminal behind stdin, if it is one *)
  term_state : termios;               (* the static variable of setup_console *)
  stderr : list string;               (* the perror messages, oldest first *)
  stdout : list string;               (* what printf and putchar printed, oldest first *)
  trace : list event }.               (* the system calls made, oldest first *)

Definition set_fds (f : gmap Z chan) (w : World) : World :=
  mkWorld f (ready w) (newfds w) (rets w) (fs w) (tty w) (term_state w)
          (stderr w) (stdout w) (trace w).
Definition set_ready (r : list (list Z)) (w : World) : World :=
  mkWorld (fds w) r (newfds w) (rets w) (fs w) (tty w) (term_state w)
          (stderr w) (stdout w) (trace w).
Definition set_newfds (n : list (option (Z * chan))) (w : World) : World :=
  mkWorld (fds w) (ready w) n (rets w) (fs w) (tty w) (term_state w)
          (stderr w) (stdout w) (trace w).
Definition set_rets (r : list Z) (w : World) : World :=
  mkWorld (fds w) (ready w) (newfds w) r (fs w) (tty w) (term_state w)
          (stderr w) (stdout w) (trace w).
Definition set_fs (f : gset string) (w : World) : World :=
  mkWorld (fds w) (ready w) (newfds w) (rets w) f (tty w) (term_state w)
          (stderr w) (stdout w) (trace w).
Definition set_tty (t : option termios) (w : World) : World :=
  mkWorld (fds w) (ready w) (newfds w) (rets w) (fs w) t (term_state w)
          (stderr w) (stdout w) (trace w).
Definition set_term_state (t : termios) (w : World) : World :=
  mkWorld (fds w) (ready w) (newfds w) (rets w) (fs w) (tty w) t
          (stderr w) (stdout w) (trace w).
Definition log (e : event) (w : World) : World :=
  mkWorld (fds w) (ready w) (newfds w) (rets w) (fs w) (tty w) (term_state w)
          (stderr w) (stdout w) (trace w ++ [e]).
Definition log_err (msg : string) (w : World) : World :=
  mkWorld (fds w) (ready w) (newfds w) (rets w) (fs w) (tty w) (term_state w)
          (stderr w ++ [msg]) (stdout w) (trace w).
Definition log_out (s : string) (w : World) : World :=
  mkWorld (fds w) (ready w) (newfds w) (rets w) (fs w) (tty w) (term_state w)
          (stderr w) (stdout w ++ [s]) (trace w).

(** ** The monad of the program

    A call either returns, or is still inside one of the two [while (true)]
    loops when the step budget is used up, or has replaced the process by
    the shell, or has called [exit]. *)
Inductive outcome (A : Type) : Type :=
| Done (w : World) (a : A)
| Running (w : World)
| Execed (w : World)
| Exited (w : World) (status : Z).
Arguments Done {A} w a.
Arguments Running {A} w.
Arguments Execed {A} w.
Arguments Exited {A} w status.

Definition M (A : Type) : Type := World -> outcome A.

Definition ret {A} (a : A) : M A := fun w => Done w a.

Definition bind {A B} (m : M A) (k : A -> M B) : M B :=
  fun w =>
    match m w with
    | Done w' a => k a w'
    | Running w' => Running w'
    | Execed w' => Execed w'
    | Exited w' s => Exited w' s
    end.

Notation "'let*' x ':=' m 'in' k" := (bind m (fun x => k))
  (at level 10, x pattern, m at level 100, k at level 200).

Definition world_of {A} (o : outcome A) : World :=
  match o with
  | Done w _ | Running w | Execed w | Exited w _ => w
  end.

Definition returned {A} (o : outcome A) : bool :=
  match o with Done _ _ => true | _ => false end.

(** A system call: a function on worlds that always returns. *)
Definition call {A} (f : World -> World * A) : M A :=
  fun w => let (w', a) := f w in Done w' a.

(** The next answer of the environment; an exhausted script answers 0. *)
Definition next_ret (w : World) : World * Z :=
  match rets w with
  | [] => (w, 0)
  | r :: rs => (set_rets rs w, r)
  end.

(** The next descriptor the kernel hands out: a non-negative number that
    is not open, with what is behind it; a failure is -1, and so is an
    exhausted script. *)
Definition next_fd (w : World) : World * Z :=
  match newfds w with
  | [] => (w, -1)
  | None :: rest => (set_newfds rest w, -1)
  | Some (fd, c) :: rest =>
      if (0 <=? fd) && bool_decide (fds w !! fd = None)
      then (set_fds (<[fd := c]> (fds w)) (set_newfds rest w), fd)
      else (set_newfds rest w, -1)
  end.

(** ** The system calls *)

Definition STDIN_FILENO : Z := 0.
Definition STDOUT_FILENO : Z := 1.
Definition STDERR_FILENO : Z := 2.

Definition perror (msg : string) : M unit :=
  call (fun w => (log_err msg w, tt)).

(** The stream [stdout] of stdio is descriptor 1: what printf and putchar
    print is recorded, piece by piece, in [stdout], and its bytes reach
    descriptor 1 behind the bytes that write has put there, when that
    descriptor is open.  stdio may hold the bytes back until the process
    exits; the program makes no write between a printf and its exit, so
    the order of the bytes on the descriptor is the same. *)
Definition to_stdout (s : string) (w : World) : World :=
  match fds w !! STDOUT_FILENO with
  | Some c =>
      set_fds (<[STDOUT_FILENO :=
                   Chan (rx c) (wres c) (tx c ++ String.list_byte_of_string s)]>
                 (fds w))
              (log_out s w)
  | None => log_out s w
  end.

Definition printf (s : string) : M unit :=
  call (fun w => (to_stdout s w, tt)).

(** A call whose result is the next answer of the environment. *)
Definition answered (ev : Z -> event) : M Z :=
  call (fun w => let (w1, r) := next_ret w in (log (ev r) w1, r)).

(** A call whose result is the next descriptor the kernel hands out. *)
Definition handed_out (ev : Z -> event) : M Z :=
  call (fun w => let (w1, r) := next_fd w in (log (ev r) w1, r)).

Definition sys_socket : M Z := handed_out EvSocket.

(** bind fails when the path exists already; otherwise the environment
    decides, and a successful bind creates the path. *)
Definition sys_bind (fd : Z) (path : string) : M Z :=
  call (fun w =>
    if bool_decide (path ∈ fs w) then (log (EvBind fd path (-1)) w, -1)
    else
      let (w1, r) := next_ret w in
      if r <? 0 then (log (EvBind fd path r) w1, r)
      else (log (EvBind fd path r) (set_fs ({[path]} ∪ fs w1) w1), r)).

Definition sys_listen (fd backlog : Z) : M Z := answered (EvListen fd backlog).

Definition sys_chmod (path : string) (mode : Z) : M Z :=
  answered (EvChmod path mode).

Definition sys_accept (fd : Z) : M Z := handed_out (EvAccept fd).

Definition sys_connect (fd : Z) (path : string) : M Z :=
  answered (EvConnect fd path).

Definition sys_fork : M Z := answered EvFork.

Definition sys_close (fd : Z) : M unit :=
  call (fun w => (log (EvClose fd) (set_fds (delete fd (fds w)) w), tt)).

Definition sys_unlink (path : string) : M unit :=
  call (fun w => (log (EvUnlink path) (set_fs (fs w ∖ {[path]}) w), tt)).

Definition sys_signal_ign_chld : M unit :=
  call (fun w => (log EvSignalIgnChld w, tt)).

(** openpty hands out two descriptors, or fails and leaves [mst] and
    [slv] as they were. *)
Definition sys_openpty (mst slv : Z) : M (Z * Z * Z) :=
  call (fun w =>
    let (w1, m) := next_fd w in
    if m <? 0 then (log (EvOpenpty (-1) mst slv) w1, (-1, mst, slv))
    else
      let (w2, s) := next_fd w1 in
      if s <? 0
      then (log (EvOpenpty (-1) mst slv) (set_fds (delete m (fds w2)) w2), (-1, mst, slv))
      else (log (EvOpenpty 0 m s) w2, (0, m, s))).

Definition sys_setsid : M Z := answered EvSetsid.

Definition sys_dup2 (oldfd newfd : Z) : M unit :=
  call (fun w =>
    match fds w !! oldfd with
    | Some c => (log (EvDup2 oldfd newfd) (set_fds (<[newfd := c]> (fds w)) w), tt)
    | None => (log (EvDup2 oldfd newfd) w, tt)
    end).

Definition sys_ioctl_sctty (fd : Z) : M Z := answered (EvIoctlSctty fd).

(** execvp returns only when it fails. *)
Definition sys_execvp (file : string) (argv : list string) : M Z :=
  fun w =>
    let (w1, r) := next_ret w in
    if r <? 0 then Done (log (EvExecvp file argv r) w1) r
    else Execed (log (EvExecvp file argv r) w1).

Definition sys_exit (status : Z) : M unit :=
  fun w => Exited w status.

Definition sys_shutdown (fd : Z) (how : shut_how) : M unit :=
  call (fun w => (log (EvShutdown fd how) w, tt)).

(** tcgetattr on stdin: copies the settings of the terminal, or fails and
    leaves the destination as it was when stdin is not a terminal. *)
Definition sys_tcgetattr (dst : termios) : M termios :=
  call (fun w =>
    match tty w with
    | Some t => (log (EvTcGet (Some t)) w, t)
    | None => (log (EvTcGet None) w, dst)
    end).

Definition sys_tcsetattr (t : termios) : M unit :=
  call (fun w =>
    match tty w with
    | Some _ => (log (EvTcSet t) (set_tty (Some t) w), tt)
    | None => (log (EvTcSet t) w, tt)
    end).

(** [fd_set]: the descriptors that are set. *)
Definition FD_ZERO : list Z := [].
Definition FD_SET (fd : Z) (s : list Z) : list Z := fd :: s.
Definition FD_ISSET (fd : Z) (s : list Z) : bool := existsb (Z.eqb fd) s.

(** select keeps, of the descriptors set in [readfds], those the
    environment reports readable; when the script is exhausted the call
    times out with none. *)
Definition sys_select (nfds : Z) (readfds : list Z) : M (list Z) :=
  call (fun w =>
    match ready w with
    | [] => (log (EvSelect nfds []) w, [])
    | r :: rest =>
        let s := List.filter (fun fd => FD_ISSET fd r) readfds in
        (log (EvSelect nfds s) (set_ready rest w), s)
    end).

(** read of one byte into [buff]: the result and the buffer afterwards. *)
Definition sys_read (fd : Z) (buff : byte) : M (Z * byte) :=
  call (fun w =>
    match fds w !! fd with
    | None => (log (EvRead fd RdErr) w, (-1, buff))
    | Some c =>
        match rx c with
        | [] => (log (EvRead fd RdEof) w, (0, buff))
        | r :: rest =>
            (log (EvRead fd r) (set_fds (<[fd := Chan rest (wres c) (tx c)]> (fds w)) w),
             (rd_len r, match r with RdByte b => b | _ => buff end))
        end
    end).

(** write of the one byte of [buff]. *)
Definition sys_write (fd : Z) (buff : byte) : M Z :=
  call (fun w =>
    match fds w !! fd with
    | None => (log (EvWrite fd buff WrErr) w, -1)
    | Some c =>
        match wres c with
        | [] =>
            (log (EvWrite fd buff WrOk)
                 (set_fds (<[fd := Chan (rx c) [] (tx c ++ [buff])]> (fds w)) w), 1)
        | WrOk :: rest =>
            (log (EvWrite fd buff WrOk)
                 (set_fds (<[fd := Chan (rx c) rest (tx c ++ [buff])]> (fds w)) w), 1)
        | r :: rest =>
            (log (EvWrite fd buff r)
                 (set_fds (<[fd := Chan (rx c) rest (tx c)]> (fds w)) w), wr_len r)
        end
    end).

(** ** The program *)

Definition SERVER_PATH : string := "/tmp/shell-tunnel-socket".
Definition EXEC_ARGV : list string := ["/bin/bash"; "-i"].

Definition MODE_UNDEF : Z := 0.
Definition MODE_DAEMON : Z := 1.
Definition MODE_CLIENT : Z := 2.

Definition CONS_CONFIG : Z := 0.
Definition CONS_RESTORE : Z := 1.

(** One half of the body of the loop of byte_interchange: read one byte
    from [src] and write it to [dst].  The result is [Some len] when the
    loop is left by [break], with the value [len] has then, and [None]
    when the body carries on.  The two halves of the source differ only
    in the descriptors and in the messages. *)
Definition transfer (src dst : Z) (rmsg wmsg : string) (buff : byte)
  : M (option Z * byte) :=
  let* (len, buff) := sys_read src buff in
  if len <? 0 then
    let* _ := perror rmsg in ret (Some len, buff)
  else if len =? 0 then
    ret (Some len, buff)
  else
    let* len := sys_write dst buff in
    if len <? 1 then
      let* _ := perror wmsg in ret (Some len, buff)
    else ret (None, buff).

(** One turn of the loop. *)
Definition relay_turn (in_a out_a in_b out_b nfds : Z) (buff : byte)
  : M (option Z * byte) :=
  let readfds := FD_SET in_b (FD_SET in_a FD_ZERO) in
  let* readfds := sys_select nfds readfds in
  let* (brk, buff) :=
    if FD_ISSET in_a readfds
    then transfer in_a out_b "could not read file (a)" "could not write file (b)" buff
    else ret (None, buff) in
  match brk with
  | Some len => ret (Some len, buff)
  | None =>
      if FD_ISSET in_b readfds
      then transfer in_b out_a "could not read file (b)" "could not write file (a)" buff
      else ret (None, buff)
  end.

Fixpoint relay_loop (fuel : nat) (in_a out_a in_b out_b nfds : Z) (buff : byte)
  : M Z :=
  match fuel with
  | O => fun w => Running w
  | S n =>
      let* (brk, buff) := relay_turn in_a out_a in_b out_b nfds buff in
      match brk with
      | Some len => ret len
      | None => relay_loop n in_a out_a in_b out_b nfds buff
      end
  end.

(** [buff] is not initialised in the source; it is written by a read
    before every use. *)
Definition byte_interchange (fuel : nat) (in_a out_a in_b out_b : Z) : M Z :=
  let nfds := (if in_a >=? in_b then in_a else in_b) + 1 in
  relay_loop fuel in_a out_a in_b out_b nfds x00.

(** *** Server side *)

Definition server_out_err_1 (sockfd : Z) : M unit :=
  let* _ := sys_close sockfd in
  sys_unlink SERVER_PATH.

Definition server_out_err_2 (sockfd new_sockfd : Z) : M unit :=
  let* _ := sys_close new_sockfd in
  server_out_err_1 sockfd.

Definition shell (fd : Z) : M unit :=
  let* err := sys_setsid in
  if err <? 0 then perror "could not create a new session"
  else
    let* _ := sys_dup2 fd STDIN_FILENO in
    let* _ := sys_dup2 fd STDOUT_FILENO in
    let* _ := sys_dup2 fd STDERR_FILENO in
    let* err := sys_ioctl_sctty fd in
    if err <? 0 then perror "could not issue IOCTL"
    else
      let* _ := sys_close fd in
      let* _ := sys_execvp (nth 0 EXEC_ARGV EmptyString) EXEC_ARGV in
      perror "could not exec shell".

(** [mst] and [slv] are not initialised in the source; they are used only
    after openpty has set them. *)
Definition spawn_shell (fuel : nat) (sockfd : Z) : M unit :=
  let* (err, mst, slv) := sys_openpty 0 0 in
  if err <? 0 then perror "could not open pseudo terminal"
  else
    let* pid := sys_fork in
    if pid =? -1 then perror "could not fork process"
    else if pid =? 0 then
      (* child process *)
      let* _ := sys_close mst in
      shell slv
    else
      (* parent process *)
      let* _ := sys_close slv in
      let* _ := byte_interchange fuel sockfd sockfd mst mst in
      sys_close mst.

(** The [while (true)] loop of server_mode; [n] bounds the number of
    turns, [fuel] the turns of the relay of a worker. *)
Fixpoint accept_loop (n fuel : nat) (sockfd : Z) : M unit :=
  match n with
  | O => fun w => Running w
  | S n' =>
      let* new_sockfd := sys_accept sockfd in
      if new_sockfd <? 0 then
        let* _ := perror "could not accept connection" in
        server_out_err_1 sockfd
      else
        let* pid := sys_fork in
        if pid <? 0 then
          let* _ := perror "could not fork process" in
          server_out_err_2 sockfd new_sockfd
        else if pid >? 0 then
          (* parent process *)
          let* _ := sys_close new_sockfd in
          accept_loop n' fuel sockfd
        else
          (* child process *)
          let* _ := sys_close sockfd in
          let* _ := spawn_shell fuel new_sockfd in
          sys_close new_sockfd
  end.

Definition server_mode (fuel : nat) : M unit :=
  let* sockfd := sys_socket in
  if sockfd <? 0 then perror "could not open socket"
  else
    let* err := sys_bind sockfd SERVER_PATH in
    if err <? 0 then
      let* _ := perror "could not bind to socket" in
      server_out_err_1 sockfd
    else
      let* err := sys_listen sockfd 1 in
      if err <? 0 then
        let* _ := perror "could not listen to socket" in
        server_out_err_1 sockfd
      else
        (* change socket mode to enable any user to connect *)
        let* err := sys_chmod SERVER_PATH 438 (* 0666 *) in
        if err <? 0 then
          let* _ := perror "could not change socket mode" in
          server_out_err_1 sockfd
        else accept_loop fuel fuel sockfd.

(** *** Client side *)

(** The values of Linux's termios.h (the same in bionic). *)
Definition ICANON : Z := 2.
Definition ECHO : Z := 8.

(** Conversion to [tcflag_t], an unsigned int of 32 bits. *)
Definition to_tcflag (z : Z) : Z := z mod 2 ^ 32.

Definition get_term_state : M termios := fun w => Done w (term_state w).
Definition put_term_state (t : termios) : M unit :=
  fun w => Done (set_term_state t w) tt.

Definition raw_lflag (local_echo : bool) (lflag : Z) : Z :=
  Z.land lflag
    (to_tcflag (Z.lnot (Z.lor ICANON (if negb local_echo then ECHO else 0)))).

Definition setup_console (phase : Z) (local_echo : bool) : M unit :=
  if phase =? CONS_CONFIG then
    (* switch to raw *)
    let* old := get_term_state in
    let* got := sys_tcgetattr old in
    let* _ := put_term_state got in
    let new_state :=
      Termios (c_iflag got) (c_oflag got) (c_cflag got)
              (raw_lflag local_echo (c_lflag got)) (c_cc got) in
    sys_tcsetattr new_state
  else if phase =? CONS_RESTORE then
    (* restore *)
    let* saved := get_term_state in
    sys_tcsetattr saved
  else ret tt.

Definition console_proxy (fuel : nat) (sockfd : Z) (local_echo : bool) : M Z :=
  let* _ := setup_console CONS_CONFIG local_echo in
  let* err := byte_interchange fuel STDIN_FILENO STDOUT_FILENO sockfd sockfd in
  let* _ := setup_console CONS_RESTORE local_echo in
  ret err.

Definition newline : string := String (Ascii.ascii_of_nat 10) EmptyString.

Definition client_out_err_1 : M unit := printf newline.

Definition client_out_err_2 (sockfd : Z) : M unit :=
  let* _ := sys_close sockfd in
  client_out_err_1.

Definition client_mode (fuel : nat) (local_echo : bool) : M unit :=
  let* sockfd := sys_socket in
  if sockfd <? 0 then
    let* _ := perror "could not open socket" in
    client_out_err_1
  else
    let* err := sys_connect sockfd SERVER_PATH in
    if err <? 0 then
      let* _ := perror "could not connect to socket" in
      client_out_err_2 sockfd
    else
      let* _ := console_proxy fuel sockfd local_echo in
      let* _ := sys_shutdown sockfd SHUT_RDWR in
      client_out_err_2 sockfd.

(** *** The command line *)

Definition print_usage (name : string) : M unit :=
  let* _ := printf ("Usage: " +:+ newline) in
  let* _ := printf (name +:+ " --daemon " +:+ newline) in
  let* _ := printf (name +:+ " --client [--echo] " +:+ newline) in
  sys_exit 1.

Fixpoint has_slash (s : string) : bool :=
  match s with
  | EmptyString => false
  | String c rest => Ascii.eqb c (Ascii.ascii_of_nat 47) || has_slash rest
  end.

(** The path without the slashes it ends with. *)
Fixpoint strip_slashes (s : string) : string :=
  match s with
  | EmptyString => EmptyString
  | String c rest =>
      match strip_slashes rest with
      | EmptyString =>
          if Ascii.eqb c (Ascii.ascii_of_nat 47) then EmptyString
          else String c EmptyString
      | r => String c r
      end
  end.

(** What follows the last slash of a path. *)
Fixpoint last_component (s : string) : string :=
  match s with
  | EmptyString => EmptyString
  | String c rest =>
      if has_slash rest then last_component rest
      else if Ascii.eqb c (Ascii.ascii_of_nat 47) then rest else s
  end.

(** libgen's basename: "." for the empty path, "/" for a path of
    slashes only, and otherwise the last component of the path, the
    slashes at its end left out. *)
Definition basename (s : string) : string :=
  match s with
  | EmptyString => "."
  | _ =>
      match strip_slashes s with
      | EmptyString => "/"
      | t => last_component t
      end
  end.

(** The body of the [for] loop of main on one argument: [!strcmp (a, b)]
    is equality of strings. *)
Definition parse_arg (st : Z * bool) (arg : string) : Z * bool :=
  let (mode, local_echo) := st in
  if String.eqb "--daemon" arg then (MODE_DAEMON, local_echo)
  else if String.eqb "--client" arg then (MODE_CLIENT, local_echo)
  else if String.eqb "--echo" arg then (mode, true)
  else (mode, local_echo).

(** The loop runs over argv[1] ... argv[argc - 1]. *)
Definition parse_command_line (argv : list string) : Z * bool :=
  fold_left parse_arg (skipn 1 argv) (MODE_UNDEF, false).

Definition main (fuel : nat) (argv : list string) : M Z :=
  let (mode, local_echo) := parse_command_line argv in
  if mode =? MODE_DAEMON then
    (* detach from calling process *)
    let* pid := sys_fork in
    if negb (pid =? 0) then ret 0
    else
      let* _ := sys_unlink SERVER_PATH in
      let* _ := sys_signal_ign_chld in
      let* _ := server_mode fuel in
      ret 0
  else if mode =? MODE_CLIENT then
    let* _ := client_mode fuel local_echo in
    ret 0
  else
    let* _ := print_usage (basename (nth 0 argv EmptyString)) in
    ret 0.

(** * Vocabulary of the properties *)

(** ** Bytes in flight *)

Fixpoint bytes_of (l : list rd) : list byte :=
  match l with
  | [] => []
  | RdByte b :: l' => b :: bytes_of l'
  | _ :: l' => bytes_of l'
  end.

Definition rd_bytes (r : rd) : list byte :=
  match r with RdByte b => [b] | _ => [] end.

(** The bytes produced on [fd] by the peer and not read yet. *)
Definition sent (w : World) (fd : Z) : list byte :=
  match fds w !! fd with Some c => bytes_of (rx c) | None => [] end.

(** The bytes delivered to [fd] so far. *)
Definition delivered (w : World) (fd : Z) : list byte :=
  match fds w !! fd with Some c => tx c | None => [] end.

(** [src] lost the bytes [l] from its head, [dst] gained them at its end,
    and nothing else moved. *)
Definition moved (src dst : Z) (l : list byte) (w w' : World) : Prop :=
  sent w src = l ++ sent w' src /\
  delivered w' dst = delivered w dst ++ l /\
  (forall fd, fd <> src -> sent w' fd = sent w fd) /\
  (forall fd, fd <> dst -> delivered w' fd = delivered w fd).

(** Both directions at once: the source of side a lost [la], which the
    sink of side b gained in the same order, and the source of side b
    lost [lb], which the sink of side a gained in the same order. *)
Definition relayed (in_a out_a in_b out_b : Z) (la lb : list byte)
    (w w' : World) : Prop :=
  sent w in_a = la ++ sent w' in_a /\
  delivered w' out_b = delivered w out_b ++ la /\
  sent w in_b = lb ++ sent w' in_b /\
  delivered w' out_a = delivered w out_a ++ lb.

(** ** Events *)

(** The events on which the relay loop is left: a read that returns 0 or
    -1 and a write that returns less than 1. *)
Definition is_stop (e : event) : bool :=
  match e with
  | EvRead _ RdEof | EvRead _ RdErr => true
  | EvWrite _ _ WrZero | EvWrite _ _ WrErr => true
  | _ => false
  end.

(** A read error or a write error. *)
Definition is_error (e : event) : bool :=
  match e with
  | EvRead _ RdErr => true
  | EvWrite _ _ WrZero | EvWrite _ _ WrErr => true
  | _ => false
  end.

(** The events of the relay. *)
Definition is_relay (e : event) : bool :=
  match e with
  | EvSelect _ _ | EvRead _ _ | EvWrite _ _ _ => true
  | _ => false
  end.

(** The value a read or a write returned. *)
Definition ev_len (e : event) : option Z :=
  match e with
  | EvRead _ r => Some (rd_len r)
  | EvWrite _ _ r => Some (wr_len r)
  | _ => None
  end.

(** The events [evs] of a piece of the relay that ends with [brk]: when
    the loop is left with [len], the last event is the read or the write
    that returned [len], it is a stop, and no event before it is; when
    the loop carries on, no event is a stop. *)
Definition stops_with (evs : list event) (brk : option Z) : Prop :=
  match brk with
  | None => Forall (fun e => is_stop e = false) evs
  | Some len =>
      exists body e,
        evs = body ++ [e] /\ Forall (fun e => is_stop e = false) body /\
        is_stop e = true /\ ev_len e = Some len
  end.
Arguments stops_with : simpl never.

(** The result of a run of the loop: it returned [len], or it is still
    turning. *)
Definition loop_result (o : outcome Z) : option (option Z) :=
  match o with
  | Done _ len => Some (Some len)
  | Running _ => Some None
  | _ => None
  end.

(** ** Frames *)

(** What the relay leaves alone: the filesystem, the settings of the
    terminal and the static variable of setup_console. *)
Record io_only (w w' : World) : Prop := {
  io_fs : fs w' = fs w;
  io_tty : tty w' = tty w;
  io_term_state : term_state w' = term_state w }.

(** ** Example worlds *)

Definition empty_chan : chan := Chan [] [] [].

(** A client session: "ls" is typed on stdin, the socket (which will be
    descriptor 3) carries "AB" from the shell, and stdin is then closed. *)
Definition w_session : World :=
  mkWorld (<[0 := Chan [RdByte x6c; RdByte x73] [] []]> (<[1 := empty_chan]> ∅))
          [[0]; [3]; [0; 3]; [0]]
          [Some (3, Chan [RdByte x41; RdByte x42] [] [])]
          [0]
          ∅ (Some (Termios 1280 5 191 35387 [])) termios_zero [] [] [].

(** The same session once the socket is open. *)
Definition w_relay : World :=
  set_fds (<[3 := Chan [RdByte x41; RdByte x42] [] []]> (fds w_session))
          w_session.

(** Two descriptors with nothing left to read: the first select reports
    descriptor 3, or descriptor 4. *)
Definition w_eof_a : World :=
  mkWorld (<[3 := empty_chan]> (<[4 := empty_chan]> ∅)) [[3]] [] []
          ∅ None termios_zero [] [] [].
Definition w_eof_b : World :=
  mkWorld (<[3 := empty_chan]> (<[4 := empty_chan]> ∅)) [[4]] [] []
          ∅ None termios_zero [] [] [].

(** ** Statements that are refuted below *)


(** The value byte_interchange returns tells on which side the relay
    ended: some function of the value gives the side of the descriptor of
    the read that ended it. *)
Definition return_value_identifies_side : Prop :=
  exists side_a : Z -> bool,
    forall fuel in_a out_a in_b out_b w w' len body fd r,
      in_a <> in_b ->
      byte_interchange fuel in_a out_a in_b out_b w = Done w' len ->
      trace w' = trace w ++ body ++ [EvRead fd r] ->
      side_a len = bool_decide (fd = in_a).

(** ** The client *)

(** What tcgetattr leaves in the static variable of setup_console: the
    settings of the terminal, or the variable as it was when stdin is not
    a terminal. *)
Definition snapshot (w : World) : termios :=
  match tty w with Some t => t | None => term_state w end.

(** The settings setup_console applies in its CONS_CONFIG phase. *)
Definition raw_state (local_echo : bool) (t : termios) : termios :=
  Termios (c_iflag t) (c_oflag t) (c_cflag t)
          (raw_lflag local_echo (c_lflag t)) (c_cc t).

Definition is_termios (e : event) : bool :=
  match e with EvTcGet _ | EvTcSet _ => true | _ => false end.


Definition is_shutdown_or_close (e : event) : bool :=
  match e with EvShutdown _ _ | EvClose _ => true | _ => false end.

(** The events of a session of the client before the relay. *)
Definition session_start (local_echo : bool) (w : World) (fd r : Z)
  : list event :=
  [EvSocket fd; EvConnect fd SERVER_PATH r;
   EvTcGet (tty w); EvTcSet (raw_state local_echo (snapshot w))].

(** The events of a session of the client after the relay. *)
Definition session_end (w : World) (fd : Z) : list event :=
  [EvTcSet (snapshot w); EvShutdown fd SHUT_RDWR; EvClose fd].

(** The runs of client_mode from the world [w]: its events and its
    outcome. *)
Inductive client_run (local_echo : bool) (w : World)
  : list event -> outcome unit -> Prop :=
| CR_no_socket r w' :
    r < 0 -> io_only w w' ->
    client_run local_echo w [EvSocket r] (Done w' tt)
| CR_no_connect fd r w' :
    0 <= fd -> r < 0 -> io_only w w' ->
    client_run local_echo w
      [EvSocket fd; EvConnect fd SERVER_PATH r; EvClose fd] (Done w' tt)
| CR_session fd r relay w' :
    0 <= fd -> 0 <= r ->
    Forall (fun e => is_relay e = true) relay ->
    tty w' = tty w -> term_state w' = snapshot w ->
    client_run local_echo w
      (session_start local_echo w fd r ++ relay ++ session_end w fd)
      (Done w' tt)
| CR_relaying fd r relay w' :
    0 <= fd -> 0 <= r ->
    Forall (fun e => is_relay e = true) relay ->
    Forall (fun e => is_stop e = false) relay ->
    client_run local_echo w
      (session_start local_echo w fd r ++ relay) (Running w').

(** After the relay the client shuts down the write half of the
    connection, and only that half. *)
Definition client_shuts_down_write_half_only : Prop :=
  forall fuel local_echo w w' evs fd r,
    client_mode fuel local_echo w = Done w' tt ->
    trace w' = trace w ++ evs ->
    In (EvConnect fd SERVER_PATH r) evs -> 0 <= r ->
    In (EvShutdown fd SHUT_WR) evs /\
    ~ In (EvShutdown fd SHUT_RDWR) evs /\
    ~ In (EvShutdown fd SHUT_RD) evs.

(** ** The server *)

Definition exited {A} (o : outcome A) : bool :=
  match o with Exited _ _ => true | _ => false end.

(** The events of a worker once it has its pseudo-terminal. *)
Definition is_worker_event (e : event) : bool :=
  match e with
  | EvFork _ | EvClose _ | EvSetsid _ | EvDup2 _ _ | EvIoctlSctty _ _
  | EvExecvp _ _ _ | EvSelect _ _ | EvRead _ _ | EvWrite _ _ _ => true
  | _ => false
  end.

(** The runs of spawn_shell: its events and its outcome. *)
Inductive spawn_run : list event -> outcome unit -> Prop :=
| SP_no_pty w' :
    last (stderr w') = Some "could not open pseudo terminal" ->
    spawn_run [EvOpenpty (-1) 0 0] (Done w' tt)
| SP_pty mst slv rest o :
    Forall (fun e => is_worker_event e = true) rest ->
    exited o = false ->
    spawn_run (EvOpenpty 0 mst slv :: rest) o.

(** The run has returned with the listening socket closed and the
    rendezvous path removed. *)
Definition released (lsock : Z) (o : outcome unit) : Prop :=
  exists w', o = Done w' tt /\ (lsock ∉ dom (fds w')) /\ (SERVER_PATH ∉ fs w').

(** The runs of the accept loop on the listening socket [lsock]. *)
Inductive acceptor_run (lsock : Z) : list event -> outcome unit -> Prop :=
| AR_fuel w' :
    acceptor_run lsock [] (Running w')
| AR_no_accept r o :
    r < 0 -> released lsock o ->
    acceptor_run lsock
      [EvAccept lsock r; EvClose lsock; EvUnlink SERVER_PATH] o
| AR_no_fork conn pid o :
    0 <= conn -> pid < 0 -> released lsock o ->
    acceptor_run lsock
      [EvAccept lsock conn; EvFork pid; EvClose conn;
       EvClose lsock; EvUnlink SERVER_PATH] o
| AR_parent conn pid rest o :
    0 <= conn -> pid > 0 -> acceptor_run lsock rest o ->
    acceptor_run lsock
      (EvAccept lsock conn :: EvFork pid :: EvClose conn :: rest) o
| AR_worker_done conn sp w1 w' :
    0 <= conn -> spawn_run sp (Done w1 tt) -> stderr w' = stderr w1 ->
    acceptor_run lsock
      ([EvAccept lsock conn; EvFork 0; EvClose lsock] ++ sp ++ [EvClose conn])
      (Done w' tt)
| AR_worker_gone conn sp o :
    0 <= conn -> spawn_run sp o -> returned o = false ->
    acceptor_run lsock ([EvAccept lsock conn; EvFork 0; EvClose lsock] ++ sp) o.

(** The runs of server_mode. *)
Inductive server_run : list event -> outcome unit -> Prop :=
| SR_no_socket r w' :
    r < 0 -> server_run [EvSocket r] (Done w' tt)
| SR_no_bind lsock r o :
    0 <= lsock -> r < 0 -> released lsock o ->
    server_run
      [EvSocket lsock; EvBind lsock SERVER_PATH r;
       EvClose lsock; EvUnlink SERVER_PATH] o
| SR_no_listen lsock b r o :
    0 <= lsock -> 0 <= b -> r < 0 -> released lsock o ->
    server_run
      [EvSocket lsock; EvBind lsock SERVER_PATH b; EvListen lsock 1 r;
       EvClose lsock; EvUnlink SERVER_PATH] o
| SR_no_chmod lsock b l r o :
    0 <= lsock -> 0 <= b -> 0 <= l -> r < 0 -> released lsock o ->
    server_run
      [EvSocket lsock; EvBind lsock SERVER_PATH b; EvListen lsock 1 l;
       EvChmod SERVER_PATH 438 r; EvClose lsock; EvUnlink SERVER_PATH] o
| SR_accepting lsock b l c evs o :
    0 <= lsock -> 0 <= b -> 0 <= l -> 0 <= c ->
    acceptor_run lsock evs o ->
    server_run
      ([EvSocket lsock; EvBind lsock SERVER_PATH b; EvListen lsock 1 l;
        EvChmod SERVER_PATH 438 c] ++ evs) o.

(** The failures of the setup of the acceptor after the socket exists. *)
Definition is_setup_failure (e : event) : bool :=
  match e with
  | EvBind _ _ r | EvListen _ _ r | EvChmod _ _ r | EvAccept _ r => r <? 0
  | _ => false
  end.

(** The tails of a list: the list itself first, the empty list last. *)
Fixpoint suffixes {A} (l : list A) : list (list A) :=
  match l with
  | [] => [[]]
  | _ :: l' => l :: suffixes l'
  end.

(** The shutdown path of the acceptor: what follows is the close of the
    listening socket and the unlink of the rendezvous path, and then
    server_mode has returned. *)
Definition shutdown_path (lsock : Z) (o : outcome unit) (post : list event)
  : Prop :=
  post = [EvClose lsock; EvUnlink SERVER_PATH] /\ released lsock o.

(** The pty failure in a worker: what follows is the close of the
    connection, and then server_mode has returned, the failure
    reported. *)
Definition worker_abort (o : outcome unit) (post : list event) : Prop :=
  (exists conn, post = [EvClose conn]) /\
  exists w', o = Done w' tt /\
             last (stderr w') = Some "could not open pseudo terminal".

(** The acceptor after a fork that returned the pid of a worker: it
    closes its copy of the connection and accepts again (or the step
    budget ends there). *)
Definition acceptor_goes_on (lsock conn : Z) (o : outcome unit)
    (post : list event) : Prop :=
  (post = [EvClose conn] /\ returned o = false) \/
  exists r rest, post = EvClose conn :: EvAccept lsock r :: rest.

(** What follows an event in a run of the server whose listening socket
    is [lsock] and whose outcome is [o], as a property of the tail of the
    trace that starts with the event. *)
Definition follows (lsock : Z) (o : outcome unit) (suf : list event) : Prop :=
  match suf with
  | EvBind _ _ r :: post | EvListen _ _ r :: post | EvChmod _ _ r :: post =>
      r < 0 -> shutdown_path lsock o post
  | EvAccept l conn :: post =>
      l = lsock /\
      (conn < 0 -> shutdown_path lsock o post) /\
      match post with
      | EvFork pid :: post' =>
          (pid > 0 -> acceptor_goes_on lsock conn o post') /\
          match post' with
          | EvClose x :: EvOpenpty r _ _ :: post'' =>
              r < 0 -> pid = 0 /\ x = lsock /\ post'' = [EvClose conn]
          | _ => True
          end
      | _ => True
      end
  | EvOpenpty r _ _ :: post => r < 0 -> worker_abort o post
  | _ => True
  end.

(** A worker of the server: the first connection is accepted on
    descriptor 4, fork returns 0, and no pseudo-terminal can be had. *)
Definition w_worker_no_pty : World :=
  mkWorld ∅ [] [Some (3, empty_chan); Some (4, empty_chan); None]
          [0; 0; 0; 0] ∅ None termios_zero [] [] [].

(** The acceptor: the first connection is accepted on descriptor 4, fork
    returns the pid 77 of the worker, and the next accept fails. *)
Definition w_acceptor : World :=
  mkWorld ∅ [] [Some (3, empty_chan); Some (4, empty_chan); None]
          [0; 0; 0; 77] ∅ None termios_zero [] [] [].

(** A second instance of the server: the rendezvous path exists, owned
    by a live instance. *)
Definition w_second_instance : World :=
  mkWorld ∅ [] [Some (3, empty_chan)] [] {[SERVER_PATH]} None termios_zero
          [] [] [].

(** ** The command line *)

(** The mode an argument selects, if it is a mode flag. *)
Definition mode_of_flag (arg : string) : option Z :=
  if String.eqb "--daemon" arg then Some MODE_DAEMON
  else if String.eqb "--client" arg then Some MODE_CLIENT
  else None.

(** The mode of the last mode flag among the arguments, and MODE_UNDEF
    when there is none. *)
Definition selected_mode (args : list string) : Z :=
  default MODE_UNDEF (last (omap mode_of_flag args)).

(** The arguments main knows. *)
Definition is_recognised (arg : string) : bool :=
  String.eqb "--daemon" arg || String.eqb "--client" arg
  || String.eqb "--echo" arg.

(** The lines of the usage message. *)
Definition usage (name : string) : list string :=
  ["Usage: " +:+ newline;
   name +:+ " --daemon " +:+ newline;
   name +:+ " --client [--echo] " +:+ newline].

(** ** The shape of the runs of the relay *)

Definition MSG_READ_A : string := "could not read file (a)".
Definition MSG_WRITE_B : string := "could not write file (b)".
Definition MSG_READ_B : string := "could not read file (b)".
Definition MSG_WRITE_A : string := "could not write file (a)".

(** One half of a turn of the loop, from [src] to [dst]: whether select
    reported [src], the system calls made, the messages printed by
    perror, and the value the loop is left with, if it is left. *)
Inductive half_shape (src dst : Z) (rmsg wmsg : string)
  : bool -> list event -> list string -> option Z -> Prop :=
| HS_skip :
    half_shape src dst rmsg wmsg false [] [] None
| HS_eof :
    half_shape src dst rmsg wmsg true [EvRead src RdEof] [] (Some 0)
| HS_read_error :
    half_shape src dst rmsg wmsg true [EvRead src RdErr] [rmsg] (Some (-1))
| HS_moved b :
    half_shape src dst rmsg wmsg true
      [EvRead src (RdByte b); EvWrite dst b WrOk] [] None
| HS_write_zero b :
    half_shape src dst rmsg wmsg true
      [EvRead src (RdByte b); EvWrite dst b WrZero] [wmsg] (Some 0)
| HS_write_error b :
    half_shape src dst rmsg wmsg true
      [EvRead src (RdByte b); EvWrite dst b WrErr] [wmsg] (Some (-1)).

(** A run of the loop of byte_interchange in [k] turns: turn after turn,
    each a select followed by the half from [in_a] to [out_b] and then,
    unless the loop was left, the half from [in_b] to [out_a]. *)
Inductive relay_shape (in_a out_a in_b out_b nfds : Z)
  : nat -> list event -> list string -> option Z -> Prop :=
| RS_budget :
    relay_shape in_a out_a in_b out_b nfds 0 [] [] None
| RS_left_in_a s ea ma len :
    half_shape in_a out_b MSG_READ_A MSG_WRITE_B (FD_ISSET in_a s)
      ea ma (Some len) ->
    relay_shape in_a out_a in_b out_b nfds 1
      (EvSelect nfds s :: ea) ma (Some len)
| RS_left_in_b s ea eb mb len :
    half_shape in_a out_b MSG_READ_A MSG_WRITE_B (FD_ISSET in_a s)
      ea [] None ->
    half_shape in_b out_a MSG_READ_B MSG_WRITE_A (FD_ISSET in_b s)
      eb mb (Some len) ->
    relay_shape in_a out_a in_b out_b nfds 1
      (EvSelect nfds s :: ea ++ eb) mb (Some len)
| RS_turn s ea eb k rest m brk :
    half_shape in_a out_b MSG_READ_A MSG_WRITE_B (FD_ISSET in_a s)
      ea [] None ->
    half_shape in_b out_a MSG_READ_B MSG_WRITE_A (FD_ISSET in_b s)
      eb [] None ->
    relay_shape in_a out_a in_b out_b nfds k rest m brk ->
    relay_shape in_a out_a in_b out_b nfds (S k)
      (EvSelect nfds s :: ea ++ eb ++ rest) m brk.

(** The relay crosses the two sides: what is read on [in_a] goes to
    [out_b], what is read on [in_b] goes to [out_a]. *)
Definition crossed (in_a out_a in_b out_b src dst : Z) : Prop :=
  (src = in_a /\ dst = out_b) \/ (src = in_b /\ dst = out_a).

Definition is_select (e : event) : bool :=
  match e with EvSelect _ _ => true | _ => false end.



(** No descriptor of the two is reported by a select of the script. *)
Definition never_ready (in_a in_b : Z) (script : list (list Z)) : Prop :=
  Forall (fun r => FD_ISSET in_a r = false /\ FD_ISSET in_b r = false) script.

(** A trace in which every read of a byte is followed at once by the
    write of that byte to the sink across, and in which there is no other
    write.  [pending] is the read that waits for its write. *)
Fixpoint paired (in_a out_a in_b out_b : Z) (pending : option (Z * byte))
    (l : list event) : Prop :=
  match l with
  | [] => pending = None
  | e :: l' =>
      match pending with
      | Some (src, b) =>
          (exists dst r,
             e = EvWrite dst b r /\ crossed in_a out_a in_b out_b src dst) /\
          paired in_a out_a in_b out_b None l'
      | None =>
          match e with
          | EvWrite _ _ _ => False
          | EvRead src (RdByte b) =>
              paired in_a out_a in_b out_b (Some (src, b)) l'
          | _ => paired in_a out_a in_b out_b None l'
          end
      end
  end.

(** A trace in which every read is on one of the two sources and on a
    descriptor that the last select reported.  [cur] is what the last
    select reported. *)
Fixpoint gated (in_a in_b : Z) (cur : list Z) (l : list event) : Prop :=
  match l with
  | [] => True
  | EvSelect _ s :: l' => gated in_a in_b s l'
  | EvRead fd _ :: l' =>
      (FD_ISSET fd cur = true /\ (fd = in_a \/ fd = in_b)) /\
      gated in_a in_b cur l'
  | _ :: l' => gated in_a in_b cur l'
  end.

(** How the relay ended, read off its last event [e], and what it
    printed, [errs]. *)
Definition verdict (in_a out_a in_b out_b : Z) (e : event)
    (errs : list string) : Prop :=
  match e with
  | EvRead fd RdEof => errs = [] /\ (fd = in_a \/ fd = in_b)
  | EvRead fd RdErr =>
      (fd = in_a /\ errs = [MSG_READ_A]) \/ (fd = in_b /\ errs = [MSG_READ_B])
  | EvWrite fd _ WrZero | EvWrite fd _ WrErr =>
      (fd = out_b /\ errs = [MSG_WRITE_B]) \/
      (fd = out_a /\ errs = [MSG_WRITE_A])
  | _ => False
  end.

(** Two descriptors: select reports descriptor 4, whose read fails. *)
Definition w_read_error : World :=
  mkWorld (<[3 := empty_chan]> (<[4 := Chan [RdErr] [] []]> ∅)) [[4]] [] []
          ∅ None termios_zero [] [] [].

(** A client session in which data waits on both sides, but select times
    out twice, then reports a descriptor that is not of the relay, and
    then times out for ever. *)
Definition w_idle : World :=
  mkWorld (<[0 := Chan [RdByte x6c] [] []]>
             (<[1 := empty_chan]> (<[3 := Chan [RdByte x41] [] []]> ∅)))
          [[]; []; [5]] [] []
          ∅ None termios_zero [] [] [].

(** A client session in which only the keyboard is reported: "ls" is
    typed and stdin is closed, while a byte of the shell waits. *)
Definition w_typing : World :=
  mkWorld (<[0 := Chan [RdByte x6c; RdByte x73] [] []]>
             (<[1 := empty_chan]> (<[3 := Chan [RdByte x41] [] []]> ∅)))
          [[0]; [0]; [0]; [3]] [] []
          ∅ None termios_zero [] [] [].

(** ** The account of the bytes *)




(** ** What a turn owes to a select *)




(** A client started with its standard input closed: the socket is
    descriptor 0, and the shell has sent "AB". *)
Definition w_shared_source : World :=
  mkWorld (<[0 := Chan [RdByte x41; RdByte x42] [] []]> (<[1 := empty_chan]> ∅))
          [[0]] [] [] ∅ None termios_zero [] [] [].


(** ** The child that becomes the shell *)

(** The system calls of shell up to the ioctl. *)
Definition shell_attach (fd r1 r2 : Z) : list event :=
  [EvSetsid r1; EvDup2 fd STDIN_FILENO; EvDup2 fd STDOUT_FILENO;
   EvDup2 fd STDERR_FILENO; EvIoctlSctty fd r2].

(** The descriptors [m] once the three standard descriptors are what
    is behind the slave, [c]. *)
Definition on_stdio (c : chan) (m : gmap Z chan) : gmap Z chan :=
  <[STDERR_FILENO := c]> (<[STDOUT_FILENO := c]> (<[STDIN_FILENO := c]> m)).

(** The same once the slave [fd] itself is closed. *)
Definition wired_to (fd : Z) (c : chan) (m : gmap Z chan) : gmap Z chan :=
  delete fd (on_stdio c m).

(** A worker whose connection is descriptor 4 and whose slave is
    descriptor 6: every call succeeds. *)
Definition w_shell : World :=
  mkWorld (<[0 := empty_chan]> (<[1 := empty_chan]> (<[2 := empty_chan]>
             (<[4 := empty_chan]> (<[6 := Chan [RdByte x6c] [] []]> ∅)))))
          [] [] [0; 0; 0] ∅ None termios_zero [] [] [].

(** The same worker when it cannot get the controlling terminal. *)
Definition w_shell_no_tty : World :=
  mkWorld (<[0 := empty_chan]> (<[1 := empty_chan]> (<[2 := empty_chan]>
             (<[4 := empty_chan]> (<[6 := Chan [RdByte x6c] [] []]> ∅)))))
          [] [] [0; -1] ∅ None termios_zero [] [] [].

(** ** Descriptors *)

(** The same descriptors are open, the same was printed on the standard
    output and the same paths exist. *)
Record same_descriptors (w w' : World) : Prop := {
  sd_dom : dom (fds w') = dom (fds w);
  sd_stdout : stdout w' = stdout w;
  sd_fs : fs w' = fs w }.

(** A worker that becomes the parent of its shell: the connection is
    descriptor 4, the pseudo-terminal gets 5 and 6, fork returns the pid
    77 of the shell, and the peer has closed the connection. *)
Definition w_worker_parent : World :=
  mkWorld (<[4 := empty_chan]> ∅) [[4]]
          [Some (5, empty_chan); Some (6, empty_chan)] [77] ∅ None
          termios_zero [] [] [].

(** What the process is when a run is over and no fork has returned 0
    in it: the process that called. *)
Definition is_fork_child (e : event) : bool :=
  match e with EvFork r => r =? 0 | _ => false end.

Definition stays_parent (evs : list event) : Prop :=
  Forall (fun e => is_fork_child e = false) evs.

(** ** The two processes of the server *)

(** The system calls of a process in which fork has returned 0: the
    worker of a connection, or the shell of the worker before its exec. *)
Definition is_child_event (e : event) : bool :=
  match e with
  | EvOpenpty _ _ _ => true
  | _ => is_worker_event e
  end.

(** What follows a fork in a run of the server whose listening socket is
    [lsock] and whose outcome is [o], as a property of the tail of the
    trace that starts with the accept before the fork, or with the fork
    itself. *)
Definition fork_outcome (lsock : Z) (o : outcome unit) (suf : list event)
  : Prop :=
  match suf with
  | EvAccept l conn :: EvFork pid :: post =>
      l = lsock /\
      (pid < 0 ->
       post = [EvClose conn; EvClose lsock; EvUnlink SERVER_PATH] /\
       released lsock o)
  | EvFork pid :: post =>
      pid = 0 -> Forall (fun e => is_child_event e = true) post
  | _ => True
  end.

Definition is_unlink (e : event) : bool :=
  match e with EvUnlink _ => true | _ => false end.

(** The failures after which the acceptor gives up. *)
Definition is_fatal (e : event) : bool :=
  match e with
  | EvFork r => r <? 0
  | _ => is_setup_failure e
  end.

(** The run removes nothing, or it ends with the close of the listening
    socket and the unlink of the rendezvous path, after a failure of the
    acceptor. *)
Definition unlinks_last (lsock : Z) (o : outcome unit) (evs : list event)
  : Prop :=
  Forall (fun e => is_unlink e = false) evs \/
  exists pre,
    evs = pre ++ [EvClose lsock; EvUnlink SERVER_PATH] /\
    Forall (fun e => is_unlink e = false) pre /\
    stays_parent pre /\
    Exists (fun e => is_fatal e = true) pre /\
    released lsock o.

(** The acceptor when the fork of its first worker fails. *)
Definition w_acceptor_no_fork : World :=
  mkWorld ∅ [] [Some (3, empty_chan); Some (4, empty_chan)]
          [0; 0; 0; -1] ∅ None termios_zero [] [] [].

(** ** Worlds for main *)

(** No socket can be had. *)
Definition w_no_socket : World :=
  mkWorld ∅ [] [] [] ∅ None termios_zero [] [] [].

(** The process that starts the daemon: fork returns the pid 42 of the
    daemon. *)
Definition w_invoker : World :=
  mkWorld ∅ [] [Some (3, empty_chan)] [42] ∅ None termios_zero [] [] [].

(** The daemon when the rendezvous path of an earlier instance is still
    there: fork returns 0, bind, listen and chmod succeed, and no
    connection comes in. *)
Definition w_stale_path : World :=
  mkWorld ∅ [] [Some (3, empty_chan); None] [0; 0; 0; 0] {[SERVER_PATH]}
          None termios_zero [] [] [].

(** The worker of a connection on descriptor 4, its three standard
    descriptors open, when every call succeeds and fork returns 0: the
    process that becomes the shell. *)
Definition w_worker_child : World :=
  mkWorld (<[0 := empty_chan]> (<[1 := empty_chan]> (<[2 := empty_chan]>
             (<[4 := Chan [RdByte x6c] [] []]> ∅))))
          []
          [Some (5, empty_chan); Some (6, Chan [RdByte x73] [] [])]
          [0; 0; 0; 0] ∅ None termios_zero [] [] [].

(** ** What the acceptor reports *)

(** The message the acceptor prints after a call, if the call failed. *)
Definition failure_report (e : event) : option string :=
  match e with
  | EvSocket r => if r <? 0 then Some "could not open socket" else None
  | EvBind _ _ r => if r <? 0 then Some "could not bind to socket" else None
  | EvListen _ _ r =>
      if r <? 0 then Some "could not listen to socket" else None
  | EvChmod _ _ r =>
      if r <? 0 then Some "could not change socket mode" else None
  | EvAccept _ r =>
      if r <? 0 then Some "could not accept connection" else None
  | EvFork r => if r <? 0 then Some "could not fork process" else None
  | _ => None
  end.

(** ** Tactics *)

(** Rewrites the trace of the world of the goal down to the trace of the
    first world followed by the list of the events since. *)
Ltac trace_norm :=
  simpl;
  repeat (match goal with H : trace _ = _ |- _ => rewrite H end; simpl);
  rewrite <- ?app_assoc; simpl.


(** Closes a case of the shape of a half turn once the calls are
    evaluated. *)
Ltac shape_leaf :=
  eexists _, _, _, _, _; split; [reflexivity|]; simpl;
  rewrite <- ?app_assoc;
  split; [first [reflexivity | symmetry; apply app_nil_r]|];
  split; [first [reflexivity | symmetry; apply app_nil_r]|];
  constructor.

(** * Proofs *)

(** ** The model at work *)

Example parse_last_mode_flag :
  parse_command_line ["shell-tunnel"; "--daemon"; "-x"; "--client"]
  = (MODE_CLIENT, false).
Proof. reflexivity. Qed.

Example parse_echo_anywhere :
  parse_command_line ["shell-tunnel"; "--echo"; "--client"]
  = (MODE_CLIENT, true).
Proof. reflexivity. Qed.

Example parse_ignores_argv0 :
  parse_command_line ["--daemon"] = (MODE_UNDEF, false).
Proof. reflexivity. Qed.

Example basename_of_path : basename "/usr/bin/shell-tunnel" = "shell-tunnel".
Proof. reflexivity. Qed.

Example basename_of_directory : basename "bin/shell-tunnel/" = "shell-tunnel".
Proof. reflexivity. Qed.

Example basename_of_root : basename "/" = "/".
Proof. reflexivity. Qed.

Example basename_of_nothing : basename EmptyString = ".".
Proof. reflexivity. Qed.

Example raw_lflag_default : raw_lflag false 35387 = 35377.
Proof. reflexivity. Qed.

Example raw_lflag_with_echo : raw_lflag true 35387 = 35385.
Proof. reflexivity. Qed.

Example client_session_trace :
  trace (world_of (client_mode 10 false w_session))
  = [EvSocket 3; EvConnect 3 SERVER_PATH 0;
     EvTcGet (Some (Termios 1280 5 191 35387 []));
     EvTcSet (Termios 1280 5 191 35377 []);
     EvSelect 4 [0]; EvRead 0 (RdByte x6c); EvWrite 3 x6c WrOk;
     EvSelect 4 [3]; EvRead 3 (RdByte x41); EvWrite 1 x41 WrOk;
     EvSelect 4 [3; 0]; EvRead 0 (RdByte x73); EvWrite 3 x73 WrOk;
     EvRead 3 (RdByte x42); EvWrite 1 x42 WrOk;
     EvSelect 4 [0]; EvRead 0 RdEof;
     EvTcSet (Termios 1280 5 191 35387 []);
     EvShutdown 3 SHUT_RDWR; EvClose 3].
Proof. vm_compute. reflexivity. Qed.

Example client_session_output :
  delivered (world_of (byte_interchange 10 0 1 3 3 w_relay)) 1 = [x41; x42] /\
  delivered (world_of (byte_interchange 10 0 1 3 3 w_relay)) 3 = [x6c; x73].
Proof. vm_compute. split; reflexivity. Qed.

(** What descriptor 1 of the client has received when the session is
    over: the two bytes of the shell and the newline of the client. *)
Example client_session_stdout :
  delivered (world_of (client_mode 10 false w_session)) STDOUT_FILENO
  = [x41; x42; x0a].
Proof. vm_compute. reflexivity. Qed.

Example worker_without_pty_trace :
  trace (world_of (server_mode 10 w_worker_no_pty))
  = [EvSocket 3; EvBind 3 SERVER_PATH 0; EvListen 3 1 0;
     EvChmod SERVER_PATH 438 0; EvAccept 3 4; EvFork 0; EvClose 3;
     EvOpenpty (-1) 0 0; EvClose 4].
Proof. vm_compute. reflexivity. Qed.

Example acceptor_trace :
  trace (world_of (server_mode 10 w_acceptor))
  = [EvSocket 3; EvBind 3 SERVER_PATH 0; EvListen 3 1 0;
     EvChmod SERVER_PATH 438 0; EvAccept 3 4; EvFork 77; EvClose 4;
     EvAccept 3 (-1); EvClose 3; EvUnlink SERVER_PATH].
Proof. vm_compute. reflexivity. Qed.

Example second_instance_trace :
  trace (world_of (server_mode 10 w_second_instance))
  = [EvSocket 3; EvBind 3 SERVER_PATH (-1); EvClose 3;
     EvUnlink SERVER_PATH].
Proof. vm_compute. reflexivity. Qed.

Example usage_exit_status :
  exists w', main 10 ["./shell-tunnel"; "--help"] w_acceptor = Exited w' 1 /\
             stdout w' = usage "shell-tunnel".
Proof. eexists. split; vm_compute; reflexivity. Qed.

(** ** Frames and single calls *)

Lemma io_only_refl w : io_only w w.
Proof. by split. Qed.

(** printf touches the standard output and nothing else. *)
Lemma to_stdout_frame s w :
  trace (to_stdout s w) = trace w /\ stderr (to_stdout s w) = stderr w /\
  fs (to_stdout s w) = fs w /\ tty (to_stdout s w) = tty w /\
  term_state (to_stdout s w) = term_state w /\
  (stdout (to_stdout s w) = stdout w ++ [s]) /\
  (dom (fds (to_stdout s w)) = dom (fds w)).
Proof.
  unfold to_stdout. destruct (fds w !! STDOUT_FILENO) eqn:E; simpl.
  - split_and!; try done. by apply dom_insert_lookup_L.
  - by split_and!.
Qed.

Lemma to_stdout_trace s w : trace (to_stdout s w) = trace w.
Proof. apply to_stdout_frame. Qed.

Lemma to_stdout_stderr s w : stderr (to_stdout s w) = stderr w.
Proof. apply to_stdout_frame. Qed.

Lemma to_stdout_stdout s w : stdout (to_stdout s w) = stdout w ++ [s].
Proof. apply to_stdout_frame. Qed.

Lemma to_stdout_tty s w : tty (to_stdout s w) = tty w.
Proof. apply to_stdout_frame. Qed.

Lemma to_stdout_term_state s w : term_state (to_stdout s w) = term_state w.
Proof. apply to_stdout_frame. Qed.



Lemma to_stdout_io_only s w : io_only w (to_stdout s w).
Proof. split; apply to_stdout_frame. Qed.

Lemma io_only_trans w1 w2 w3 :
  io_only w1 w2 -> io_only w2 w3 -> io_only w1 w3.
Proof. intros [] []; split; congruence. Qed.

Lemma moved_nil_same_fds src dst w w' : fds w' = fds w -> moved src dst [] w w'.
Proof.
  intros E; unfold moved, sent, delivered; rewrite E, app_nil_r; auto.
Qed.

Lemma sys_read_run fd buff w :
  exists w' r,
    sys_read fd buff w
      = Done w' (rd_len r, match r with RdByte b => b | _ => buff end) /\
    trace w' = trace w ++ [EvRead fd r] /\
    io_only w w' /\
    sent w fd = rd_bytes r ++ sent w' fd /\
    (forall fd', fd' <> fd -> sent w' fd' = sent w fd') /\
    (forall fd', delivered w' fd' = delivered w fd').
Proof.
  unfold sys_read, call, sent, delivered.
  destruct (fds w !! fd) as [c|] eqn:E.
  - destruct (rx c) as [|r rest] eqn:Erx.
    + exists (log (EvRead fd RdEof) w), RdEof; simpl.
      rewrite E, Erx. by split_and!.
    + eexists _, r. split; [reflexivity|]. simpl.
      rewrite lookup_insert_eq; simpl.
      split_and!; try done.
      * by destruct r.
      * intros fd' Hne. by rewrite lookup_insert_ne.
      * intros fd'. destruct (decide (fd = fd')) as [->|Hne].
        -- by rewrite lookup_insert_eq, E.
        -- by rewrite lookup_insert_ne.
  - exists (log (EvRead fd RdErr) w), RdErr; simpl.
    rewrite E. by split_and!.
Qed.

Lemma sys_write_run fd b w :
  exists w' r,
    sys_write fd b w = Done w' (wr_len r) /\
    trace w' = trace w ++ [EvWrite fd b r] /\
    io_only w w' /\
    (forall fd', sent w' fd' = sent w fd') /\
    delivered w' fd
      = delivered w fd ++ (if is_stop (EvWrite fd b r) then [] else [b]) /\
    (forall fd', fd' <> fd -> delivered w' fd' = delivered w fd').
Proof.
  unfold sys_write, call, sent, delivered.
  destruct (fds w !! fd) as [c|] eqn:E.
  - assert (Hs : forall (c' : chan) fd', rx c' = rx c ->
              match <[fd := c']> (fds w) !! fd' with
              | Some c0 => bytes_of (rx c0) | None => [] end
              = match fds w !! fd' with
                | Some c0 => bytes_of (rx c0) | None => [] end).
    { intros c' fd' Hrx. destruct (decide (fd = fd')) as [->|Hne].
      - by rewrite lookup_insert_eq, E, Hrx.
      - by rewrite lookup_insert_ne. }
    assert (Ho : forall (c' : chan) fd', fd' <> fd ->
              match <[fd := c']> (fds w) !! fd' with
              | Some c0 => tx c0 | None => [] end
              = match fds w !! fd' with
                | Some c0 => tx c0 | None => [] end).
    { intros c' fd' Hne. by rewrite lookup_insert_ne. }
    destruct (wres c) as [|[| |] rest] eqn:Ew.
    + eexists _, WrOk. split; [reflexivity|]. simpl.
      rewrite lookup_insert_eq; simpl. split_and!; auto. by split.
    + eexists _, WrOk. split; [reflexivity|]. simpl.
      rewrite lookup_insert_eq; simpl. split_and!; auto. by split.
    + eexists _, WrZero. split; [reflexivity|]. simpl.
      rewrite lookup_insert_eq; simpl. rewrite app_nil_r.
      split_and!; auto. by split.
    + eexists _, WrErr. split; [reflexivity|]. simpl.
      rewrite lookup_insert_eq; simpl. rewrite app_nil_r.
      split_and!; auto. by split.
  - exists (log (EvWrite fd b WrErr) w), WrErr; simpl.
    rewrite E. by split_and!.
Qed.

Lemma stops_with_app l1 l2 brk :
  Forall (fun e => is_stop e = false) l1 ->
  stops_with l2 brk -> stops_with (l1 ++ l2) brk.
Proof.
  intros H1; destruct brk as [len|]; unfold stops_with.
  - intros (body & e & -> & Hb & He & Hl).
    exists (l1 ++ body), e. rewrite app_assoc. split_and!; auto.
    by apply Forall_app.
  - intros H2. by apply Forall_app.
Qed.

Lemma stops_with_last (e : event) (len : Z) :
  is_stop e = true -> ev_len e = Some len -> stops_with [e] (Some len).
Proof. intros H1 H2. exists [], e. by split_and!. Qed.

Lemma transfer_run src dst rmsg wmsg buff w :
  exists w' brk buff' evs,
    transfer src dst rmsg wmsg buff w = Done w' (brk, buff') /\
    trace w' = trace w ++ evs /\
    Forall (fun e => is_relay e = true) evs /\
    stops_with evs brk /\
    io_only w w' /\
    (Forall (fun e => is_error e = false) evs ->
     exists l, moved src dst l w w').
Proof.
  unfold transfer, bind.
  destruct (sys_read_run src buff w)
    as (w1 & r & -> & Ht1 & Hio1 & Hs1 & Hso1 & Hd1).
  destruct r as [b| |]; simpl.
  - destruct (sys_write_run dst b w1)
      as (w2 & q & -> & Ht2 & Hio2 & Hs2 & Hd2 & Hdo2).
    assert (Htr : trace w2 = trace w ++ [EvRead src (RdByte b); EvWrite dst b q]).
    { rewrite Ht2, Ht1, <- app_assoc. reflexivity. }
    assert (Hio : io_only w w2) by eauto using io_only_trans.
    destruct q; simpl.
    + exists w2, None, b, [EvRead src (RdByte b); EvWrite dst b WrOk].
      split_and!; try done.
      * by repeat constructor.
      * by repeat constructor.
      * intros _. exists [b]. unfold moved.
        rewrite Hs2, Hd2, Hd1, Hs1. simpl. split_and!; auto.
        -- intros fd Hne. rewrite Hs2. auto.
        -- intros fd Hne. rewrite Hdo2 by done. auto.
    + unfold perror, call, ret; simpl.
      eexists _, (Some 0), b, [EvRead src (RdByte b); EvWrite dst b WrZero].
      split; [reflexivity|]. simpl. split_and!; try done.
      * by repeat constructor.
      * apply (stops_with_app [_] [_]); [by repeat constructor|].
        by apply stops_with_last.
      * by destruct Hio.
      * intros Hno. inversion Hno as [|? ? _ Hno']; subst.
        inversion Hno' as [|? ? Hbad _]; subst. discriminate.
    + unfold perror, call, ret; simpl.
      eexists _, (Some (-1)), b, [EvRead src (RdByte b); EvWrite dst b WrErr].
      split; [reflexivity|]. simpl. split_and!; try done.
      * by repeat constructor.
      * apply (stops_with_app [_] [_]); [by repeat constructor|].
        by apply stops_with_last.
      * by destruct Hio.
      * intros Hno. inversion Hno as [|? ? _ Hno']; subst.
        inversion Hno' as [|? ? Hbad _]; subst. discriminate.
  - unfold ret. exists w1, (Some 0), buff, [EvRead src RdEof].
    split_and!; try done.
    + by repeat constructor.
    + by apply stops_with_last.
    + intros _. exists []. unfold moved. simpl in Hs1.
      rewrite app_nil_r. by split_and!.
  - unfold perror, call, ret; simpl.
    eexists _, (Some (-1)), buff, [EvRead src RdErr].
    split; [reflexivity|]. simpl. split_and!; try done.
    + by repeat constructor.
    + by apply stops_with_last.
    + by destruct Hio1.
    + intros Hno. inversion Hno as [|? ? Hbad _]; subst. discriminate.
Qed.

Lemma moved_refl src dst w : moved src dst [] w w.
Proof. by apply moved_nil_same_fds. Qed.

Lemma moved_rebase src dst l w0 w w' :
  fds w = fds w0 -> moved src dst l w w' -> moved src dst l w0 w'.
Proof.
  unfold moved, sent, delivered. intros ->. tauto.
Qed.

(** One direction after the other, on distinct descriptors. *)
Lemma moved_moved_relayed in_a out_a in_b out_b la lb w w1 w2 :
  in_a <> in_b -> out_a <> out_b ->
  moved in_a out_b la w w1 -> moved in_b out_a lb w1 w2 ->
  relayed in_a out_a in_b out_b la lb w w2.
Proof.
  intros Hi Ho (Hs1 & Hd1 & Hso1 & Hdo1) (Hs2 & Hd2 & Hso2 & Hdo2).
  unfold relayed. split_and!.
  - rewrite Hs1. f_equal. symmetry. by apply Hso2.
  - rewrite <- Hd1. apply Hdo2. congruence.
  - rewrite <- Hs2. symmetry. apply Hso1. congruence.
  - rewrite Hd2. f_equal. by apply Hdo1.
Qed.

Lemma relayed_refl in_a out_a in_b out_b w :
  relayed in_a out_a in_b out_b [] [] w w.
Proof. unfold relayed. by rewrite !app_nil_r. Qed.

Lemma relayed_trans in_a out_a in_b out_b la lb la' lb' w1 w2 w3 :
  relayed in_a out_a in_b out_b la lb w1 w2 ->
  relayed in_a out_a in_b out_b la' lb' w2 w3 ->
  relayed in_a out_a in_b out_b (la ++ la') (lb ++ lb') w1 w3.
Proof.
  intros (A1 & A2 & A3 & A4) (B1 & B2 & B3 & B4). unfold relayed.
  rewrite A1, B1, B2, A2, A3, B3, B4, A4, <- !app_assoc. by split_and!.
Qed.

Lemma sys_select_run nfds s w :
  exists w' s',
    sys_select nfds s w = Done w' s' /\
    trace w' = trace w ++ [EvSelect nfds s'] /\
    io_only w w' /\ fds w' = fds w.
Proof.
  unfold sys_select, call. destruct (ready w) as [|r rest].
  - eexists _, _. split; [reflexivity|]. by split_and!.
  - eexists _, _. split; [reflexivity|]. by split_and!.
Qed.

(** A half of the loop body under its [if (FD_ISSET (...))]. *)
Lemma guarded_transfer_run (c : bool) src dst rmsg wmsg buff w :
  exists w' brk buff' evs,
    (if c then transfer src dst rmsg wmsg buff else ret (None, buff)) w
      = Done w' (brk, buff') /\
    trace w' = trace w ++ evs /\
    Forall (fun e => is_relay e = true) evs /\
    stops_with evs brk /\
    io_only w w' /\
    (Forall (fun e => is_error e = false) evs ->
     exists l, moved src dst l w w').
Proof.
  destruct c; [apply transfer_run|].
  exists w, None, buff, []. rewrite app_nil_r.
  split_and!; try done; try (by unfold stops_with; apply Forall_nil).
  intros _. exists []. apply moved_refl.
Qed.

Lemma relay_turn_run in_a out_a in_b out_b nfds buff w :
  exists w' brk buff' evs,
    relay_turn in_a out_a in_b out_b nfds buff w = Done w' (brk, buff') /\
    trace w' = trace w ++ evs /\
    Forall (fun e => is_relay e = true) evs /\
    stops_with evs brk /\
    io_only w w' /\
    (Forall (fun e => is_error e = false) evs ->
     in_a <> in_b -> out_a <> out_b ->
     exists la lb, relayed in_a out_a in_b out_b la lb w w').
Proof.
  unfold relay_turn, bind.
  destruct (sys_select_run nfds (FD_SET in_b (FD_SET in_a FD_ZERO)) w)
    as (w0 & s & -> & Ht0 & Hio0 & Hfds0).
  destruct (guarded_transfer_run (FD_ISSET in_a s) in_a out_b
              "could not read file (a)" "could not write file (b)" buff w0)
    as (w1 & brk1 & buff1 & evs1 & -> & Ht1 & Hr1 & Hs1 & Hio1 & Hm1).
  destruct brk1 as [len|].
  - exists w1, (Some len), buff1, (EvSelect nfds s :: evs1).
    split_and!; try done.
    + by rewrite Ht1, Ht0, <- app_assoc.
    + by constructor.
    + by apply (stops_with_app [_]); [repeat constructor|].
    + eauto using io_only_trans.
    + intros Hno Hi Ho. apply Forall_cons in Hno as [_ Hno].
      destruct (Hm1 Hno) as (la & Hla). exists la, [].
      eapply moved_moved_relayed; eauto using moved_rebase, moved_refl.
  - destruct (guarded_transfer_run (FD_ISSET in_b s) in_b out_a
              "could not read file (b)" "could not write file (a)" buff1 w1)
      as (w2 & brk2 & buff2 & evs2 & -> & Ht2 & Hr2 & Hs2 & Hio2 & Hm2).
    exists w2, brk2, buff2, (EvSelect nfds s :: evs1 ++ evs2).
    split_and!; try done.
    + by rewrite Ht2, Ht1, Ht0, <- !app_assoc.
    + constructor; [done|]. by apply Forall_app.
    + apply (stops_with_app (_ :: _)); [|done]. by constructor.
    + eauto using io_only_trans.
    + intros Hno Hi Ho. apply Forall_cons in Hno as [_ Hno].
      apply Forall_app in Hno as [Hno1 Hno2].
      destruct (Hm1 Hno1) as (la & Hla). destruct (Hm2 Hno2) as (lb & Hlb).
      exists la, lb.
      eapply moved_moved_relayed; eauto using moved_rebase.
Qed.

(** Every run of the loop, for every step budget: its events are events
    of the relay, a stop is its last event and only when it has
    returned, it leaves the filesystem and the terminal alone, and without
    an error it moves the bytes of each direction in order. *)
Lemma relay_loop_run in_a out_a in_b out_b nfds fuel : forall buff w,
  exists brk evs,
    loop_result (relay_loop fuel in_a out_a in_b out_b nfds buff w) = Some brk /\
    trace (world_of (relay_loop fuel in_a out_a in_b out_b nfds buff w))
      = trace w ++ evs /\
    Forall (fun e => is_relay e = true) evs /\
    stops_with evs brk /\
    io_only w (world_of (relay_loop fuel in_a out_a in_b out_b nfds buff w)) /\
    (Forall (fun e => is_error e = false) evs ->
     in_a <> in_b -> out_a <> out_b ->
     exists la lb,
       relayed in_a out_a in_b out_b la lb w
         (world_of (relay_loop fuel in_a out_a in_b out_b nfds buff w))).
Proof.
  induction fuel as [|n IH]; intros buff w.
  - exists None, []. simpl. rewrite app_nil_r.
    split_and!; try done; try (by unfold stops_with; apply Forall_nil).
    intros _ _ _. exists [], []. apply relayed_refl.
  - simpl. unfold bind.
    destruct (relay_turn_run in_a out_a in_b out_b nfds buff w)
      as (w1 & brk1 & buff1 & evs1 & -> & Ht1 & Hr1 & Hs1 & Hio1 & Hm1).
    destruct brk1 as [len|].
    + exists (Some len), evs1. unfold ret; simpl. by split_and!.
    + destruct (IH buff1 w1) as (brk & evs & Hres & Ht & Hr & Hs & Hio & Hm).
      exists brk, (evs1 ++ evs). split_and!; try done.
      * by rewrite Ht, Ht1, <- app_assoc.
      * by apply Forall_app.
      * by apply stops_with_app.
      * eauto using io_only_trans.
      * intros Hno Hi Ho. apply Forall_app in Hno as [Hno1 Hno2].
        destruct (Hm1 Hno1 Hi Ho) as (la & lb & H1).
        destruct (Hm Hno2 Hi Ho) as (la' & lb' & H2).
        exists (la ++ la'), (lb ++ lb'). eauto using relayed_trans.
Qed.

Lemma byte_interchange_run fuel in_a out_a in_b out_b w :
  exists brk evs,
    loop_result (byte_interchange fuel in_a out_a in_b out_b w) = Some brk /\
    trace (world_of (byte_interchange fuel in_a out_a in_b out_b w))
      = trace w ++ evs /\
    Forall (fun e => is_relay e = true) evs /\
    stops_with evs brk /\
    io_only w (world_of (byte_interchange fuel in_a out_a in_b out_b w)) /\
    (Forall (fun e => is_error e = false) evs ->
     in_a <> in_b -> out_a <> out_b ->
     exists la lb,
       relayed in_a out_a in_b out_b la lb w
         (world_of (byte_interchange fuel in_a out_a in_b out_b w))).
Proof. unfold byte_interchange. apply relay_loop_run. Qed.

(** ** The shape of the runs of the relay *)

Lemma nfds_is_max in_a in_b :
  (if in_a >=? in_b then in_a else in_b) + 1 = Z.max in_a in_b + 1.
Proof. destruct (Z.geb_spec in_a in_b); lia. Qed.

Lemma guarded_transfer_shape (c : bool) src dst rmsg wmsg buff w :
  exists w' brk buff' evs errs,
    (if c then transfer src dst rmsg wmsg buff else ret (None, buff)) w
      = Done w' (brk, buff') /\
    trace w' = trace w ++ evs /\
    stderr w' = stderr w ++ errs /\
    half_shape src dst rmsg wmsg c evs errs brk.
Proof.
  destruct c; [|unfold ret; shape_leaf].
  unfold transfer, bind, sys_read, call.
  destruct (fds w !! src) as [cs|]; [|simpl; shape_leaf].
  destruct (rx cs) as [|[b| |] rest]; simpl; try shape_leaf.
  unfold sys_write, call; simpl.
  destruct (<[src:=Chan rest (wres cs) (tx cs)]> (fds w) !! dst) as [cd|];
    [|simpl; shape_leaf].
  destruct (wres cd) as [|[| |] rest']; simpl; shape_leaf.
Qed.

Lemma sys_select_frame nfds rs w :
  exists w' s,
    sys_select nfds rs w = Done w' s /\
    trace w' = trace w ++ [EvSelect nfds s] /\
    stderr w' = stderr w /\ fds w' = fds w.
Proof.
  unfold sys_select, call. destruct (ready w) as [|r rest].
  - eexists _, _. split; [reflexivity|]. by split_and!.
  - eexists _, _. split; [reflexivity|]. by split_and!.
Qed.

Lemma half_shape_carries_on src dst rmsg wmsg c evs errs :
  half_shape src dst rmsg wmsg c evs errs None -> errs = [].
Proof. by inversion 1. Qed.

Lemma relay_loop_shape in_a out_a in_b out_b nfds fuel : forall buff w,
  exists k brk evs errs,
    (k <= fuel)%nat /\
    loop_result (relay_loop fuel in_a out_a in_b out_b nfds buff w) = Some brk /\
    trace (world_of (relay_loop fuel in_a out_a in_b out_b nfds buff w))
      = trace w ++ evs /\
    stderr (world_of (relay_loop fuel in_a out_a in_b out_b nfds buff w))
      = stderr w ++ errs /\
    relay_shape in_a out_a in_b out_b nfds k evs errs brk.
Proof.
  induction fuel as [|n IH]; intros buff w.
  - exists 0%nat, None, [], []. simpl. rewrite !app_nil_r.
    split_and!; try done. constructor.
  - simpl. unfold relay_turn, bind.
    destruct (sys_select_frame nfds (FD_SET in_b (FD_SET in_a FD_ZERO)) w)
      as (w0 & s & -> & Ht0 & He0 & _).
    destruct (guarded_transfer_shape (FD_ISSET in_a s) in_a out_b
                "could not read file (a)" "could not write file (b)" buff w0)
      as (w1 & brk1 & buff1 & ea & ma & -> & Ht1 & He1 & Ha).
    destruct brk1 as [len|].
    + exists 1%nat, (Some len), (EvSelect nfds s :: ea), ma. unfold ret; simpl.
      split_and!; try done.
      * lia.
      * by rewrite Ht1, Ht0, <- app_assoc.
      * by rewrite He1, He0.
      * by apply RS_left_in_a.
    + pose proof (half_shape_carries_on _ _ _ _ _ _ _ Ha) as ->.
      rewrite app_nil_r in He1.
      destruct (guarded_transfer_shape (FD_ISSET in_b s) in_b out_a
                  "could not read file (b)" "could not write file (a)" buff1 w1)
        as (w2 & brk2 & buff2 & eb & mb & -> & Ht2 & He2 & Hb).
      destruct brk2 as [len|].
      * exists 1%nat, (Some len), (EvSelect nfds s :: ea ++ eb), mb.
        unfold ret; simpl. split_and!; try done.
        -- lia.
        -- by rewrite Ht2, Ht1, Ht0, <- !app_assoc.
        -- by rewrite He2, He1, He0.
        -- by apply RS_left_in_b.
      * pose proof (half_shape_carries_on _ _ _ _ _ _ _ Hb) as ->.
        rewrite app_nil_r in He2.
        destruct (IH buff2 w2) as (k & brk & rest & m & Hk & Hres & Ht & He & Hs).
        exists (S k), brk, (EvSelect nfds s :: ea ++ eb ++ rest), m.
        split_and!; try done.
        -- lia.
        -- by rewrite Ht, Ht2, Ht1, Ht0, <- !app_assoc.
        -- by rewrite He, He2, He1, He0.
        -- by apply RS_turn.
Qed.

Lemma byte_interchange_shape fuel in_a out_a in_b out_b w :
  exists k brk evs errs,
    (k <= fuel)%nat /\
    loop_result (byte_interchange fuel in_a out_a in_b out_b w) = Some brk /\
    trace (world_of (byte_interchange fuel in_a out_a in_b out_b w))
      = trace w ++ evs /\
    stderr (world_of (byte_interchange fuel in_a out_a in_b out_b w))
      = stderr w ++ errs /\
    relay_shape in_a out_a in_b out_b (Z.max in_a in_b + 1) k evs errs brk.
Proof.
  unfold byte_interchange. rewrite nfds_is_max. apply relay_loop_shape.
Qed.

(** ** The account of the bytes *)










(** ** What a turn owes to a select *)









(** ** The byte relay *)


(** C2. In every run of the relay, a read that returns 0 or -1 and a
    write that returns less than 1, on either descriptor, is the last
    system call of the relay, and byte_interchange has returned: no
    select, read or write follows in either direction. *)
Theorem relay_stops_entirely fuel in_a out_a in_b out_b w pre e post :
  trace (world_of (byte_interchange fuel in_a out_a in_b out_b w))
    = trace w ++ pre ++ e :: post ->
  is_stop e = true ->
  post = [] /\
  exists w' len, byte_interchange fuel in_a out_a in_b out_b w = Done w' len.
Proof.
  intros Ht He.
  destruct (byte_interchange_run fuel in_a out_a in_b out_b w)
    as (brk & evs & Hres & Ht' & _ & Hs & _ & _).
  rewrite Ht' in Ht. apply app_inv_head in Ht as ->.
  destruct brk as [len|]; unfold stops_with in Hs.
  - destruct Hs as (body & e' & Heq & Hb & _ & _).
    split.
    + destruct post as [|x post _] using rev_ind; [done|].
      change (pre ++ e :: post ++ [x]) with (pre ++ (e :: post) ++ [x]) in Heq.
      rewrite app_assoc in Heq. apply app_inj_tail in Heq as [<- _].
      apply Forall_app in Hb as [_ Hb]. apply Forall_cons in Hb as [Hb _].
      congruence.
    + destruct (byte_interchange fuel in_a out_a in_b out_b w); try discriminate.
      simpl in Hres. injection Hres as ->. eauto.
  - apply Forall_app in Hs as [_ Hs]. apply Forall_cons in Hs as [Hs _].
    congruence.
Qed.

(** The descriptors of the two sessions of the program are distinct, as
    the relay theorem above asks: socket and openpty hand out descriptors
    that were not open, so that the socket of the client differs from an
    open stdin and an open stdout, and the master of a worker differs from
    its open connection. *)
Lemma next_fd_fresh w w' r :
  next_fd w = (w', r) -> 0 <= r -> fds w !! r = None.
Proof.
  unfold next_fd. destruct (newfds w) as [|[[fd c]|] rest].
  - intros [= <- <-]. lia.
  - destruct (_ && _) eqn:E.
    + intros [= <- <-] _. apply andb_prop in E as [_ E].
      by apply bool_decide_eq_true in E.
    + intros [= <- <-]. lia.
  - intros [= <- <-]. lia.
Qed.

Lemma socket_is_fresh w w' fd :
  sys_socket w = Done w' fd -> 0 <= fd -> fds w !! fd = None.
Proof.
  unfold sys_socket, handed_out, call.
  destruct (next_fd w) as [w1 r] eqn:E. intros [= <- <-].
  by apply (next_fd_fresh w w1).
Qed.

Lemma openpty_master_is_fresh w w' mst slv :
  sys_openpty 0 0 w = Done w' (0, mst, slv) -> fds w !! mst = None.
Proof.
  unfold sys_openpty, call.
  destruct (next_fd w) as [w1 m] eqn:E1.
  destruct (Z.ltb_spec m 0) as [Hm|Hm]; [discriminate|].
  destruct (next_fd w1) as [w2 sl] eqn:E2.
  destruct (sl <? 0); [discriminate|].
  intros [= <- <- <-]. by apply (next_fd_fresh w w1).
Qed.

(** C5, as amended.  The value byte_interchange returns is the value of
    its last read or write: 0 when a read met the end of the stream (or
    a write took no byte), -1 when a read or a write failed; the value
    does not depend on the descriptor, hence not on the side, the event
    occurred on. *)
Theorem relay_return_value fuel in_a out_a in_b out_b w w' len :
  byte_interchange fuel in_a out_a in_b out_b w = Done w' len ->
  exists body e,
    trace w' = trace w ++ body ++ [e] /\
    Forall (fun e => is_stop e = false) body /\
    match e with
    | EvRead _ RdEof | EvWrite _ _ WrZero => len = 0
    | EvRead _ RdErr | EvWrite _ _ WrErr => len = -1
    | _ => False
    end.
Proof.
  intros Hrun.
  destruct (byte_interchange_run fuel in_a out_a in_b out_b w)
    as (brk & evs & Hres & Ht & _ & Hs & _ & _).
  rewrite Hrun in Hres, Ht. simpl in Hres, Ht. injection Hres as <-.
  destruct Hs as (body & e & -> & Hb & He & Hl).
  exists body, e. split_and!; try done.
  destruct e as [| | | | | | | | | | | | | | | | | | |fd r|fd b r];
    try discriminate; destruct r; try discriminate;
    simpl in Hl; congruence.
Qed.



(** Why the two sources have to be two descriptors: in a client started
    with its standard input closed, the socket is descriptor 0, and of
    the two bytes of the shell the first is written back to the socket
    and only the second reaches the standard output. *)
Example relay_shared_source_sends_back :
  delivered (world_of (byte_interchange 5 0 1 0 0 w_shared_source)) 0 = [x41] /\
  delivered (world_of (byte_interchange 5 0 1 0 0 w_shared_source)) 1 = [x42].
Proof. vm_compute. split; reflexivity. Qed.

Lemma relay_stops_entirely_witness :
  @nil event = [] /\
  exists w' len, byte_interchange 10 0 1 3 3 w_relay = Done w' len.
Proof.
  apply (relay_stops_entirely 10 0 1 3 3 w_relay
           [EvSelect 4 [0]; EvRead 0 (RdByte x6c); EvWrite 3 x6c WrOk;
            EvSelect 4 [3]; EvRead 3 (RdByte x41); EvWrite 1 x41 WrOk;
            EvSelect 4 [3; 0]; EvRead 0 (RdByte x73); EvWrite 3 x73 WrOk;
            EvRead 3 (RdByte x42); EvWrite 1 x42 WrOk;
            EvSelect 4 [0]] (EvRead 0 RdEof) []).
  - vm_compute. reflexivity.
  - reflexivity.
Defined.

Lemma relay_return_value_witness :
  exists body e,
    trace (world_of (byte_interchange 1 3 3 4 4 w_eof_b))
      = trace w_eof_b ++ body ++ [e] /\
    Forall (fun e => is_stop e = false) body /\
    match e with
    | EvRead _ RdEof | EvWrite _ _ WrZero => 0 = 0
    | EvRead _ RdErr | EvWrite _ _ WrErr => 0 = -1
    | _ => False
    end.
Proof.
  apply (relay_return_value 1 3 3 4 4 w_eof_b).
  vm_compute. reflexivity.
Defined.

(** C5, as stated, does not hold: the relay returns 0 when descriptor 3,
    on side a, is at its end, and 0 again when descriptor 4, on side b,
    is. *)
Lemma relay_return_value_hides_the_side : ~ return_value_identifies_side.
Proof.
  intros (side_a & H).
  assert (Ha := H 1%nat 3 3 4 4 w_eof_a
                  (world_of (byte_interchange 1 3 3 4 4 w_eof_a)) 0
                  [EvSelect 5 [3]] 3 RdEof).
  assert (Hb := H 1%nat 3 3 4 4 w_eof_b
                  (world_of (byte_interchange 1 3 3 4 4 w_eof_b)) 0
                  [EvSelect 5 [4]] 4 RdEof).
  rewrite Ha in Hb.
  - assert (Hc : bool_decide (3 = 3) = bool_decide (4 = 3)).
    { apply Hb; [lia | vm_compute; reflexivity | vm_compute; reflexivity]. }
    vm_compute in Hc. discriminate.
  - lia.
  - vm_compute. reflexivity.
  - vm_compute. reflexivity.
Qed.

(** ** The client *)

Lemma next_fd_run w :
  exists w' r,
    next_fd w = (w', r) /\ trace w' = trace w /\ stderr w' = stderr w /\
    io_only w w' /\ (r < 0 \/ 0 <= r).
Proof.
  unfold next_fd. destruct (newfds w) as [|[[fd c]|] rest].
  - eexists _, _. split; [reflexivity|]. split_and!; try done. lia.
  - destruct (_ && _) eqn:E.
    + eexists _, _. split; [reflexivity|]. split_and!; try done. lia.
    + eexists _, _. split; [reflexivity|]. split_and!; try done. lia.
  - eexists _, _. split; [reflexivity|]. split_and!; try done. lia.
Qed.

Lemma next_ret_run w :
  exists w' r,
    next_ret w = (w', r) /\ trace w' = trace w /\ stderr w' = stderr w /\
    fds w' = fds w /\ io_only w w'.
Proof.
  unfold next_ret. destruct (rets w) as [|r rs].
  - eexists _, _. split; [reflexivity|]. by split_and!.
  - eexists _, _. split; [reflexivity|]. by split_and!.
Qed.

Lemma answered_run ev w :
  exists w' r,
    answered ev w = Done w' r /\ trace w' = trace w ++ [ev r] /\
    stderr w' = stderr w /\ fds w' = fds w /\ io_only w w'.
Proof.
  unfold answered, call.
  destruct (next_ret_run w) as (w1 & r & -> & Ht & He & Hf & Hio).
  eexists _, _. split; [reflexivity|]. simpl. rewrite Ht, He, Hf.
  split_and!; try done. by destruct Hio.
Qed.

Lemma handed_out_run ev w :
  exists w' r,
    handed_out ev w = Done w' r /\ trace w' = trace w ++ [ev r] /\
    stderr w' = stderr w /\ io_only w w'.
Proof.
  unfold handed_out, call.
  destruct (next_fd_run w) as (w1 & r & -> & Ht & He & Hio & _).
  eexists _, _. split; [reflexivity|]. simpl. rewrite Ht, He.
  split_and!; try done. by destruct Hio.
Qed.

Lemma setup_console_config_run local_echo w :
  exists w',
    setup_console CONS_CONFIG local_echo w = Done w' tt /\
    trace w' = trace w ++ [EvTcGet (tty w);
                           EvTcSet (raw_state local_echo (snapshot w))] /\
    fs w' = fs w /\ fds w' = fds w /\ ready w' = ready w /\
    term_state w' = snapshot w /\
    tty w' = match tty w with
             | Some _ => Some (raw_state local_echo (snapshot w))
             | None => None
             end.
Proof.
  unfold setup_console, bind, get_term_state, sys_tcgetattr, put_term_state,
    sys_tcsetattr, call, snapshot, raw_state. simpl.
  destruct (tty w) as [t|] eqn:E; simpl; rewrite E; simpl.
  - eexists. split; [reflexivity|]. simpl. rewrite <- app_assoc. by split_and!.
  - eexists. split; [reflexivity|]. simpl. rewrite <- app_assoc. by split_and!.
Qed.

Lemma setup_console_restore_run local_echo w :
  exists w',
    setup_console CONS_RESTORE local_echo w = Done w' tt /\
    trace w' = trace w ++ [EvTcSet (term_state w)] /\
    fs w' = fs w /\ fds w' = fds w /\
    term_state w' = term_state w /\
    tty w' = match tty w with
             | Some _ => Some (term_state w)
             | None => None
             end.
Proof.
  unfold setup_console, bind, get_term_state, sys_tcsetattr, call. simpl.
  destruct (tty w) as [t|] eqn:E.
  - eexists. split; [reflexivity|]. by split_and!.
  - eexists. split; [reflexivity|]. simpl. by split_and!.
Qed.

Lemma client_mode_run fuel local_echo w :
  exists evs,
    trace (world_of (client_mode fuel local_echo w)) = trace w ++ evs /\
    client_run local_echo w evs (client_mode fuel local_echo w).
Proof.
  unfold client_mode, bind.
  unfold sys_socket.
  destruct (handed_out_run EvSocket w) as (w1 & fd & -> & Ht1 & _ & Hio1).
  destruct (Z.ltb_spec fd 0) as [Hfd|Hfd].
  - (* no socket *)
    exists [EvSocket fd]. simpl. rewrite to_stdout_trace. split; [done|].
    apply CR_no_socket; [done|].
    eapply io_only_trans; [|apply to_stdout_io_only]. by destruct Hio1.
  - unfold sys_connect.
    destruct (answered_run (EvConnect fd SERVER_PATH) w1)
      as (w2 & r & -> & Ht2 & _ & Hf2 & Hio2).
    assert (Hio : io_only w w2) by eauto using io_only_trans.
    destruct (Z.ltb_spec r 0) as [Hr|Hr].
    + (* no connection *)
      exists [EvSocket fd; EvConnect fd SERVER_PATH r; EvClose fd]. simpl.
      rewrite to_stdout_trace. simpl.
      split; [by rewrite Ht2, Ht1, <- !app_assoc|].
      apply CR_no_connect; try done.
      eapply io_only_trans; [|apply to_stdout_io_only]. by destruct Hio.
    + unfold console_proxy, bind.
      destruct (setup_console_config_run local_echo w2)
        as (w3 & -> & Ht3 & Hfs3 & Hf3 & _ & Hts3 & Htty3).
      assert (Hsnap : snapshot w2 = snapshot w).
      { unfold snapshot. destruct Hio as [_ -> ->]. done. }
      assert (Htty2 : tty w2 = tty w) by by destruct Hio.
      rewrite Hsnap, Htty2 in *.
      destruct (byte_interchange_run fuel STDIN_FILENO STDOUT_FILENO fd fd w3)
        as (brk & relay & Hres & Ht4 & Hrel & Hstop & Hio4 & _).
      destruct (byte_interchange fuel STDIN_FILENO STDOUT_FILENO fd fd w3)
        as [w4 len|w4|w4|w4 s]; try discriminate; simpl in *.
      * (* the relay returned *)
        destruct (setup_console_restore_run local_echo w4)
          as (w5 & -> & Ht5 & Hfs5 & Hf5 & Hts5 & Htty5).
        unfold ret; simpl.
        exists (session_start local_echo w fd r ++ relay ++ session_end w fd).
        destruct Hio4 as [_ Htty4 Hts4].
        split.
        -- rewrite to_stdout_trace. simpl.
           rewrite Ht5, Ht4, Ht3, Ht2, Ht1, Hts4, Hts3.
           unfold session_start, session_end.
           rewrite <- !app_assoc. reflexivity.
        -- apply CR_session; try done.
           ++ rewrite to_stdout_tty. simpl.
              rewrite Htty5, Htty4, Htty3, Hts4, Hts3. unfold snapshot.
              by destruct (tty w).
           ++ rewrite to_stdout_term_state. simpl. congruence.
      * (* the relay is still turning *)
        injection Hres as <-.
        exists (session_start local_echo w fd r ++ relay).
        split.
        -- rewrite Ht4, Ht3, Ht2, Ht1. unfold session_start.
           rewrite <- !app_assoc. reflexivity.
        -- by apply CR_relaying.
Qed.

Lemma relay_has_no_termios relay :
  Forall (fun e => is_relay e = true) relay ->
  List.filter is_termios relay = [].
Proof.
  induction 1 as [|e l He _ IH]; [done|].
  simpl. rewrite IH. by destruct e.
Qed.

Lemma relay_has_no_shutdown_or_close relay :
  Forall (fun e => is_relay e = true) relay ->
  Forall (fun e => is_shutdown_or_close e = false) relay.
Proof.
  induction 1 as [|e l He _ IH]; constructor; [|done]. by destruct e.
Qed.

(** The connect event of a session is the one of its start. *)
Lemma session_connect local_echo w fd r relay tail fd' r' :
  Forall (fun e => is_relay e = true) relay ->
  (forall e, In e tail -> match e with EvConnect _ _ _ => False | _ => True end) ->
  In (EvConnect fd' SERVER_PATH r')
     (session_start local_echo w fd r ++ relay ++ tail) ->
  fd' = fd /\ r' = r.
Proof.
  intros Hrel Htail Hin. unfold session_start in Hin.
  apply in_app_or in Hin as [Hin|Hin].
  - simpl in Hin. destruct Hin as [H|[H|[H|[H|[]]]]]; try discriminate.
    by injection H as -> ->.
  - apply in_app_or in Hin as [Hin|Hin].
    + rewrite Forall_forall in Hrel. apply list_elem_of_In in Hin.
      apply Hrel in Hin. discriminate.
    + by apply Htail in Hin.
Qed.

(** C3. In every run of client_mode that returns, the terminal has the
    settings it had at the start.  When the connection was made, the
    settings were captured once, before raw mode was applied and before
    the relay, and restored once, after the relay, whatever ended the
    relay: the calls on the terminal are tcgetattr, tcsetattr with the raw
    settings and tcsetattr with the snapshot, in this order.  When the
    connection (or the socket) failed, there is no call on the terminal
    and the static snapshot is untouched. *)
Theorem terminal_restored_exactly_once fuel local_echo w w' evs :
  client_mode fuel local_echo w = Done w' tt ->
  trace w' = trace w ++ evs ->
  tty w' = tty w /\
  (forall fd r,
     In (EvConnect fd SERVER_PATH r) evs -> 0 <= r ->
     (exists relay,
        Forall (fun e => is_relay e = true) relay /\
        evs = session_start local_echo w fd r ++ relay ++ session_end w fd) /\
     List.filter is_termios evs
       = [EvTcGet (tty w); EvTcSet (raw_state local_echo (snapshot w));
          EvTcSet (snapshot w)]) /\
  ((forall fd r, In (EvConnect fd SERVER_PATH r) evs -> r < 0) ->
   List.filter is_termios evs = [] /\ term_state w' = term_state w).
Proof.
  intros Hrun Ht.
  destruct (client_mode_run fuel local_echo w) as (evs' & Ht' & Hcr).
  rewrite Hrun in Ht', Hcr. simpl in Ht'. rewrite Ht' in Ht.
  apply app_inv_head in Ht as <-.
  inversion Hcr as [r0 w0 Hr0 Hio|fd0 r0 w0 Hfd0 Hr0 Hio
                   |fd0 r0 relay w0 Hfd0 Hr0 Hrel Htty Hts|]; subst.
  - split_and!.
    + by destruct Hio.
    + intros fd r [H|[]]. discriminate.
    + intros _. split; [done|]. by destruct Hio.
  - split_and!.
    + by destruct Hio.
    + intros fd r [H|[H|[H|[]]]]; try discriminate.
      injection H as -> ->. lia.
    + intros _. split; [done|]. by destruct Hio.
  - split_and!.
    + done.
    + intros fd r Hin Hr.
      apply session_connect in Hin as [-> ->]; try done.
      2:{ intros e [<-|[<-|[<-|[]]]]; done. }
      split; [by exists relay|].
      unfold session_start, session_end. simpl.
      rewrite List.filter_app, relay_has_no_termios by done. reflexivity.
    + intros Hfail. exfalso.
      assert (r0 < 0); [|lia].
      apply (Hfail fd0). unfold session_start. simpl. auto.
Qed.

(** C4, as amended.  After the relay of a session has ended and the
    terminal is restored, the client shuts down both halves of the
    connection (SHUT_RDWR) and then closes the descriptor; it makes no
    other shutdown and no other close. *)
Theorem client_shuts_down_both_halves fuel local_echo w w' evs fd r :
  client_mode fuel local_echo w = Done w' tt ->
  trace w' = trace w ++ evs ->
  In (EvConnect fd SERVER_PATH r) evs -> 0 <= r ->
  exists pre,
    evs = pre ++ [EvShutdown fd SHUT_RDWR; EvClose fd] /\
    Forall (fun e => is_shutdown_or_close e = false) pre.
Proof.
  intros Hrun Ht Hin Hr.
  destruct (client_mode_run fuel local_echo w) as (evs' & Ht' & Hcr).
  rewrite Hrun in Ht', Hcr. simpl in Ht'. rewrite Ht' in Ht.
  apply app_inv_head in Ht as <-.
  inversion Hcr as [r0 w0 Hr0 Hio|fd0 r0 w0 Hfd0 Hr0 Hio
                   |fd0 r0 relay w0 Hfd0 Hr0 Hrel Htty Hts|]; subst.
  - destruct Hin as [H|[]]. discriminate.
  - destruct Hin as [H|[H|[H|[]]]]; try discriminate.
    injection H as -> ->. lia.
  - apply session_connect in Hin as [-> ->]; try done.
    2:{ intros e [<-|[<-|[<-|[]]]]; done. }
    exists (session_start local_echo w fd0 r0 ++ relay ++ [EvTcSet (snapshot w)]).
    split.
    + unfold session_end. rewrite <- !app_assoc. reflexivity.
    + apply Forall_app. split; [by repeat constructor|].
      apply Forall_app. split; [by apply relay_has_no_shutdown_or_close|].
      by repeat constructor.
Qed.

(** C4, as stated, does not hold: the client session of [w_session]
    ends with shutdown (3, SHUT_RDWR), which closes the read half too. *)
Lemma client_shutdown_is_not_write_half_only :
  ~ client_shuts_down_write_half_only.
Proof.
  intros H.
  destruct (H 10%nat false w_session
              (world_of (client_mode 10 false w_session))
              (skipn 0 (trace (world_of (client_mode 10 false w_session))))
              3 0) as (_ & Hno & _).
  - vm_compute. reflexivity.
  - vm_compute. reflexivity.
  - vm_compute. tauto.
  - lia.
  - apply Hno. vm_compute. tauto.
Qed.

(** ** The server *)

Lemma sys_dup2_run oldfd newfd w :
  exists w',
    sys_dup2 oldfd newfd w = Done w' tt /\
    trace w' = trace w ++ [EvDup2 oldfd newfd] /\ stderr w' = stderr w.
Proof.
  unfold sys_dup2, call. destruct (fds w !! oldfd).
  - eexists. split; [reflexivity|]. by split.
  - eexists. split; [reflexivity|]. by split.
Qed.

Lemma sys_execvp_run file argv w :
  exists w' r,
    trace w' = trace w ++ [EvExecvp file argv r] /\ stderr w' = stderr w /\
    (sys_execvp file argv w = Done w' r \/ sys_execvp file argv w = Execed w').
Proof.
  unfold sys_execvp.
  destruct (next_ret_run w) as (w1 & r & -> & Ht & He & _ & _).
  destruct (r <? 0).
  - exists (log (EvExecvp file argv r) w1), r. simpl. rewrite Ht, He.
    split_and!; try done. by left.
  - exists (log (EvExecvp file argv r) w1), r. simpl. rewrite Ht, He.
    split_and!; try done. by right.
Qed.

Lemma sys_openpty_run w :
  exists w' r mst slv,
    sys_openpty 0 0 w = Done w' (r, mst, slv) /\
    trace w' = trace w ++ [EvOpenpty r mst slv] /\ stderr w' = stderr w /\
    ((r = -1 /\ mst = 0 /\ slv = 0) \/ r = 0).
Proof.
  unfold sys_openpty, call.
  destruct (next_fd_run w) as (w1 & m & -> & Ht1 & He1 & _ & _).
  destruct (m <? 0).
  - eexists _, _, _, _. split; [reflexivity|]. simpl. rewrite Ht1, He1.
    split_and!; try done. by left.
  - destruct (next_fd_run w1) as (w2 & s & -> & Ht2 & He2 & _ & _).
    destruct (s <? 0).
    + eexists _, _, _, _. split; [reflexivity|]. simpl.
      rewrite Ht2, Ht1, He2, He1. split_and!; try done. by left.
    + eexists _, _, _, _. split; [reflexivity|]. simpl.
      rewrite Ht2, Ht1, He2, He1. split_and!; try done. by right.
Qed.

Lemma shell_run fd w :
  exists evs,
    trace (world_of (shell fd w)) = trace w ++ evs /\
    Forall (fun e => is_worker_event e = true) evs /\
    exited (shell fd w) = false.
Proof.
  unfold shell, bind, sys_setsid, sys_ioctl_sctty.
  destruct (answered_run EvSetsid w) as (w1 & r1 & -> & Ht1 & _ & _ & _).
  destruct (r1 <? 0).
  - exists [EvSetsid r1]. split; [by trace_norm|].
    split; [by repeat constructor|done].
  - destruct (sys_dup2_run fd STDIN_FILENO w1) as (w2 & -> & Ht2 & _).
    destruct (sys_dup2_run fd STDOUT_FILENO w2) as (w3 & -> & Ht3 & _).
    destruct (sys_dup2_run fd STDERR_FILENO w3) as (w4 & -> & Ht4 & _).
    destruct (answered_run (EvIoctlSctty fd) w4)
      as (w5 & r5 & -> & Ht5 & _ & _ & _).
    destruct (r5 <? 0).
    + eexists. split; [trace_norm; reflexivity|].
      split; [by repeat constructor|done].
    + simpl.
      match goal with
      | |- context [sys_execvp ?f ?a ?w0] =>
          destruct (sys_execvp_run f a w0) as (w6 & r6 & Ht6 & _ & [-> | ->])
      end.
      * eexists. split; [trace_norm; reflexivity|].
        split; [by repeat constructor|done].
      * eexists. split; [trace_norm; reflexivity|].
        split; [by repeat constructor|done].
Qed.

Lemma relay_events_are_worker_events evs :
  Forall (fun e => is_relay e = true) evs ->
  Forall (fun e => is_worker_event e = true) evs.
Proof.
  induction 1 as [|e l He _ IH]; constructor; [|done]. by destruct e.
Qed.

Lemma spawn_shell_run fuel sockfd w :
  exists evs,
    trace (world_of (spawn_shell fuel sockfd w)) = trace w ++ evs /\
    spawn_run evs (spawn_shell fuel sockfd w).
Proof.
  unfold spawn_shell, bind.
  destruct (sys_openpty_run w)
    as (w1 & r & mst & slv & -> & Ht1 & He1 & [(-> & -> & ->) | ->]).
  - exists [EvOpenpty (-1) 0 0]. simpl. split; [done|].
    apply SP_no_pty. simpl. by rewrite last_snoc.
  - simpl. unfold sys_fork.
    destruct (answered_run EvFork w1) as (w2 & pid & -> & Ht2 & _ & _ & _).
    destruct (pid =? -1).
    + eexists. trace_norm. split; [reflexivity|].
      apply SP_pty; [by repeat constructor|done].
    + destruct (pid =? 0).
      * simpl.
        destruct (shell_run slv (log (EvClose mst)
                                   (set_fds (delete mst (fds w2)) w2)))
          as (evs & Ht3 & Hw & Hex).
        exists ([EvOpenpty 0 mst slv; EvFork pid; EvClose mst] ++ evs).
        split.
        -- rewrite Ht3. trace_norm. reflexivity.
        -- apply SP_pty; [|done]. by repeat constructor.
      * simpl.
        destruct (byte_interchange_run fuel sockfd sockfd mst mst
                    (log (EvClose slv) (set_fds (delete slv (fds w2)) w2)))
          as (brk & evs & Hres & Ht3 & Hrel & _ & _ & _).
        apply relay_events_are_worker_events in Hrel.
        destruct (byte_interchange fuel sockfd sockfd mst mst _)
          as [w3 len|w3|w3|w3 s]; try discriminate; simpl in *.
        -- exists ([EvOpenpty 0 mst slv; EvFork pid; EvClose slv] ++ evs
                     ++ [EvClose mst]).
           split.
           ++ rewrite Ht3. trace_norm. reflexivity.
           ++ apply SP_pty; [|done]. repeat constructor.
              apply Forall_app. split; [done|]. by repeat constructor.
        -- exists ([EvOpenpty 0 mst slv; EvFork pid; EvClose slv] ++ evs).
           split.
           ++ rewrite Ht3. trace_norm. reflexivity.
           ++ apply SP_pty; [|done]. by repeat constructor.
Qed.

Lemma released_after_shutdown lsock w :
  released lsock
    (Done (log (EvUnlink SERVER_PATH)
             (set_fs (fs (log (EvClose lsock)
                            (set_fds (delete lsock (fds w)) w))
                      ∖ {[SERVER_PATH]})
                (log (EvClose lsock) (set_fds (delete lsock (fds w)) w))))
          tt).
Proof.
  eexists. split; [reflexivity|]. simpl. split.
  - rewrite dom_delete_L. apply not_elem_of_difference. right.
    by apply elem_of_singleton.
  - apply not_elem_of_difference. right. by apply elem_of_singleton.
Qed.

Lemma accept_loop_run fuel lsock n : forall w,
  exists evs,
    trace (world_of (accept_loop n fuel lsock w)) = trace w ++ evs /\
    acceptor_run lsock evs (accept_loop n fuel lsock w).
Proof.
  induction n as [|n IH]; intros w.
  - exists []. simpl. rewrite app_nil_r. split; [done|]. constructor.
  - simpl. unfold bind, sys_accept.
    destruct (handed_out_run (EvAccept lsock) w)
      as (w1 & conn & -> & Ht1 & _ & _).
    destruct (Z.ltb_spec conn 0) as [Hconn|Hconn].
    + (* accept failed *)
      simpl. eexists. split; [trace_norm; reflexivity|].
      apply AR_no_accept; [done|].
      apply (released_after_shutdown lsock (log_err _ w1)).
    + unfold sys_fork.
      destruct (answered_run EvFork w1) as (w2 & pid & -> & Ht2 & _ & _ & _).
      destruct (Z.ltb_spec pid 0) as [Hpid|Hpid].
      * (* fork failed *)
        simpl. eexists. split; [trace_norm; reflexivity|].
        apply AR_no_fork; try done.
        apply (released_after_shutdown lsock
                 (log (EvClose conn)
                    (set_fds (delete conn (fds (log_err _ w2))) (log_err _ w2)))).
      * destruct (Z.gtb_spec pid 0) as [Hpos|Hzero].
        -- (* the acceptor *)
           simpl.
           destruct (IH (log (EvClose conn)
                           (set_fds (delete conn (fds w2)) w2)))
             as (evs & Ht3 & Hrun).
           exists (EvAccept lsock conn :: EvFork pid :: EvClose conn :: evs).
           split; [rewrite Ht3; trace_norm; reflexivity|].
           apply AR_parent; [done|lia|done].
        -- (* the worker *)
           assert (pid = 0) as -> by lia. simpl.
           destruct (spawn_shell_run fuel conn
                       (log (EvClose lsock)
                          (set_fds (delete lsock (fds w2)) w2)))
             as (sp & Ht3 & Hsp).
           destruct (spawn_shell fuel conn _) as [w3 []|w3|w3|w3 s];
             simpl in *.
           ++ exists ([EvAccept lsock conn; EvFork 0; EvClose lsock]
                        ++ sp ++ [EvClose conn]).
              split; [rewrite Ht3; trace_norm; reflexivity|].
              by eapply AR_worker_done.
           ++ exists ([EvAccept lsock conn; EvFork 0; EvClose lsock] ++ sp).
              split; [rewrite Ht3; trace_norm; reflexivity|].
              by apply AR_worker_gone.
           ++ exists ([EvAccept lsock conn; EvFork 0; EvClose lsock] ++ sp).
              split; [rewrite Ht3; trace_norm; reflexivity|].
              by apply AR_worker_gone.
           ++ exists ([EvAccept lsock conn; EvFork 0; EvClose lsock] ++ sp).
              split; [rewrite Ht3; trace_norm; reflexivity|].
              by apply AR_worker_gone.
Qed.

Lemma sys_bind_run fd path w :
  exists w' r,
    sys_bind fd path w = Done w' r /\
    trace w' = trace w ++ [EvBind fd path r] /\
    (path ∈ fs w -> r = -1).
Proof.
  unfold sys_bind, call. case_bool_decide as Hin.
  - eexists _, _. split; [reflexivity|]. by split.
  - destruct (next_ret_run w) as (w1 & r & -> & Ht & _ & _ & _).
    destruct (r <? 0).
    + eexists _, _. split; [reflexivity|]. simpl. by rewrite Ht.
    + eexists _, _. split; [reflexivity|]. simpl. by rewrite Ht.
Qed.

Lemma server_mode_run fuel w :
  exists evs,
    trace (world_of (server_mode fuel w)) = trace w ++ evs /\
    server_run evs (server_mode fuel w) /\
    (SERVER_PATH ∈ fs w ->
     forall lsock, head evs = Some (EvSocket lsock) -> 0 <= lsock ->
     evs = [EvSocket lsock; EvBind lsock SERVER_PATH (-1);
            EvClose lsock; EvUnlink SERVER_PATH]).
Proof.
  unfold server_mode, bind, sys_socket.
  destruct (handed_out_run EvSocket w) as (w1 & lsock & -> & Ht1 & _ & Hio1).
  destruct (Z.ltb_spec lsock 0) as [Hl|Hl].
  - exists [EvSocket lsock]. simpl. split; [done|].
    split; [by constructor|].
    intros _ l [= ->]. lia.
  - destruct (sys_bind_run lsock SERVER_PATH w1) as (w2 & b & -> & Ht2 & Hb).
    destruct (Z.ltb_spec b 0) as [Hb0|Hb0].
    + simpl. eexists. split; [trace_norm; reflexivity|].
      split.
      * apply SR_no_bind; try done.
        apply (released_after_shutdown lsock (log_err _ w2)).
      * intros Hin l [= <-] _. rewrite Hb; [done|].
        destruct Hio1 as [-> _ _]. done.
    + unfold sys_listen.
      destruct (answered_run (EvListen lsock 1) w2)
        as (w3 & l & -> & Ht3 & _ & _ & _).
      assert (Hnot : SERVER_PATH ∉ fs w).
      { intros Hin. destruct Hio1 as [Hfs _ _]. rewrite <- Hfs in Hin.
        apply Hb in Hin. lia. }
      destruct (Z.ltb_spec l 0) as [Hl0|Hl0].
      * simpl. eexists. split; [trace_norm; reflexivity|].
        split; [|done].
        apply SR_no_listen; try done.
        apply (released_after_shutdown lsock (log_err _ w3)).
      * unfold sys_chmod.
        destruct (answered_run (EvChmod SERVER_PATH 438) w3)
          as (w4 & c & -> & Ht4 & _ & _ & _).
        destruct (Z.ltb_spec c 0) as [Hc0|Hc0].
        -- simpl. eexists. split; [trace_norm; reflexivity|].
           split; [|done].
           apply SR_no_chmod; try done.
           apply (released_after_shutdown lsock (log_err _ w4)).
        -- destruct (accept_loop_run fuel lsock fuel w4) as (evs & Ht5 & Hrun).
           exists ([EvSocket lsock; EvBind lsock SERVER_PATH b;
                    EvListen lsock 1 l; EvChmod SERVER_PATH 438 c] ++ evs).
           split; [rewrite Ht5; trace_norm; reflexivity|].
           split; [|done].
           by apply SR_accepting.
Qed.

Lemma suffixes_app_in {A} (pre suf : list A) : In suf (suffixes (pre ++ suf)).
Proof.
  induction pre as [|x pre IH]; simpl.
  - destruct suf; simpl; auto.
  - auto.
Qed.

Lemma Forall_suffixes_app {A} (Q : list A -> Prop) (l1 l2 : list A) :
  (forall e rest, In e l1 -> Q (e :: rest)) ->
  Forall Q (suffixes l2) -> Forall Q (suffixes (l1 ++ l2)).
Proof.
  intros Hq H2. induction l1 as [|x l1 IH]; [done|].
  simpl. constructor.
  - apply Hq. by left.
  - apply IH. intros e rest Hin. apply Hq. by right.
Qed.

Lemma follows_worker_event lsock o e rest :
  is_worker_event e = true -> follows lsock o (e :: rest).
Proof. by destruct e. Qed.

Lemma acceptor_run_head lsock evs o :
  acceptor_run lsock evs o ->
  (evs = [] /\ returned o = false) \/
  exists r rest, evs = EvAccept lsock r :: rest.
Proof. destruct 1; simpl; eauto. Qed.

Lemma spawn_run_follows lsock sp o tail :
  spawn_run sp o ->
  (sp = [EvOpenpty (-1) 0 0] -> worker_abort o tail) ->
  Forall (follows lsock o) (suffixes tail) ->
  Forall (follows lsock o) (suffixes (sp ++ tail)) /\
  match sp ++ tail with
  | EvOpenpty r _ _ :: post'' => r < 0 -> post'' = tail
  | _ => True
  end.
Proof.
  intros Hsp Habort Htail. destruct Hsp as [w' Herr|mst slv rest o Hw Hex].
  - simpl. split; [|done]. constructor; [|done].
    simpl. intros _. by apply Habort.
  - simpl. split; [|lia]. constructor; [simpl; lia|].
    apply Forall_suffixes_app; [|done].
    intros e rest' Hin. apply follows_worker_event.
    rewrite Forall_forall in Hw. apply Hw. by apply list_elem_of_In.
Qed.

Lemma acceptor_run_follows lsock evs o :
  acceptor_run lsock evs o -> Forall (follows lsock o) (suffixes evs).
Proof.
  induction 1 as [w'|r o Hr Hrel|conn pid o Hc Hp Hrel
                 |conn pid rest o Hc Hp Hrun IH
                 |conn sp w1 w' Hc Hsp Herr|conn sp o Hc Hsp Hret].
  - by repeat constructor.
  - simpl. repeat (apply Forall_cons; split); simpl; try done.
  - simpl. repeat (apply Forall_cons; split); simpl; try done.

    split_and!; try done; lia.
  - simpl. repeat (apply Forall_cons; split); simpl; try done.
    split_and!; try done; try lia.
    + intros _. unfold acceptor_goes_on.
      destruct (acceptor_run_head _ _ _ Hrun) as [[-> Hret]|(r & rest' & ->)];
        eauto.
    + by destruct (acceptor_run_head _ _ _ Hrun) as [[-> _]|(r & rest' & ->)].
  - destruct (spawn_run_follows lsock sp (Done w' tt) [EvClose conn])
      as [Hf Hhead].
    + inversion Hsp; subst; constructor; simpl in *; congruence.
    + intros ->. split; [by exists conn|].
      exists w'. split; [done|]. rewrite Herr.
      by inversion Hsp.
    + by repeat constructor.
    + simpl. repeat (apply Forall_cons; split); simpl; try done.
      split_and!; try done; try lia.
      destruct (sp ++ [EvClose conn]) as [|[] ?]; try done.
      intros Hr. split_and!; auto.
  - destruct (spawn_run_follows lsock sp o []) as [Hf Hhead].
    + done.
    + intros ->. inversion Hsp; subst. discriminate.
    + by repeat constructor.
    + rewrite app_nil_r in Hf, Hhead.
      simpl. repeat (apply Forall_cons; split); simpl; try done.
      split_and!; try done; try lia.
      destruct sp as [|[] ?]; try done.
      intros Hr. specialize (Hhead Hr) as ->.
      inversion Hsp; subst; [discriminate|lia].
Qed.

Lemma server_run_follows evs o :
  server_run evs o ->
  exists lsock,
    head evs = Some (EvSocket lsock) /\
    Forall (follows lsock o) (suffixes evs).
Proof.
  destruct 1 as [r w' Hr|lsock r o Hl Hr Hrel|lsock b r o Hl Hb Hr Hrel
                |lsock b l r o Hl Hb Hl0 Hr Hrel|lsock b l c evs o Hl Hb Hl0 Hc Hrun].
  - exists r. split; [done|]. by repeat constructor.
  - exists lsock. split; [done|].
    simpl. repeat (apply Forall_cons; split); simpl; try done.
  - exists lsock. split; [done|].
    simpl. repeat (apply Forall_cons; split); simpl; try done. lia.
  - exists lsock. split; [done|].
    simpl. repeat (apply Forall_cons; split); simpl; try done; lia.
  - exists lsock. split; [done|].
    apply acceptor_run_follows in Hrun.
    simpl. repeat (apply Forall_cons; split); simpl; try done; lia.
Qed.

(** What follows any event of a run of server_mode. *)
Lemma server_mode_follows fuel w pre suf :
  trace (world_of (server_mode fuel w)) = trace w ++ pre ++ suf ->
  exists lsock,
    head (pre ++ suf) = Some (EvSocket lsock) /\
    follows lsock (server_mode fuel w) suf.
Proof.
  intros Ht.
  destruct (server_mode_run fuel w) as (evs & Ht' & Hrun & _).
  rewrite Ht' in Ht. apply app_inv_head in Ht as ->.
  destruct (server_run_follows _ _ Hrun) as (lsock & Hhead & Hf).
  exists lsock. split; [done|].
  rewrite Forall_forall in Hf. apply Hf, list_elem_of_In, suffixes_app_in.
Qed.

(** C7. In every run of server_mode, a failed accept is followed by the
    close of the listening socket and the unlink of the rendezvous path,
    and by nothing else: the loop is left, server_mode has returned, the
    listening socket is closed and the path is removed. *)
Theorem accept_failure_is_fatal fuel w pre lsock r post :
  trace (world_of (server_mode fuel w))
    = trace w ++ pre ++ EvAccept lsock r :: post ->
  r < 0 ->
  post = [EvClose lsock; EvUnlink SERVER_PATH] /\
  exists w',
    server_mode fuel w = Done w' tt /\
    (lsock ∉ dom (fds w')) /\ (SERVER_PATH ∉ fs w').
Proof.
  intros Ht Hr.
  destruct (server_mode_follows fuel w pre _ Ht) as (l & _ & Hf).
  simpl in Hf. destruct Hf as (-> & Hshut & _).
  by destruct (Hshut Hr) as [-> Hrel].
Qed.

(** C9. In every run of server_mode, the failure of bind, listen, chmod
    or accept is followed by the close of the listening socket and the
    unlink of the rendezvous path, and server_mode returns with the
    socket closed and the path removed.  In particular, when the path
    exists at the start, owned by a live instance, bind fails and the
    path is removed all the same. *)
Theorem setup_failure_releases_rendezvous fuel w :
  (forall pre e post,
     trace (world_of (server_mode fuel w)) = trace w ++ pre ++ e :: post ->
     is_setup_failure e = true ->
     exists lsock pre' w',
       pre = EvSocket lsock :: pre' /\
       post = [EvClose lsock; EvUnlink SERVER_PATH] /\
       server_mode fuel w = Done w' tt /\
       (lsock ∉ dom (fds w')) /\ (SERVER_PATH ∉ fs w')) /\
  (SERVER_PATH ∈ fs w ->
   forall lsock evs,
     trace (world_of (server_mode fuel w)) = trace w ++ EvSocket lsock :: evs ->
     0 <= lsock ->
     evs = [EvBind lsock SERVER_PATH (-1); EvClose lsock;
            EvUnlink SERVER_PATH] /\
     exists w', server_mode fuel w = Done w' tt /\ SERVER_PATH ∉ fs w').
Proof.
  split.
  - intros pre e post Ht He.
    destruct (server_mode_follows fuel w pre _ Ht) as (l & Hhead & Hf).
    assert (Hshut : shutdown_path l (server_mode fuel w) post).
    { destruct e; try discriminate; simpl in He, Hf;
        apply Z.ltb_lt in He; by apply Hf. }
    destruct Hshut as (-> & w' & Hrun & Hfd & Hfs).
    destruct pre as [|e0 pre'].
    + simpl in Hhead. injection Hhead as ->. discriminate.
    + simpl in Hhead. injection Hhead as ->. by exists l, pre', w'.
  - intros Hin lsock evs Ht Hl.
    destruct (server_mode_run fuel w) as (evs' & Ht' & _ & Hsecond).
    rewrite Ht' in Ht. apply app_inv_head in Ht as ->.
    specialize (Hsecond Hin lsock eq_refl Hl). injection Hsecond as ->.
    split; [done|].
    destruct (server_mode_follows fuel w [EvSocket lsock]
                [EvBind lsock SERVER_PATH (-1); EvClose lsock;
                 EvUnlink SERVER_PATH] Ht') as (l & Hhead & Hf).
    simpl in Hhead, Hf. injection Hhead as <-.
    destruct Hf as (_ & w' & Hrun & _ & Hfs); [lia|]. by exists w'.
Qed.

(** C6. In every run of server_mode: a failed openpty is followed by the
    close of the connection and by nothing else, server_mode has
    returned in that process and the failure is reported; the process it
    occurs in is the worker of the connection, the one in which fork
    returned 0 and which closed its copy of the listening socket; and in
    the acceptor, the process in which fork returned the pid of the
    worker, the fork is followed by the close of its copy of the
    connection and by the next accept on the listening socket. *)
Theorem pty_failure_aborts_only_the_session fuel w evs :
  trace (world_of (server_mode fuel w)) = trace w ++ evs ->
  (forall pre r mst slv post,
     evs = pre ++ EvOpenpty r mst slv :: post -> r < 0 ->
     (exists conn, post = [EvClose conn]) /\
     exists w',
       server_mode fuel w = Done w' tt /\
       last (stderr w') = Some "could not open pseudo terminal") /\
  (forall pre l conn pid x r mst slv post,
     evs = pre ++ EvAccept l conn :: EvFork pid :: EvClose x
                 :: EvOpenpty r mst slv :: post ->
     r < 0 ->
     pid = 0 /\ x = l /\ post = [EvClose conn]) /\
  (forall pre l conn pid post,
     evs = pre ++ EvAccept l conn :: EvFork pid :: post -> pid > 0 ->
     (post = [EvClose conn] /\ returned (server_mode fuel w) = false) \/
     exists r rest, post = EvClose conn :: EvAccept l r :: rest).
Proof.
  intros Ht. split_and!.
  - intros pre r mst slv post -> Hr.
    destruct (server_mode_follows fuel w pre _ Ht) as (l & _ & Hf).
    by apply Hf.
  - intros pre l conn pid x r mst slv post -> Hr.
    destruct (server_mode_follows fuel w pre _ Ht) as (l' & _ & Hf).
    simpl in Hf. destruct Hf as (-> & _ & _ & Hf). by apply Hf.
  - intros pre l conn pid post -> Hp.
    destruct (server_mode_follows fuel w pre _ Ht) as (l' & _ & Hf).
    simpl in Hf. destruct Hf as (-> & _ & Hf & _). by apply Hf.
Qed.

(** ** The command line *)

Lemma default_last_cons {A} (d x : A) (l : list A) :
  default d (last (x :: l)) = default x (last l).
Proof.
  destruct l as [|y l]; [done|].
  change (last (x :: y :: l)) with (last (y :: l)).
  destruct (last_is_Some (y :: l)) as [_ H].
  by destruct H as [z ->].
Qed.

Lemma omap_cons_eq {A B} (f : A -> option B) (x : A) (l : list A) :
  omap f (x :: l) = match f x with Some y => y :: omap f l | None => omap f l end.
Proof. reflexivity. Qed.

Lemma parse_arg_spec mode local_echo a :
  parse_arg (mode, local_echo) a
  = (default mode (mode_of_flag a), local_echo || String.eqb "--echo" a).
Proof.
  unfold parse_arg, mode_of_flag.
  destruct (String.eqb_spec "--daemon" a) as [<-|Hd].
  - by rewrite orb_false_r.
  - destruct (String.eqb_spec "--client" a) as [<-|Hc].
    + by rewrite orb_false_r.
    + destruct (String.eqb "--echo" a); simpl.
      * by rewrite orb_true_r.
      * by rewrite orb_false_r.
Qed.

Lemma parse_fold args : forall mode local_echo,
  fold_left parse_arg args (mode, local_echo)
  = (default mode (last (omap mode_of_flag args)),
     local_echo || existsb (String.eqb "--echo") args).
Proof.
  induction args as [|a args IH]; intros mode local_echo.
  - simpl. by rewrite orb_false_r.
  - change (fold_left parse_arg (a :: args) (mode, local_echo))
      with (fold_left parse_arg args (parse_arg (mode, local_echo) a)).
    rewrite parse_arg_spec, IH, omap_cons_eq.
    change (existsb (String.eqb "--echo") (a :: args))
      with (String.eqb "--echo" a || existsb (String.eqb "--echo") args).
    rewrite orb_assoc. f_equal.
    destruct (mode_of_flag a) as [m|]; [|done].
    by rewrite default_last_cons.
Qed.

Lemma parse_command_line_spec argv0 args :
  parse_command_line (argv0 :: args)
  = (selected_mode args, existsb (String.eqb "--echo") args).
Proof. unfold parse_command_line. simpl. by rewrite parse_fold. Qed.

Lemma parse_arg_unrecognised st x :
  is_recognised x = false -> parse_arg st x = st.
Proof.
  unfold is_recognised, parse_arg. destruct st as [mode local_echo].
  intros H. apply orb_false_elim in H as [H He].
  apply orb_false_elim in H as [Hd Hc]. by rewrite Hd, Hc, He.
Qed.

Lemma selected_mode_cases args :
  (selected_mode args = MODE_UNDEF /\
   Forall (fun a => mode_of_flag a = None) args) \/
  ((selected_mode args = MODE_DAEMON \/ selected_mode args = MODE_CLIENT) /\
   Exists (fun a => mode_of_flag a <> None) args).
Proof.
  unfold selected_mode.
  induction args as [|a args IH] using rev_ind; [left; by split|].
  rewrite omap_app, omap_cons_eq.
  destruct (mode_of_flag a) as [m|] eqn:Ha.
  - right. change (omap mode_of_flag []) with (@nil Z). rewrite last_snoc.
    split.
    + unfold mode_of_flag in Ha.
      destruct (String.eqb "--daemon" a); [left; by injection Ha|].
      destruct (String.eqb "--client" a); [right; by injection Ha|done].
    + apply Exists_app. right. constructor. by rewrite Ha.
  - change (omap mode_of_flag []) with (@nil Z). rewrite app_nil_r.
    destruct IH as [[-> Hall]|[Hsel Hex]].
    + left. split; [done|]. apply Forall_app. split; [done|]. by constructor.
    + right. split; [done|]. apply Exists_app. by left.
Qed.

Lemma spawn_run_not_exited sp o : spawn_run sp o -> exited o = false.
Proof. by destruct 1. Qed.

Lemma acceptor_run_not_exited lsock evs o :
  acceptor_run lsock evs o -> exited o = false.
Proof.
  induction 1 as [| ? ? ? (w' & -> & _)| ? ? ? ? ? (w' & -> & _)| | |];
    eauto using spawn_run_not_exited.
Qed.

Lemma server_mode_not_exited fuel w : exited (server_mode fuel w) = false.
Proof.
  destruct (server_mode_run fuel w) as (evs & _ & Hrun & _).
  destruct Hrun as [| ? ? ? ? ? (w' & -> & _)| ? ? ? ? ? ? ? (w' & -> & _)
                   | ? ? ? ? ? ? ? ? ? (w' & -> & _)|];
    eauto using acceptor_run_not_exited.
Qed.

Lemma client_mode_not_exited fuel local_echo w :
  exited (client_mode fuel local_echo w) = false.
Proof.
  destruct (client_mode_run fuel local_echo w) as (evs & _ & Hrun).
  by destruct Hrun.
Qed.

Lemma parse_command_line_unrecognised argv0 l1 x l2 :
  is_recognised x = false ->
  parse_command_line (argv0 :: l1 ++ x :: l2)
  = parse_command_line (argv0 :: l1 ++ l2).
Proof.
  intros Hx. unfold parse_command_line. cbn [skipn]. rewrite !drop_0.
  rewrite !fold_left_app. cbn [fold_left]. by rewrite parse_arg_unrecognised.
Qed.

Lemma main_client fuel argv0 args w :
  selected_mode args = MODE_CLIENT ->
  main fuel (argv0 :: args) w
  = bind (client_mode fuel (existsb (String.eqb "--echo") args))
         (fun _ => ret 0) w.
Proof.
  intros Hmode. unfold main. rewrite parse_command_line_spec, Hmode.
  reflexivity.
Qed.

Lemma main_daemon fuel argv0 args w :
  selected_mode args = MODE_DAEMON ->
  main fuel (argv0 :: args) w
  = bind sys_fork
      (fun pid =>
         if negb (pid =? 0) then ret 0
         else bind (sys_unlink SERVER_PATH)
                (fun _ => bind sys_signal_ign_chld
                   (fun _ => bind (server_mode fuel) (fun _ => ret 0)))) w.
Proof.
  intros Hmode. unfold main. rewrite parse_command_line_spec, Hmode.
  reflexivity.
Qed.

Lemma main_usage fuel argv0 args w :
  selected_mode args = MODE_UNDEF ->
  main fuel (argv0 :: args) w
  = bind (print_usage (basename argv0)) (fun _ => ret 0) w.
Proof.
  intros Hmode. unfold main. rewrite parse_command_line_spec, Hmode.
  reflexivity.
Qed.

(** C10. main scans every argument after the name of the program: the
    mode it selects is the one of the last mode flag; an argument it
    does not know changes nothing of what it does; and it leaves through
    the usage message, with status 1, when no mode flag appears among the
    arguments, and only then. *)
Theorem command_line_last_mode_flag_wins fuel argv0 args w :
  fst (parse_command_line (argv0 :: args)) = selected_mode args /\
  (forall l1 x l2,
     args = l1 ++ x :: l2 -> is_recognised x = false ->
     main fuel (argv0 :: args) w = main fuel (argv0 :: l1 ++ l2) w) /\
  (Forall (fun a => mode_of_flag a = None) args ->
   exists w',
     main fuel (argv0 :: args) w = Exited w' 1 /\
     stdout w' = stdout w ++ usage (basename argv0)) /\
  (Exists (fun a => mode_of_flag a <> None) args ->
   exited (main fuel (argv0 :: args) w) = false).
Proof.
  split_and!.
  - by rewrite parse_command_line_spec.
  - intros l1 x l2 -> Hx. unfold main.
    by rewrite parse_command_line_unrecognised.
  - intros Hnone.
    destruct (selected_mode_cases args) as [[Hmode _]|[_ Hex]].
    + rewrite main_usage by done.
      eexists. split; [reflexivity|].
      rewrite !to_stdout_stdout. unfold usage.
      by rewrite <- !app_assoc.
    + exfalso. apply Exists_exists in Hex as (a & Hin & Ha).
      rewrite Forall_forall in Hnone. by apply Ha, Hnone.
  - intros Hsome.
    destruct (selected_mode_cases args) as [[_ Hnone]|[[Hmode | Hmode] _]].
    + exfalso. apply Exists_exists in Hsome as (a & Hin & Ha).
      rewrite Forall_forall in Hnone. by apply Ha, Hnone.
    + rewrite main_daemon by done. unfold bind, sys_fork.
      destruct (answered_run EvFork w) as (w1 & pid & -> & _).
      destruct (pid =? 0); [|done]. simpl.
      pose proof (server_mode_not_exited fuel
                    (log EvSignalIgnChld
                       (log (EvUnlink SERVER_PATH)
                          (set_fs (fs w1 ∖ {[SERVER_PATH]}) w1)))) as Hex.
      by destruct (server_mode fuel _).
    + rewrite main_client by done. unfold bind.
      pose proof (client_mode_not_exited fuel
                    (existsb (String.eqb "--echo") args) w) as Hex.
      by destruct (client_mode fuel _ w).
Qed.

(** ** Raw mode *)






(** ** The theorems at work on the example worlds *)

Lemma terminal_restored_exactly_once_witness :
  tty (world_of (client_mode 10 false w_session)) = tty w_session.
Proof.
  refine (proj1 (terminal_restored_exactly_once 10 false w_session
                   (world_of (client_mode 10 false w_session))
                   (trace (world_of (client_mode 10 false w_session))) _ _)).
  - vm_compute. reflexivity.
  - reflexivity.
Defined.

Lemma client_shuts_down_both_halves_witness :
  exists pre,
    trace (world_of (client_mode 10 false w_session))
      = pre ++ [EvShutdown 3 SHUT_RDWR; EvClose 3] /\
    Forall (fun e => is_shutdown_or_close e = false) pre.
Proof.
  apply (client_shuts_down_both_halves 10 false w_session
           (world_of (client_mode 10 false w_session))
           (trace (world_of (client_mode 10 false w_session))) 3 0).
  - vm_compute. reflexivity.
  - reflexivity.
  - vm_compute. right. left. reflexivity.
  - lia.
Defined.

Lemma pty_failure_aborts_only_the_session_witness :
  (exists conn, [EvClose 4] = [EvClose conn]) /\
  exists w',
    server_mode 10 w_worker_no_pty = Done w' tt /\
    last (stderr w') = Some "could not open pseudo terminal".
Proof.
  apply (proj1 (pty_failure_aborts_only_the_session 10 w_worker_no_pty
                  (trace (world_of (server_mode 10 w_worker_no_pty)))
                  eq_refl)
           [EvSocket 3; EvBind 3 SERVER_PATH 0; EvListen 3 1 0;
            EvChmod SERVER_PATH 438 0; EvAccept 3 4; EvFork 0; EvClose 3]
           (-1) 0 0 [EvClose 4]).
  - vm_compute. reflexivity.
  - lia.
Defined.

Lemma accept_failure_is_fatal_witness :
  [EvClose 3; EvUnlink SERVER_PATH] = [EvClose 3; EvUnlink SERVER_PATH] /\
  exists w',
    server_mode 10 w_acceptor = Done w' tt /\
    (3 ∉ dom (fds w')) /\ (SERVER_PATH ∉ fs w').
Proof.
  apply (accept_failure_is_fatal 10 w_acceptor
           [EvSocket 3; EvBind 3 SERVER_PATH 0; EvListen 3 1 0;
            EvChmod SERVER_PATH 438 0; EvAccept 3 4; EvFork 77; EvClose 4]
           3 (-1) [EvClose 3; EvUnlink SERVER_PATH]).
  - vm_compute. reflexivity.
  - lia.
Defined.

Lemma setup_failure_releases_rendezvous_witness :
  exists lsock pre' w',
    [EvSocket 3] = EvSocket lsock :: pre' /\
    [EvClose 3; EvUnlink SERVER_PATH]
      = [EvClose lsock; EvUnlink SERVER_PATH] /\
    server_mode 10 w_second_instance = Done w' tt /\
    (lsock ∉ dom (fds w')) /\ (SERVER_PATH ∉ fs w').
Proof.
  apply (proj1 (setup_failure_releases_rendezvous 10 w_second_instance)
           [EvSocket 3] (EvBind 3 SERVER_PATH (-1))
           [EvClose 3; EvUnlink SERVER_PATH]).
  - vm_compute. reflexivity.
  - reflexivity.
Defined.


Lemma command_line_last_mode_flag_wins_witness :
  main 10 ["shell-tunnel"; "--client"; "--bogus"; "--daemon"] w_acceptor
  = main 10 ["shell-tunnel"; "--client"; "--daemon"] w_acceptor.
Proof.
  apply (proj1 (proj2 (command_line_last_mode_flag_wins 10 "shell-tunnel"
                         ["--client"; "--bogus"; "--daemon"] w_acceptor))
           ["--client"] "--bogus" ["--daemon"]).
  - reflexivity.
  - reflexivity.
Defined.

(** * Further properties *)

(** ** The relay, event by event *)

(** *** Every byte read is written across, and nothing else is written *)

Lemma paired_app in_a out_a in_b out_b l1 l2 : forall pending,
  paired in_a out_a in_b out_b pending l1 ->
  paired in_a out_a in_b out_b None l2 ->
  paired in_a out_a in_b out_b pending (l1 ++ l2).
Proof.
  induction l1 as [|e l1 IH]; intros pending H1 H2.
  - simpl in H1. by subst.
  - simpl in *. destruct pending as [[src b]|].
    + destruct H1 as [Hw H1]. split; [done|]. by apply IH.
    + destruct e as [| | | | | | | | | | | | | | | | | | |fd [b| |]|];
        try done; by apply IH.
Qed.

Lemma half_shape_paired in_a out_a in_b out_b src dst rmsg wmsg c evs errs brk :
  crossed in_a out_a in_b out_b src dst ->
  half_shape src dst rmsg wmsg c evs errs brk ->
  paired in_a out_a in_b out_b None evs.
Proof.
  intros Hx. destruct 1; simpl; try done; split; eauto.
Qed.

Lemma relay_shape_paired in_a out_a in_b out_b nfds k evs errs brk :
  relay_shape in_a out_a in_b out_b nfds k evs errs brk ->
  paired in_a out_a in_b out_b None evs.
Proof.
  assert (Ha : crossed in_a out_a in_b out_b in_a out_b) by (left; done).
  assert (Hb : crossed in_a out_a in_b out_b in_b out_a) by (right; done).
  induction 1 as [|s ea ma len H1|s ea eb mb len H1 H2
                 |s ea eb k' rest m brk H1 H2 H3 IH]; simpl.
  - done.
  - eauto using half_shape_paired.
  - apply paired_app; eauto using half_shape_paired.
  - apply paired_app; [eauto using half_shape_paired|].
    apply paired_app; eauto using half_shape_paired.
Qed.

Lemma paired_read in_a out_a in_b out_b src b post pre : forall pending,
  paired in_a out_a in_b out_b pending (pre ++ EvRead src (RdByte b) :: post) ->
  exists dst r post',
    post = EvWrite dst b r :: post' /\ crossed in_a out_a in_b out_b src dst.
Proof.
  induction pre as [|e pre IH]; intros pending H; simpl in H.
  - destruct pending as [[src0 b0]|].
    + destruct H as [(dst & r & Hbad & _) _]. discriminate.
    + destruct post as [|e post]; [discriminate|].
      simpl in H. destruct H as [(dst & r & -> & Hx) _]. eauto.
  - destruct pending as [[src0 b0]|].
    + destruct H as [_ H]. eauto.
    + destruct e as [| | | | | | | | | | | | | | | | | | |fd [b0| |]|];
        try done; eauto.
Qed.

Lemma paired_write in_a out_a in_b out_b dst b r post pre : forall pending,
  paired in_a out_a in_b out_b pending (pre ++ EvWrite dst b r :: post) ->
  (pre = [] /\ exists src, pending = Some (src, b) /\
                           crossed in_a out_a in_b out_b src dst) \/
  exists pre' src,
    pre = pre' ++ [EvRead src (RdByte b)] /\
    crossed in_a out_a in_b out_b src dst.
Proof.
  induction pre as [|e pre IH]; intros pending H; simpl in H.
  - left. split; [done|]. destruct pending as [[src0 b0]|]; [|done].
    destruct H as [(dst' & r' & [= -> -> ->] & Hx) _]. eauto.
  - right. destruct pending as [[src0 b0]|].
    + destruct H as [_ H].
      destruct (IH _ H) as [[_ (src & Hbad & _)]|(pre' & src & -> & Hx)];
        [discriminate|].
      by exists (e :: pre'), src.
    + destruct e as [| | | | | | | | | | | | | | | | | | |fd [b0| |]|];
        try done;
        (destruct (IH _ H) as [[-> (src & Hp & Hx)]|(pre' & src & -> & Hx)];
         [try discriminate|by eexists (_ :: pre'), src]).
      injection Hp as -> ->. by exists [], src.
Qed.

(** X1. In every run of the relay, with or without errors and whatever
    the descriptors: a read that returns a byte is followed at once by the
    write of that very byte, to [out_b] when it was read on [in_a] and to
    [out_a] when it was read on [in_b]; and every write is the write of
    the byte just read on the source across.  The relay writes nothing
    of its own, not even its uninitialised buffer. *)
Theorem relay_writes_what_it_read fuel in_a out_a in_b out_b w evs :
  trace (world_of (byte_interchange fuel in_a out_a in_b out_b w))
    = trace w ++ evs ->
  (forall pre src b post,
     evs = pre ++ EvRead src (RdByte b) :: post ->
     exists dst r post',
       post = EvWrite dst b r :: post' /\
       crossed in_a out_a in_b out_b src dst) /\
  (forall pre dst b r post,
     evs = pre ++ EvWrite dst b r :: post ->
     exists pre' src,
       pre = pre' ++ [EvRead src (RdByte b)] /\
       crossed in_a out_a in_b out_b src dst).
Proof.
  intros Ht.
  destruct (byte_interchange_shape fuel in_a out_a in_b out_b w)
    as (k & brk & evs' & errs & _ & _ & Ht' & _ & Hs).
  rewrite Ht' in Ht. apply app_inv_head in Ht as ->.
  apply relay_shape_paired in Hs. split.
  - intros pre src b post ->. eauto using paired_read.
  - intros pre dst b r post ->.
    destruct (paired_write _ _ _ _ _ _ _ _ _ _ Hs)
      as [[_ (src & Hbad & _)]|H]; [discriminate|done].
Qed.

Lemma relay_writes_what_it_read_witness :
  exists dst r post',
    [EvWrite 1 x42 WrOk; EvSelect 4 [0]; EvRead 0 RdEof]
      = EvWrite dst x42 r :: post' /\
    crossed 0 1 3 3 3 dst.
Proof.
  apply (proj1 (relay_writes_what_it_read 10 0 1 3 3 w_relay
                  (trace (world_of (byte_interchange 10 0 1 3 3 w_relay)))
                  eq_refl)
           [EvSelect 4 [0]; EvRead 0 (RdByte x6c); EvWrite 3 x6c WrOk;
            EvSelect 4 [3]; EvRead 3 (RdByte x41); EvWrite 1 x41 WrOk;
            EvSelect 4 [3; 0]; EvRead 0 (RdByte x73); EvWrite 3 x73 WrOk]
           3 x42 [EvWrite 1 x42 WrOk; EvSelect 4 [0]; EvRead 0 RdEof]).
  vm_compute. reflexivity.
Defined.

(** *** Reads follow what select reported *)

Lemma half_shape_gated in_a in_b src dst rmsg wmsg s evs errs brk tail :
  src = in_a \/ src = in_b ->
  half_shape src dst rmsg wmsg (FD_ISSET src s) evs errs brk ->
  gated in_a in_b s tail ->
  gated in_a in_b s (evs ++ tail).
Proof.
  intros Hsrc H Htail.
  inversion H as [Hc|Hc|Hc|b Hc|b Hc|b Hc]; subst; simpl; auto.
Qed.

Lemma relay_shape_gated in_a out_a in_b out_b nfds k evs errs brk :
  relay_shape in_a out_a in_b out_b nfds k evs errs brk ->
  forall cur, gated in_a in_b cur evs.
Proof.
  induction 1 as [|s ea ma len H1|s ea eb mb len H1 H2
                 |s ea eb k' rest m brk H1 H2 H3 IH]; intros cur; simpl.
  - done.
  - rewrite <- (app_nil_r ea).
    eapply half_shape_gated; [by left|exact H1|done].
  - eapply half_shape_gated; [by left|exact H1|].
    rewrite <- (app_nil_r eb).
    eapply half_shape_gated; [by right|exact H2|done].
  - eapply half_shape_gated; [by left|exact H1|].
    eapply half_shape_gated; [by right|exact H2|apply IH].
Qed.

Lemma gated_read in_a in_b fd r post pre : forall cur,
  gated in_a in_b cur (pre ++ EvRead fd r :: post) ->
  (fd = in_a \/ fd = in_b) /\
  ((Forall (fun e => is_select e = false) pre /\ FD_ISSET fd cur = true) \/
   exists pre1 nfds s mid,
     pre = pre1 ++ EvSelect nfds s :: mid /\
     Forall (fun e => is_select e = false) mid /\
     FD_ISSET fd s = true).
Proof.
  induction pre as [|e pre IH]; intros cur H; simpl in H.
  - destruct H as [[Hset Hfd] _]. split; [done|]. left. by split.
  - destruct e as [| | | | | | | | | | | | | | | | | |nfds s|fd' r'|];
      try (destruct (IH _ H) as [Hfd [[Hall Hset]|(pre1 & n & s & mid & -> & Hall & Hset)]];
           (split; [done|]);
           [left; split; [by constructor|done]
           |right; by eexists (_ :: pre1), n, s, mid]).
    + destruct (IH _ H) as [Hfd [[Hall Hset]|(pre1 & n & s' & mid & -> & Hall & Hset)]];
        (split; [done|]); right.
      * by exists [], nfds, s, pre.
      * by eexists (_ :: pre1), n, s', mid.
    + destruct H as [_ H].
      destruct (IH _ H) as [Hfd [[Hall Hset]|(pre1 & n & s & mid & -> & Hall & Hset)]];
        (split; [done|]).
      * left. split; [by constructor|done].
      * right. by eexists (_ :: pre1), n, s, mid.
Qed.

(** X2. In every run of the relay, a read is made only on one of the two
    sources and only on a descriptor that the select just before it (the
    last one, with no other select in between) reported readable: the
    relay never reads a descriptor on which select did not report data. *)
Theorem relay_reads_only_what_select_reported
    fuel in_a out_a in_b out_b w pre fd r post :
  trace (world_of (byte_interchange fuel in_a out_a in_b out_b w))
    = trace w ++ pre ++ EvRead fd r :: post ->
  (fd = in_a \/ fd = in_b) /\
  exists pre1 nfds s mid,
    pre = pre1 ++ EvSelect nfds s :: mid /\
    Forall (fun e => is_select e = false) mid /\
    FD_ISSET fd s = true.
Proof.
  intros Ht.
  destruct (byte_interchange_shape fuel in_a out_a in_b out_b w)
    as (k & brk & evs' & errs & _ & _ & Ht' & _ & Hs).
  rewrite Ht' in Ht. apply app_inv_head in Ht as ->.
  pose proof (relay_shape_gated _ _ _ _ _ _ _ _ _ Hs []) as Hg.
  destruct (gated_read _ _ _ _ _ _ _ Hg) as [Hfd [[_ Hbad]|H]]; [done|].
  by split.
Qed.

Lemma relay_reads_only_what_select_reported_witness :
  (3 = 0 \/ 3 = 3) /\
  exists pre1 nfds s mid,
    [EvSelect 4 [0]; EvRead 0 (RdByte x6c); EvWrite 3 x6c WrOk;
     EvSelect 4 [3]] = pre1 ++ EvSelect nfds s :: mid /\
    Forall (fun e => is_select e = false) mid /\
    FD_ISSET 3 s = true.
Proof.
  apply (relay_reads_only_what_select_reported 10 0 1 3 3 w_relay
           [EvSelect 4 [0]; EvRead 0 (RdByte x6c); EvWrite 3 x6c WrOk;
            EvSelect 4 [3]]
           3 (RdByte x41)
           [EvWrite 1 x41 WrOk;
            EvSelect 4 [3; 0]; EvRead 0 (RdByte x73); EvWrite 3 x73 WrOk;
            EvRead 3 (RdByte x42); EvWrite 1 x42 WrOk;
            EvSelect 4 [0]; EvRead 0 RdEof]).
  vm_compute. reflexivity.
Defined.

(** *** One byte for each side and each select *)









(** *** What the relay prints when it ends *)

Lemma relay_shape_verdict in_a out_a in_b out_b nfds k evs errs len :
  relay_shape in_a out_a in_b out_b nfds k evs errs (Some len) ->
  exists body e, evs = body ++ [e] /\ verdict in_a out_a in_b out_b e errs.
Proof.
  remember (Some len) as brk eqn:Hbrk. intros H. revert len Hbrk.
  induction H as [|s ea ma len' H1|s ea eb mb len' H1 H2
                 |s ea eb k' rest m brk H1 H2 H3 IH]; intros len Hbrk.
  - discriminate.
  - inversion H1; subst.
    + exists [EvSelect nfds s], (EvRead in_a RdEof). simpl. auto.
    + exists [EvSelect nfds s], (EvRead in_a RdErr). simpl. auto.
    + eexists [EvSelect nfds s; _], (EvWrite out_b _ WrZero). simpl. auto.
    + eexists [EvSelect nfds s; _], (EvWrite out_b _ WrErr). simpl. auto.
  - inversion H2; subst.
    + exists (EvSelect nfds s :: ea), (EvRead in_b RdEof). simpl. auto.
    + exists (EvSelect nfds s :: ea), (EvRead in_b RdErr). simpl. auto.
    + eexists (EvSelect nfds s :: ea ++ [_]), (EvWrite out_a _ WrZero).
      simpl. rewrite <- app_assoc. simpl. auto.
    + eexists (EvSelect nfds s :: ea ++ [_]), (EvWrite out_a _ WrErr).
      simpl. rewrite <- app_assoc. simpl. auto.
  - destruct (IH _ Hbrk) as (body & e & -> & Hv).
    exists (EvSelect nfds s :: ea ++ eb ++ body), e.
    simpl. rewrite <- !app_assoc. auto.
Qed.

(** X4. When byte_interchange returns, what it printed on the standard
    error tells how and on which side it ended, which its return value
    does not: nothing at the end of a stream; after a failed read,
    "could not read file (a)" when the read was on [in_a] in the first
    half of the turn and "could not read file (b)" when it was on [in_b]
    in the second; after a failed write, "could not write file (b)" for
    [out_b] and "could not write file (a)" for [out_a]. *)
Theorem relay_reports_the_failing_side
    fuel in_a out_a in_b out_b w w' len body e :
  byte_interchange fuel in_a out_a in_b out_b w = Done w' len ->
  trace w' = trace w ++ body ++ [e] ->
  exists errs,
    stderr w' = stderr w ++ errs /\ verdict in_a out_a in_b out_b e errs.
Proof.
  intros Hrun Ht.
  destruct (byte_interchange_shape fuel in_a out_a in_b out_b w)
    as (k & brk & evs & errs & _ & Hres & Ht' & He & Hs).
  rewrite Hrun in Hres, Ht', He. simpl in Hres, Ht', He.
  injection Hres as <-. rewrite Ht' in Ht. apply app_inv_head in Ht.
  destruct (relay_shape_verdict _ _ _ _ _ _ _ _ _ Hs) as (body' & e' & -> & Hv).
  apply app_inj_tail in Ht as [_ ->]. by exists errs.
Qed.

Lemma relay_reports_the_failing_side_witness :
  exists errs,
    stderr (world_of (byte_interchange 1 3 3 4 4 w_read_error)) = [] ++ errs /\
    verdict 3 3 4 4 (EvRead 4 RdErr) errs.
Proof.
  apply (relay_reports_the_failing_side 1 3 3 4 4 w_read_error
           (world_of (byte_interchange 1 3 3 4 4 w_read_error)) (-1)
           [EvSelect 5 [4]] (EvRead 4 RdErr)).
  - vm_compute. reflexivity.
  - vm_compute. reflexivity.
Defined.

(** *** Nothing to read *)

Lemma filter_never_ready in_a in_b r :
  FD_ISSET in_a r = false -> FD_ISSET in_b r = false ->
  List.filter (fun fd => FD_ISSET fd r) (FD_SET in_b (FD_SET in_a FD_ZERO)) = [].
Proof. intros Ha Hb. unfold FD_SET, FD_ZERO. simpl. by rewrite Ha, Hb. Qed.

Lemma relay_loop_idle in_a out_a in_b out_b nfds fuel : forall buff w,
  never_ready in_a in_b (ready w) ->
  exists w',
    relay_loop fuel in_a out_a in_b out_b nfds buff w = Running w' /\
    trace w' = trace w ++ repeat (EvSelect nfds []) fuel /\
    fds w' = fds w /\ stderr w' = stderr w.
Proof.
  induction fuel as [|n IH]; intros buff w Hidle.
  - exists w. simpl. by rewrite app_nil_r.
  - simpl. unfold relay_turn, bind, sys_select, call.
    destruct (ready w) as [|r rest] eqn:Hr.
    + simpl. unfold ret.
      destruct (IH buff (log (EvSelect nfds []) w)) as (w' & -> & Ht & Hf & He).
      { simpl. by rewrite Hr. }
      exists w'. split; [done|]. rewrite Ht, Hf, He. simpl.
      by rewrite <- app_assoc.
    + apply Forall_cons in Hidle as [[Ha Hb] Hidle].
      rewrite filter_never_ready by done. simpl. unfold ret.
      destruct (IH buff (log (EvSelect nfds []) (set_ready rest w)))
        as (w' & -> & Ht & Hf & He); [done|].
      exists w'. split; [done|]. rewrite Ht, Hf, He. simpl.
      by rewrite <- app_assoc.
Qed.

(** X5. As long as select reports neither source, because it times out
    or for any other reason, the relay only selects again: whatever the
    number of turns, it has not returned, it has made no read and no
    write, no descriptor has changed and nothing was printed.  The
    timeout of select ends no session. *)
Theorem relay_idle_only_polls fuel in_a out_a in_b out_b w :
  never_ready in_a in_b (ready w) ->
  exists w',
    byte_interchange fuel in_a out_a in_b out_b w = Running w' /\
    trace w' = trace w ++ repeat (EvSelect (Z.max in_a in_b + 1) []) fuel /\
    fds w' = fds w /\ stderr w' = stderr w.
Proof.
  intros Hidle. unfold byte_interchange. rewrite nfds_is_max.
  by apply relay_loop_idle.
Qed.

Lemma relay_idle_only_polls_witness :
  exists w',
    byte_interchange 7 0 1 3 3 w_idle = Running w' /\
    trace w' = trace w_idle ++ repeat (EvSelect (Z.max 0 3 + 1) []) 7 /\
    fds w' = fds w_idle /\ stderr w' = stderr w_idle.
Proof.
  apply (relay_idle_only_polls 7 0 1 3 3 w_idle).
  repeat constructor.
Defined.

(** *** A source read to its end *)

Lemma FD_ISSET_single_eq fd : FD_ISSET fd [fd] = true.
Proof. unfold FD_ISSET. simpl. by rewrite Z.eqb_refl. Qed.

Lemma FD_ISSET_single_ne fd fd' : fd <> fd' -> FD_ISSET fd [fd'] = false.
Proof.
  intros Hne. unfold FD_ISSET. simpl.
  by destruct (Z.eqb_spec fd fd').
Qed.

Lemma select_reports_in_a nfds in_a in_b rest w :
  in_a <> in_b -> ready w = [in_a] :: rest ->
  sys_select nfds (FD_SET in_b (FD_SET in_a FD_ZERO)) w
  = Done (log (EvSelect nfds [in_a]) (set_ready rest w)) [in_a].
Proof.
  intros Hne Hr. unfold sys_select, call, FD_SET, FD_ZERO. rewrite Hr.
  cbn [List.filter].
  rewrite FD_ISSET_single_eq, (FD_ISSET_single_ne in_b in_a) by congruence.
  reflexivity.
Qed.

Lemma relay_loop_S n in_a out_a in_b out_b nfds buff w :
  relay_loop (S n) in_a out_a in_b out_b nfds buff w
  = match relay_turn in_a out_a in_b out_b nfds buff w with
    | Done w' (Some len, _) => Done w' len
    | Done w' (None, buff') => relay_loop n in_a out_a in_b out_b nfds buff' w'
    | Running w' => Running w'
    | Execed w' => Execed w'
    | Exited w' s => Exited w' s
    end.
Proof.
  cbn [relay_loop]. unfold bind.
  by destruct (relay_turn in_a out_a in_b out_b nfds buff w) as [w' [[len|] bf]| | |].
Qed.

Lemma relay_turn_meets_the_end in_a out_a in_b out_b nfds buff w ca rest :
  in_a <> in_b ->
  fds w !! in_a = Some ca -> rx ca = [] ->
  ready w = [in_a] :: rest ->
  exists w',
    relay_turn in_a out_a in_b out_b nfds buff w = Done w' (Some 0, buff) /\
    fds w' = fds w /\ ready w' = rest /\ stderr w' = stderr w.
Proof.
  intros Hab Ha Hrx Hr. unfold relay_turn, bind.
  rewrite (select_reports_in_a nfds in_a in_b rest) by done.
  rewrite FD_ISSET_single_eq.
  unfold transfer, bind, sys_read, call. cbn [fds log set_ready].
  rewrite Ha, Hrx. simpl. eexists. split; [reflexivity|]. by split_and!.
Qed.

Lemma relay_turn_moves_a_byte
    in_a out_a in_b out_b nfds buff w ca cb b bs rest :
  in_a <> in_b -> in_a <> out_b ->
  fds w !! in_a = Some ca -> rx ca = RdByte b :: bs ->
  fds w !! out_b = Some cb -> wres cb = [] ->
  ready w = [in_a] :: rest ->
  exists w',
    relay_turn in_a out_a in_b out_b nfds buff w = Done w' (None, b) /\
    fds w' = <[out_b := Chan (rx cb) [] (tx cb ++ [b])]>
               (<[in_a := Chan bs (wres ca) (tx ca)]> (fds w)) /\
    ready w' = rest /\ stderr w' = stderr w.
Proof.
  intros Hab Hio Ha Hrx Hb Hw Hr. unfold relay_turn, bind.
  rewrite (select_reports_in_a nfds in_a in_b rest) by done.
  rewrite FD_ISSET_single_eq, (FD_ISSET_single_ne in_b in_a) by congruence.
  unfold transfer, bind, sys_read, call. cbn [fds log set_ready].
  rewrite Ha, Hrx. cbn [rd_len]. simpl.
  unfold sys_write, call. cbn [fds log set_fds].
  rewrite lookup_insert_ne, Hb, Hw by done. simpl.
  eexists. split; [reflexivity|]. by split_and!.
Qed.

Lemma relay_loop_drains in_a out_a in_b out_b nfds bs :
  forall buff w ca cb tail,
    in_a <> in_b -> in_a <> out_b ->
    fds w !! in_a = Some ca -> rx ca = map RdByte bs ->
    fds w !! out_b = Some cb -> wres cb = [] ->
    ready w = repeat [in_a] (S (length bs)) ++ tail ->
    exists w',
      relay_loop (S (length bs)) in_a out_a in_b out_b nfds buff w = Done w' 0 /\
      delivered w' out_b = delivered w out_b ++ bs /\
      sent w' in_a = [] /\ stderr w' = stderr w /\ ready w' = tail.
Proof.
  induction bs as [|b bs IH]; intros buff w ca cb tail Hab Hio Ha Hrx Hb Hw Hr.
  - rewrite relay_loop_S.
    destruct (relay_turn_meets_the_end in_a out_a in_b out_b nfds buff w ca tail)
      as (w' & -> & Hf & Hrd & He); try done.
    exists w'. split; [done|].
    unfold delivered, sent. rewrite Hf, Ha, Hrx, app_nil_r. by split_and!.
  - change (length (b :: bs)) with (S (length bs)) in *.
    rewrite relay_loop_S.
    destruct (relay_turn_moves_a_byte in_a out_a in_b out_b nfds buff w ca cb
                b (map RdByte bs) (repeat [in_a] (S (length bs)) ++ tail))
      as (w1 & -> & Hf & Hrd & He); try done.
    destruct (IH b w1 (Chan (map RdByte bs) (wres ca) (tx ca))
                (Chan (rx cb) [] (tx cb ++ [b])) tail)
      as (w' & Hrun & Hd & Hs & He' & Hrd'); try done.
    + rewrite Hf, lookup_insert_ne by done. by rewrite lookup_insert_eq.
    + rewrite Hf. by rewrite lookup_insert_eq.
    + exists w'. split; [exact Hrun|].
      rewrite Hd, Hs, He', He, Hrd'. unfold delivered.
      rewrite Hf, lookup_insert_eq, Hb. simpl.
      rewrite <- app_assoc. by split_and!.
Qed.

(** X6. A source read to its end.  When the descriptors of side a are
    open, [in_a] holds the bytes [bs] and then its end, [out_b] takes
    what is written, and select reports [in_a] alone, the relay returns 0
    after one turn for each byte and one for the end: all of [bs] is
    delivered to [out_b], in order, nothing of it is left to read, and
    nothing is printed. *)
Theorem relay_drains_a_source in_a out_a in_b out_b bs w ca cb tail :
  in_a <> in_b -> in_a <> out_b ->
  fds w !! in_a = Some ca -> rx ca = map RdByte bs ->
  fds w !! out_b = Some cb -> wres cb = [] ->
  ready w = repeat [in_a] (S (length bs)) ++ tail ->
  exists w',
    byte_interchange (S (length bs)) in_a out_a in_b out_b w = Done w' 0 /\
    delivered w' out_b = delivered w out_b ++ bs /\
    sent w' in_a = [] /\ stderr w' = stderr w /\ ready w' = tail.
Proof.
  intros. unfold byte_interchange. by eapply relay_loop_drains.
Qed.

Lemma relay_drains_a_source_witness :
  exists w',
    byte_interchange 3 0 1 3 3 w_typing = Done w' 0 /\
    delivered w' 3 = delivered w_typing 3 ++ [x6c; x73] /\
    sent w' 0 = [] /\ stderr w' = stderr w_typing /\ ready w' = [[3]].
Proof.
  apply (relay_drains_a_source 0 1 3 3 [x6c; x73] w_typing
           (Chan [RdByte x6c; RdByte x73] [] [])
           (Chan [RdByte x41] [] []) [[3]]).
  - lia.
  - lia.
  - reflexivity.
  - reflexivity.
  - reflexivity.
  - reflexivity.
  - reflexivity.
Defined.

(** ** The child that becomes the shell *)

Lemma sys_dup2_open oldfd newfd c w :
  fds w !! oldfd = Some c ->
  sys_dup2 oldfd newfd w
  = Done (log (EvDup2 oldfd newfd) (set_fds (<[newfd := c]> (fds w)) w)) tt.
Proof. intros H. unfold sys_dup2, call. by rewrite H. Qed.

Lemma sys_execvp_cases file argv w :
  exists w1 r,
    trace w1 = trace w /\ stderr w1 = stderr w /\ fds w1 = fds w /\
    sys_execvp file argv w
    = if r <? 0 then Done (log (EvExecvp file argv r) w1) r
      else Execed (log (EvExecvp file argv r) w1).
Proof.
  unfold sys_execvp.
  destruct (next_ret_run w) as (w1 & r & -> & Ht & He & Hf & _).
  exists w1, r. by split_and!.
Qed.

(** Every run of shell on an open slave other than the three standard
    descriptors. *)
Lemma shell_cases fd c w :
  fds w !! fd = Some c -> 2 < fd ->
  (exists w' r,
     shell fd w = Done w' tt /\ r < 0 /\
     trace w' = trace w ++ [EvSetsid r] /\
     stderr w' = stderr w ++ ["could not create a new session"] /\
     fds w' = fds w) \/
  (exists w' r1 r2,
     shell fd w = Done w' tt /\ 0 <= r1 /\ r2 < 0 /\
     trace w' = trace w ++ shell_attach fd r1 r2 /\
     stderr w' = stderr w ++ ["could not issue IOCTL"] /\
     fds w' = on_stdio c (fds w)) \/
  (exists w' r1 r2 r3 (done : bool),
     shell fd w = (if done then Done w' tt else Execed w') /\
     0 <= r1 /\ 0 <= r2 /\ (if done then r3 < 0 else 0 <= r3) /\
     trace w' = trace w ++ shell_attach fd r1 r2
                  ++ [EvClose fd; EvExecvp "/bin/bash" ["/bin/bash"; "-i"] r3] /\
     stderr w' = stderr w ++ (if done then ["could not exec shell"] else []) /\
     fds w' = wired_to fd c (fds w)).
Proof.
  intros Hfd Hgt. unfold shell, bind, sys_setsid, sys_ioctl_sctty.
  destruct (answered_run EvSetsid w) as (w1 & r1 & -> & Ht1 & He1 & Hf1 & _).
  destruct (Z.ltb_spec r1 0) as [Hr1|Hr1].
  - left. eexists _, r1. split; [reflexivity|]. simpl.
    by rewrite Ht1, He1, Hf1.
  - right.
    assert (H0 : fd <> STDIN_FILENO) by (unfold STDIN_FILENO; lia).
    assert (H1 : fd <> STDOUT_FILENO) by (unfold STDOUT_FILENO; lia).
    assert (H2 : fd <> STDERR_FILENO) by (unfold STDERR_FILENO; lia).
    rewrite (sys_dup2_open fd STDIN_FILENO c) by by rewrite Hf1.
    rewrite (sys_dup2_open fd STDOUT_FILENO c)
      by (simpl; by rewrite lookup_insert_ne, Hf1).
    rewrite (sys_dup2_open fd STDERR_FILENO c)
      by (simpl; by rewrite !lookup_insert_ne, Hf1).
    match goal with
    | |- context [answered (EvIoctlSctty fd) ?w0] =>
        destruct (answered_run (EvIoctlSctty fd) w0)
          as (w5 & r2 & -> & Ht5 & He5 & Hf5 & _)
    end.
    simpl in Ht5, He5, Hf5.
    destruct (Z.ltb_spec r2 0) as [Hr2|Hr2].
    + left. eexists _, r1, r2. split; [reflexivity|]. simpl.
      rewrite Ht5, He5, Hf5, Ht1, He1, Hf1. unfold shell_attach, on_stdio.
      rewrite <- !app_assoc. by split_and!.
    + right. simpl.
      match goal with
      | |- context [sys_execvp ?f ?a ?w0] =>
          destruct (sys_execvp_cases f a w0) as (w6 & r3 & Ht6 & He6 & Hf6 & ->)
      end.
      simpl in Ht6, He6, Hf6.
      destruct (Z.ltb_spec r3 0) as [Hr3|Hr3].
      * eexists _, r1, r2, r3, true. split; [reflexivity|]. simpl.
        rewrite Ht6, He6, Hf6, Ht5, He5, Hf5, Ht1, He1, Hf1.
        unfold shell_attach, wired_to, on_stdio. rewrite <- !app_assoc.
        by split_and!.
      * eexists _, r1, r2, r3, false. split; [reflexivity|]. simpl.
        rewrite Ht6, He6, Hf6, Ht5, He5, Hf5, Ht1, He1, Hf1.
        unfold shell_attach, wired_to, on_stdio. rewrite <- !app_assoc, app_nil_r.
        by split_and!.
Qed.

(** X7. When shell replaces the process by the interpreter, on an open
    slave [fd] that is none of the three standard descriptors: the
    standard input, output and error of the process are the slave, the
    descriptor [fd] itself is closed, every other descriptor is as it
    was; the session was created and the controlling terminal attached
    before; the program run is /bin/bash with the fixed arguments
    ["/bin/bash"; "-i"]; and nothing was printed. *)
Theorem shell_execs_on_the_slave fd c w w' :
  fds w !! fd = Some c -> 2 < fd ->
  shell fd w = Execed w' ->
  fds w' !! STDIN_FILENO = Some c /\
  fds w' !! STDOUT_FILENO = Some c /\
  fds w' !! STDERR_FILENO = Some c /\
  fds w' !! fd = None /\
  (forall fd', 2 < fd' -> fd' <> fd -> fds w' !! fd' = fds w !! fd') /\
  stderr w' = stderr w /\
  exists r1 r2 r3,
    0 <= r1 /\ 0 <= r2 /\ 0 <= r3 /\
    trace w' = trace w ++ shell_attach fd r1 r2
                 ++ [EvClose fd; EvExecvp "/bin/bash" ["/bin/bash"; "-i"] r3].
Proof.
  intros Hfd Hgt Hrun.
  destruct (shell_cases fd c w Hfd Hgt)
    as [(w0 & r & H & _)|[(w0 & r1 & r2 & H & _)
       |(w0 & r1 & r2 & r3 & [] & H & Hr1 & Hr2 & Hr3 & Ht & He & Hf)]];
    rewrite Hrun in H; try discriminate.
  injection H as <-. rewrite Hf, He, app_nil_r. unfold wired_to, on_stdio.
  unfold STDIN_FILENO, STDOUT_FILENO, STDERR_FILENO in *.
  split_and!; try done.
  - rewrite lookup_delete_ne, !lookup_insert_ne by lia.
    by rewrite lookup_insert_eq.
  - rewrite lookup_delete_ne, lookup_insert_ne by lia.
    by rewrite lookup_insert_eq.
  - rewrite lookup_delete_ne by lia. by rewrite lookup_insert_eq.
  - by rewrite lookup_delete_eq.
  - intros fd' Hfd' Hne.
    rewrite lookup_delete_ne, !lookup_insert_ne by (try lia; congruence).
    done.
  - by exists r1, r2, r3.
Qed.

Lemma shell_execs_on_the_slave_witness :
  fds (world_of (shell 6 w_shell)) !! STDIN_FILENO
  = Some (Chan [RdByte x6c] [] []).
Proof.
  refine (proj1 (shell_execs_on_the_slave 6 (Chan [RdByte x6c] [] []) w_shell
                   (world_of (shell 6 w_shell)) _ _ _)).
  - reflexivity.
  - lia.
  - vm_compute. reflexivity.
Defined.

(** X8. shell returns only after a failure, which it reports, and at the
    step that failed: after a failed setsid nothing else is done and no
    descriptor has changed; after a failed ioctl the standard
    descriptors are already the slave and the slave is still open; and
    after a failed execvp the slave is closed.  It never returns without
    a message. *)
Theorem shell_returns_only_after_a_reported_failure fd c w w' :
  fds w !! fd = Some c -> 2 < fd ->
  shell fd w = Done w' tt ->
  (exists r,
     r < 0 /\ trace w' = trace w ++ [EvSetsid r] /\
     stderr w' = stderr w ++ ["could not create a new session"] /\
     fds w' = fds w) \/
  (exists r1 r2,
     0 <= r1 /\ r2 < 0 /\
     trace w' = trace w ++ shell_attach fd r1 r2 /\
     stderr w' = stderr w ++ ["could not issue IOCTL"] /\
     fds w' = on_stdio c (fds w)) \/
  (exists r1 r2 r3,
     0 <= r1 /\ 0 <= r2 /\ r3 < 0 /\
     trace w' = trace w ++ shell_attach fd r1 r2
                  ++ [EvClose fd; EvExecvp "/bin/bash" ["/bin/bash"; "-i"] r3] /\
     stderr w' = stderr w ++ ["could not exec shell"] /\
     fds w' = wired_to fd c (fds w)).
Proof.
  intros Hfd Hgt Hrun.
  destruct (shell_cases fd c w Hfd Hgt)
    as [(w0 & r & H & Hr & Ht & He & Hf)
       |[(w0 & r1 & r2 & H & Hr1 & Hr2 & Ht & He & Hf)
       |(w0 & r1 & r2 & r3 & [] & H & Hr1 & Hr2 & Hr3 & Ht & He & Hf)]];
    rewrite Hrun in H; try discriminate; injection H as <-.
  - left. by exists r.
  - right. left. by exists r1, r2.
  - right. right. by exists r1, r2, r3.
Qed.

Lemma shell_returns_only_after_a_reported_failure_witness :
  (exists r,
     r < 0 /\
     trace (world_of (shell 6 w_shell_no_tty))
       = trace w_shell_no_tty ++ [EvSetsid r] /\
     stderr (world_of (shell 6 w_shell_no_tty))
       = stderr w_shell_no_tty ++ ["could not create a new session"] /\
     fds (world_of (shell 6 w_shell_no_tty)) = fds w_shell_no_tty) \/
  (exists r1 r2,
     0 <= r1 /\ r2 < 0 /\
     trace (world_of (shell 6 w_shell_no_tty))
       = trace w_shell_no_tty ++ shell_attach 6 r1 r2 /\
     stderr (world_of (shell 6 w_shell_no_tty))
       = stderr w_shell_no_tty ++ ["could not issue IOCTL"] /\
     fds (world_of (shell 6 w_shell_no_tty))
       = on_stdio (Chan [RdByte x6c] [] []) (fds w_shell_no_tty)) \/
  (exists r1 r2 r3,
     0 <= r1 /\ 0 <= r2 /\ r3 < 0 /\
     trace (world_of (shell 6 w_shell_no_tty))
       = trace w_shell_no_tty ++ shell_attach 6 r1 r2
           ++ [EvClose 6; EvExecvp "/bin/bash" ["/bin/bash"; "-i"] r3] /\
     stderr (world_of (shell 6 w_shell_no_tty))
       = stderr w_shell_no_tty ++ ["could not exec shell"] /\
     fds (world_of (shell 6 w_shell_no_tty))
       = wired_to 6 (Chan [RdByte x6c] [] []) (fds w_shell_no_tty)).
Proof.
  apply (shell_returns_only_after_a_reported_failure 6
           (Chan [RdByte x6c] [] []) w_shell_no_tty
           (world_of (shell 6 w_shell_no_tty))).
  - reflexivity.
  - lia.
  - vm_compute. reflexivity.
Defined.

(** ** Descriptors *)

Lemma same_descriptors_refl w : same_descriptors w w.
Proof. by split. Qed.

Lemma same_descriptors_trans w1 w2 w3 :
  same_descriptors w1 w2 -> same_descriptors w2 w3 -> same_descriptors w1 w3.
Proof. intros [] []; split; congruence. Qed.

Lemma guarded_transfer_same_descriptors (c : bool) src dst rmsg wmsg buff w :
  exists w' r,
    (if c then transfer src dst rmsg wmsg buff else ret (None, buff)) w
      = Done w' r /\
    same_descriptors w w'.
Proof.
  destruct c; [|eexists _, _; split; [reflexivity|apply same_descriptors_refl]].
  unfold transfer, bind, sys_read, call.
  destruct (fds w !! src) as [cs|] eqn:Es;
    [|simpl; eexists _, _; split; [reflexivity|by split]].
  destruct (rx cs) as [|[b| |] rest]; simpl;
    try (eexists _, _; split; [reflexivity|]; split; simpl; try done;
         by apply dom_insert_lookup_L).
  unfold sys_write, call; simpl.
  destruct (<[src:=Chan rest (wres cs) (tx cs)]> (fds w) !! dst) as [cd|] eqn:Ed;
    [|simpl; eexists _, _; split; [reflexivity|]; split; simpl; try done;
      by apply dom_insert_lookup_L].
  assert (Hdom : forall x,
             dom (<[dst:=x]> (<[src:=Chan rest (wres cs) (tx cs)]> (fds w)))
             = dom (fds w)).
  { intros x. rewrite dom_insert_lookup_L by by rewrite Ed.
    by apply dom_insert_lookup_L. }
  destruct (wres cd) as [|[| |] rest']; simpl;
    eexists _, _; (split; [reflexivity|]); split; simpl; try done.
Qed.

Lemma relay_loop_same_descriptors in_a out_a in_b out_b nfds fuel :
  forall buff w,
    same_descriptors w
      (world_of (relay_loop fuel in_a out_a in_b out_b nfds buff w)).
Proof.
  induction fuel as [|n IH]; intros buff w; [apply same_descriptors_refl|].
  rewrite relay_loop_S. unfold relay_turn, bind.
  destruct (sys_select_frame nfds (FD_SET in_b (FD_SET in_a FD_ZERO)) w)
    as (w0 & s & Hsel & _ & _ & Hf0).
  assert (H0 : same_descriptors w w0).
  { revert Hsel. unfold sys_select, call.
    destruct (ready w); intros [= <- _]; by split. }
  rewrite Hsel.
  destruct (guarded_transfer_same_descriptors (FD_ISSET in_a s) in_a out_b
              "could not read file (a)" "could not write file (b)" buff w0)
    as (w1 & [brk1 buff1] & -> & H1).
  destruct brk1 as [len|].
  - unfold ret. simpl. eauto using same_descriptors_trans.
  - destruct (guarded_transfer_same_descriptors (FD_ISSET in_b s) in_b out_a
                "could not read file (b)" "could not write file (a)" buff1 w1)
      as (w2 & [brk2 buff2] & -> & H2).
    destruct brk2 as [len|]; simpl.
    + eauto using same_descriptors_trans.
    + eapply same_descriptors_trans; [|apply IH].
      eauto using same_descriptors_trans.
Qed.

Lemma byte_interchange_same_descriptors fuel in_a out_a in_b out_b w :
  same_descriptors w (world_of (byte_interchange fuel in_a out_a in_b out_b w)).
Proof. apply relay_loop_same_descriptors. Qed.

(** socket, accept and openpty: a failure, or a descriptor that was not
    open. *)
Lemma next_fd_cases w :
  exists w1 r,
    next_fd w = (w1, r) /\
    trace w1 = trace w /\ stderr w1 = stderr w /\ stdout w1 = stdout w /\
    fs w1 = fs w /\ rets w1 = rets w /\
    ((r < 0 /\ fds w1 = fds w) \/
     (0 <= r /\ fds w !! r = None /\ exists c, fds w1 = <[r := c]> (fds w))).
Proof.
  unfold next_fd. destruct (newfds w) as [|[[fd c]|] rest].
  - eexists _, _. split; [reflexivity|]. split_and!; try done. left. by split.
  - destruct (_ && _) eqn:E.
    + apply andb_prop in E as [E1 E2]. apply Z.leb_le in E1.
      apply bool_decide_eq_true in E2.
      eexists _, _. split; [reflexivity|]. split_and!; try done.
      right. split_and!; try done. by exists c.
    + eexists _, _. split; [reflexivity|]. split_and!; try done. left. by split.
  - eexists _, _. split; [reflexivity|]. split_and!; try done. left. by split.
Qed.

Lemma handed_out_cases ev w :
  exists w1 r,
    handed_out ev w = Done w1 r /\
    trace w1 = trace w ++ [ev r] /\ stderr w1 = stderr w /\
    stdout w1 = stdout w /\ fs w1 = fs w /\ rets w1 = rets w /\
    ((r < 0 /\ fds w1 = fds w) \/
     (0 <= r /\ fds w !! r = None /\ exists c, fds w1 = <[r := c]> (fds w))).
Proof.
  unfold handed_out, call.
  destruct (next_fd_cases w) as (w1 & r & -> & Ht & He & Ho & Hfs & Hr & H).
  eexists _, r. split; [reflexivity|]. simpl. rewrite Ht. by split_and!.
Qed.

Lemma answered_cases ev w :
  exists w1 r,
    answered ev w = Done w1 r /\
    trace w1 = trace w ++ [ev r] /\ stderr w1 = stderr w /\
    stdout w1 = stdout w /\ fs w1 = fs w /\ fds w1 = fds w /\
    r = hd 0 (rets w) /\ rets w1 = tl (rets w).
Proof.
  unfold answered, call, next_ret. destruct (rets w) as [|r rs] eqn:E.
  - eexists _, _. split; [reflexivity|]. simpl. rewrite E. by split_and!.
  - eexists _, _. split; [reflexivity|]. simpl. by split_and!.
Qed.

Lemma sys_openpty_cases w :
  exists w1 r mst slv,
    sys_openpty 0 0 w = Done w1 (r, mst, slv) /\
    stderr w1 = stderr w /\ stdout w1 = stdout w /\ fs w1 = fs w /\
    rets w1 = rets w /\
    ((r = -1 /\ fds w1 = fds w /\
      trace w1 = trace w ++ [EvOpenpty (-1) 0 0]) \/
     (r = 0 /\ fds w !! mst = None /\ fds w !! slv = None /\ mst <> slv /\
      trace w1 = trace w ++ [EvOpenpty 0 mst slv] /\
      0 <= mst /\ 0 <= slv /\
      exists cm cs, fds w1 = <[slv := cs]> (<[mst := cm]> (fds w)))).
Proof.
  unfold sys_openpty, call.
  destruct (next_fd_cases w)
    as (w1 & m & -> & Ht1 & He1 & Ho1 & Hfs1 & Hr1 & [[Hm Hf1]|(Hm & Hfr1 & c1 & Hf1)]).
  { destruct (Z.ltb_spec m 0); [|lia].
    eexists _, _, _, _. split; [reflexivity|]. simpl. rewrite Ht1.
    split_and!; try done. left. by split_and!. }
  destruct (Z.ltb_spec m 0); [lia|].
  destruct (next_fd_cases w1)
    as (w2 & s & -> & Ht2 & He2 & Ho2 & Hfs2 & Hr2 & [[Hs Hf2]|(Hs & Hfr2 & c2 & Hf2)]).
  - destruct (Z.ltb_spec s 0); [|lia].
    eexists _, _, _, _. split; [reflexivity|]. simpl. rewrite Ht2, Ht1.
    split_and!; try congruence. left. split_and!; try done.
    rewrite Hf2, Hf1. by apply delete_insert_id.
  - destruct (Z.ltb_spec s 0); [lia|].
    eexists _, _, _, _. split; [reflexivity|]. simpl. rewrite Ht2, Ht1.
    split_and!; try congruence. right.
    rewrite Hf1 in Hfr2.
    assert (s <> m) by (intros ->; by rewrite lookup_insert_eq in Hfr2).
    rewrite lookup_insert_ne in Hfr2 by done.
    split_and!; try done. exists c1, c2. by rewrite Hf2, Hf1.
Qed.

(** X9. The descriptors of a worker that stays the parent of its shell
    (fork does not return 0 in spawn_shell).  When spawn_shell returns,
    either no pseudo-terminal could be had and the descriptors are as
    before; or fork failed with -1, and both ends of the pseudo-terminal
    are left open; or the relay has come to its end, and the same
    descriptors are open as before the call: both ends of the
    pseudo-terminal are closed again. *)
Theorem spawn_shell_descriptors fuel sockfd w w' :
  hd 0 (rets w) <> 0 ->
  spawn_shell fuel sockfd w = Done w' tt ->
  (fds w' = fds w /\
   stderr w' = stderr w ++ ["could not open pseudo terminal"]) \/
  (hd 0 (rets w) = -1 /\
   stderr w' = stderr w ++ ["could not fork process"] /\
   exists mst slv cm cs,
     fds w !! mst = None /\ fds w !! slv = None /\ mst <> slv /\
     fds w' = <[slv := cs]> (<[mst := cm]> (fds w))) \/
  (hd 0 (rets w) <> -1 /\ dom (fds w') = dom (fds w)).
Proof.
  intros Hpid. unfold spawn_shell, bind.
  destruct (sys_openpty_cases w)
    as (w1 & r & mst & slv & -> & He1 & Ho1 & Hfs1 & Hr1 &
        [(-> & Hf1 & Ht1)|(-> & Hm & Hs & Hne & Ht1 & _ & _ & cm & cs & Hf1)]).
  { simpl. unfold perror, call. intros [= <-]. left. simpl.
    by rewrite He1. }
  simpl. unfold sys_fork.
  destruct (answered_cases EvFork w1)
    as (w2 & pid & -> & Ht2 & He2 & Ho2 & Hfs2 & Hf2 & Hp & Hr2).
  rewrite Hr1 in Hp. subst pid.
  destruct (Z.eqb_spec (hd 0 (rets w)) (-1)) as [E|E].
  { unfold perror, call. intros [= <-]. right. left. simpl.
    rewrite He2, He1, Hf2, Hf1. split_and!; try done.
    by exists mst, slv, cm, cs. }
  destruct (Z.eqb_spec (hd 0 (rets w)) 0) as [E0|_]; [done|].
  unfold sys_close at 1, call; simpl.
  match goal with |- context [byte_interchange fuel sockfd sockfd mst mst ?w0] =>
    pose proof (byte_interchange_same_descriptors fuel sockfd sockfd mst mst w0)
      as Hsd;
    destruct (byte_interchange fuel sockfd sockfd mst mst w0) as [w3 len|w3|w3|w3 st]
  end; try done.
  unfold sys_close, call. intros [= <-]. right. right. split; [done|].
  simpl. destruct Hsd as [Hdom _ _]. simpl in Hdom.
  rewrite dom_delete_L, Hdom, Hf2, Hf1.
  rewrite delete_insert_id
    by (rewrite lookup_insert_ne by done; exact Hs).
  by rewrite <- dom_delete_L, delete_insert_id.
Qed.

Lemma spawn_shell_descriptors_witness :
  (fds (world_of (spawn_shell 5 4 w_worker_parent)) = fds w_worker_parent /\
   stderr (world_of (spawn_shell 5 4 w_worker_parent))
     = stderr w_worker_parent ++ ["could not open pseudo terminal"]) \/
  (hd 0 (rets w_worker_parent) = -1 /\
   stderr (world_of (spawn_shell 5 4 w_worker_parent))
     = stderr w_worker_parent ++ ["could not fork process"] /\
   exists mst slv cm cs,
     fds w_worker_parent !! mst = None /\
     fds w_worker_parent !! slv = None /\ mst <> slv /\
     fds (world_of (spawn_shell 5 4 w_worker_parent))
       = <[slv := cs]> (<[mst := cm]> (fds w_worker_parent))) \/
  (hd 0 (rets w_worker_parent) <> -1 /\
   dom (fds (world_of (spawn_shell 5 4 w_worker_parent)))
     = dom (fds w_worker_parent)).
Proof.
  apply (spawn_shell_descriptors 5 4 w_worker_parent
           (world_of (spawn_shell 5 4 w_worker_parent))).
  - simpl. lia.
  - vm_compute. reflexivity.
Defined.

(** ** The descriptors of the acceptor *)

Lemma sys_close_run fd w :
  exists w1,
    sys_close fd w = Done w1 tt /\
    trace w1 = trace w ++ [EvClose fd] /\ fds w1 = delete fd (fds w) /\
    stderr w1 = stderr w /\ stdout w1 = stdout w /\ fs w1 = fs w /\
    rets w1 = rets w.
Proof. eexists. split; [reflexivity|]. by split_and!. Qed.

Lemma stays_parent_no_child evs :
  stays_parent evs -> Exists (fun e => is_fork_child e = true) evs -> False.
Proof.
  unfold stays_parent. rewrite Forall_forall, Exists_exists.
  intros H (e & Hin & He). specialize (H e Hin). congruence.
Qed.

(** The accept loop, as long as it stays the acceptor: it returns with
    the listening socket closed and nothing else changed among the
    descriptors, and between two turns the descriptors are as at the
    start. *)
Lemma accept_loop_descriptors fuel lsock n : forall w,
  exists evs,
    trace (world_of (accept_loop n fuel lsock w)) = trace w ++ evs /\
    (Exists (fun e => is_fork_child e = true) evs \/
     match accept_loop n fuel lsock w with
     | Done w' _ => fds w' = delete lsock (fds w)
     | Running w' => fds w' = fds w
     | _ => False
     end).
Proof.
  induction n as [|n IH]; intros w.
  { exists []. simpl. rewrite app_nil_r. split; [done|]. by right. }
  simpl. unfold bind, sys_accept.
  destruct (handed_out_cases (EvAccept lsock) w)
    as (w1 & conn & -> & Ht1 & _ & _ & _ & _ &
        [[Hc Hf1]|(Hc & Hfr & c & Hf1)]).
  { destruct (Z.ltb_spec conn 0); [|lia].
    eexists. split; [trace_norm; reflexivity|]. right. simpl.
    by rewrite Hf1. }
  destruct (Z.ltb_spec conn 0); [lia|].
  unfold sys_fork.
  destruct (answered_cases EvFork w1)
    as (w2 & pid & -> & Ht2 & _ & _ & _ & Hf2 & _ & _).
  destruct (Z.ltb_spec pid 0).
  { eexists. split; [trace_norm; reflexivity|]. right. simpl.
    rewrite Hf2, Hf1. by rewrite delete_insert_id. }
  destruct (Z.gtb_spec pid 0).
  - destruct (sys_close_run conn w2) as (w3 & -> & Ht3 & Hf3 & _).
    destruct (IH w3) as (evs & Ht & H').
    exists ([EvAccept lsock conn; EvFork pid; EvClose conn] ++ evs).
    split; [rewrite Ht; trace_norm; reflexivity|].
    destruct H' as [H'|H'].
    + left. apply Exists_app. by right.
    + right. rewrite Hf3, Hf2, Hf1, delete_insert_id in H' by done.
      exact H'.
  - assert (pid = 0) as -> by lia.
    destruct (sys_close_run lsock w2) as (w3 & -> & Ht3 & _).
    destruct (spawn_shell_run fuel conn w3) as (sp & Ht4 & _).
    destruct (spawn_shell fuel conn w3) as [w4 []|w4|w4|w4 st]; simpl in *.
    + eexists. split; [trace_norm; reflexivity|]. left.
      apply Exists_cons. right. apply Exists_cons. by left.
    + eexists. split; [trace_norm; reflexivity|]. left.
      apply Exists_cons. right. apply Exists_cons. by left.
    + eexists. split; [trace_norm; reflexivity|]. left.
      apply Exists_cons. right. apply Exists_cons. by left.
    + eexists. split; [trace_norm; reflexivity|]. left.
      apply Exists_cons. right. apply Exists_cons. by left.
Qed.

Lemma sys_bind_cases fd path w :
  exists w1 r,
    sys_bind fd path w = Done w1 r /\
    trace w1 = trace w ++ [EvBind fd path r] /\
    fds w1 = fds w /\ stderr w1 = stderr w /\ stdout w1 = stdout w /\
    ((path ∈ fs w /\ r = -1 /\ rets w1 = rets w) \/
     ((path ∉ fs w) /\ r = hd 0 (rets w) /\ rets w1 = tl (rets w))).
Proof.
  unfold sys_bind, call. case_bool_decide as Hin.
  - eexists _, _. split; [reflexivity|]. split_and!; try done. by left.
  - unfold next_ret. destruct (rets w) as [|r rs] eqn:E; simpl.
    + eexists _, _. split; [reflexivity|]. simpl. rewrite E.
      split_and!; try done. by right.
    + destruct (r <? 0); eexists _, _; (split; [reflexivity|]); simpl;
        (split_and!; try done); by right.
Qed.

Lemma server_mode_descriptors fuel w :
  exists evs,
    trace (world_of (server_mode fuel w)) = trace w ++ evs /\
    (Exists (fun e => is_fork_child e = true) evs \/
     match server_mode fuel w with
     | Done w' _ => fds w' = fds w
     | Running w' =>
         exists lsock c,
           fds w !! lsock = None /\ fds w' = <[lsock := c]> (fds w)
     | _ => False
     end).
Proof.
  unfold server_mode, bind, sys_socket.
  destruct (handed_out_cases EvSocket w)
    as (w1 & lsock & -> & Ht1 & _ & _ & _ & _ &
        [[Hl Hf1]|(Hl & Hfr & c & Hf1)]).
  { destruct (Z.ltb_spec lsock 0); [|lia].
    eexists. split; [trace_norm; reflexivity|]. by right. }
  destruct (Z.ltb_spec lsock 0); [lia|].
  destruct (sys_bind_cases lsock SERVER_PATH w1)
    as (w2 & b & -> & Ht2 & Hf2 & _).
  assert (Hrel : delete lsock (fds w1) = fds w)
    by (rewrite Hf1; by apply delete_insert_id).
  destruct (Z.ltb_spec b 0).
  { eexists. split; [trace_norm; reflexivity|]. right. simpl.
    by rewrite Hf2. }
  unfold sys_listen.
  destruct (answered_cases (EvListen lsock 1) w2)
    as (w3 & l & -> & Ht3 & _ & _ & _ & Hf3 & _).
  destruct (Z.ltb_spec l 0).
  { eexists. split; [trace_norm; reflexivity|]. right. simpl.
    by rewrite Hf3, Hf2. }
  unfold sys_chmod.
  destruct (answered_cases (EvChmod SERVER_PATH 438) w3)
    as (w4 & m & -> & Ht4 & _ & _ & _ & Hf4 & _).
  destruct (Z.ltb_spec m 0).
  { eexists. split; [trace_norm; reflexivity|]. right. simpl.
    by rewrite Hf4, Hf3, Hf2. }
  destruct (accept_loop_descriptors fuel lsock fuel w4) as (evs & Ht5 & H').
  exists ([EvSocket lsock; EvBind lsock SERVER_PATH b;
           EvListen lsock 1 l; EvChmod SERVER_PATH 438 m] ++ evs).
  split; [rewrite Ht5; trace_norm; reflexivity|].
  destruct H' as [H'|H']; [left; apply Exists_app; by right|right].
  destruct (accept_loop fuel fuel lsock w4) as [w5 []|w5|w5|w5 st]; try done.
  - by rewrite H', Hf4, Hf3, Hf2.
  - exists lsock, c. split; [done|]. by rewrite H', Hf4, Hf3, Hf2.
Qed.

(** X10. The acceptor keeps no descriptor.  In a run of server_mode in
    which no fork returns 0 (the process stays the acceptor): when
    server_mode returns, whatever failed, the descriptors are exactly as
    before the call (the listening socket and every accepted connection
    are closed); and between two turns of the accept loop the listening
    socket is the only descriptor added. *)
Theorem acceptor_keeps_no_descriptor fuel w evs :
  trace (world_of (server_mode fuel w)) = trace w ++ evs ->
  stays_parent evs ->
  (forall w', server_mode fuel w = Done w' tt -> fds w' = fds w) /\
  (forall w', server_mode fuel w = Running w' ->
     exists lsock c,
       fds w !! lsock = None /\ fds w' = <[lsock := c]> (fds w)).
Proof.
  intros Ht Hpar.
  destruct (server_mode_descriptors fuel w) as (evs' & Ht' & H).
  rewrite Ht in Ht'. apply app_inv_head in Ht' as <-.
  destruct H as [H|H]; [by destruct (stays_parent_no_child _ Hpar H)|].
  split; intros w' E; by rewrite E in H.
Qed.

Lemma acceptor_keeps_no_descriptor_witness :
  (forall w', server_mode 10 w_acceptor = Done w' tt ->
     fds w' = fds w_acceptor) /\
  (forall w', server_mode 10 w_acceptor = Running w' ->
     exists lsock c,
       fds w_acceptor !! lsock = None /\
       fds w' = <[lsock := c]> (fds w_acceptor)).
Proof.
  apply (acceptor_keeps_no_descriptor 10 w_acceptor
           [EvSocket 3; EvBind 3 SERVER_PATH 0; EvListen 3 1 0;
            EvChmod SERVER_PATH 438 0; EvAccept 3 4; EvFork 77; EvClose 4;
            EvAccept 3 (-1); EvClose 3; EvUnlink SERVER_PATH]).
  - vm_compute. reflexivity.
  - repeat constructor.
Defined.

(** ** The two processes of the server *)

Lemma worker_event_is_child_event e :
  is_worker_event e = true -> is_child_event e = true.
Proof. by destruct e. Qed.

Lemma spawn_run_child_events sp o :
  spawn_run sp o -> Forall (fun e => is_child_event e = true) sp.
Proof.
  destruct 1 as [w' _|mst slv rest o Hw _]; [by repeat constructor|].
  constructor; [done|].
  eapply Forall_impl; [exact Hw|]. apply worker_event_is_child_event.
Qed.

Lemma child_events_fork_outcome lsock o l :
  Forall (fun e => is_child_event e = true) l ->
  Forall (fork_outcome lsock o) (suffixes l).
Proof.
  induction 1 as [|e l He Hl IH]; [by repeat constructor|].
  simpl. constructor; [|done].
  destruct e; try done. simpl. by intros _.
Qed.

Lemma acceptor_run_fork_outcome lsock evs o :
  acceptor_run lsock evs o -> Forall (fork_outcome lsock o) (suffixes evs).
Proof.
  induction 1 as [w'|r o Hr Hrel|conn pid o Hc Hp Hrel
                 |conn pid rest o Hc Hp Hrun IH
                 |conn sp w1 w' Hc Hsp Herr|conn sp o Hc Hsp Hret].
  - by repeat constructor.
  - simpl. repeat (apply Forall_cons; split); simpl; done.
  - simpl. repeat (apply Forall_cons; split); simpl; try done. lia.
  - simpl. repeat (apply Forall_cons; split); simpl; try done; lia.
  - assert (Hch : Forall (fun e => is_child_event e = true)
                    (EvClose lsock :: sp ++ [EvClose conn])).
    { constructor; [done|]. apply Forall_app. split.
      - by eapply spawn_run_child_events.
      - by repeat constructor. }
    simpl. apply Forall_cons. split; [simpl; split; [done|lia]|].
    apply Forall_cons. split; [by intros _|].
    by apply (child_events_fork_outcome lsock _ (EvClose lsock :: _)).
  - assert (Hch : Forall (fun e => is_child_event e = true)
                    (EvClose lsock :: sp)).
    { constructor; [done|]. by eapply spawn_run_child_events. }
    simpl. apply Forall_cons. split; [simpl; split; [done|lia]|].
    apply Forall_cons. split; [by intros _|].
    by apply (child_events_fork_outcome lsock _ (EvClose lsock :: _)).
Qed.

Lemma server_run_fork_outcome evs o :
  server_run evs o ->
  exists lsock,
    head evs = Some (EvSocket lsock) /\
    Forall (fork_outcome lsock o) (suffixes evs).
Proof.
  destruct 1 as [r w' Hr|lsock r o Hl Hr Hrel|lsock b r o Hl Hb Hr Hrel
                |lsock b l r o Hl Hb Hl0 Hr Hrel|lsock b l c evs o Hl Hb Hl0 Hc Hrun].
  - exists r. split; [done|]. by repeat constructor.
  - exists lsock. split; [done|].
    simpl. repeat (apply Forall_cons; split); simpl; done.
  - exists lsock. split; [done|].
    simpl. repeat (apply Forall_cons; split); simpl; done.
  - exists lsock. split; [done|].
    simpl. repeat (apply Forall_cons; split); simpl; done.
  - exists lsock. split; [done|].
    apply acceptor_run_fork_outcome in Hrun.
    simpl. repeat (apply Forall_cons; split); simpl; done.
Qed.

Lemma server_mode_fork_outcome fuel w pre suf :
  trace (world_of (server_mode fuel w)) = trace w ++ pre ++ suf ->
  exists lsock,
    head (pre ++ suf) = Some (EvSocket lsock) /\
    fork_outcome lsock (server_mode fuel w) suf.
Proof.
  intros Ht.
  destruct (server_mode_run fuel w) as (evs & Ht' & Hrun & _).
  rewrite Ht' in Ht. apply app_inv_head in Ht as ->.
  destruct (server_run_fork_outcome _ _ Hrun) as (lsock & Hhead & Hf).
  exists lsock. split; [done|].
  rewrite Forall_forall in Hf. apply Hf, list_elem_of_In, suffixes_app_in.
Qed.

(** X11. In every run of server_mode, a failed fork after an accept is
    followed by the close of the accepted connection, the close of the
    listening socket and the unlink of the rendezvous path, and by
    nothing else: server_mode has returned, the listening socket is
    closed and the path is removed. *)
Theorem fork_failure_is_fatal fuel w pre lsock conn pid post :
  trace (world_of (server_mode fuel w))
    = trace w ++ pre ++ EvAccept lsock conn :: EvFork pid :: post ->
  pid < 0 ->
  post = [EvClose conn; EvClose lsock; EvUnlink SERVER_PATH] /\
  exists w',
    server_mode fuel w = Done w' tt /\
    (lsock ∉ dom (fds w')) /\ (SERVER_PATH ∉ fs w').
Proof.
  intros Ht Hp.
  destruct (server_mode_fork_outcome fuel w pre _ Ht) as (l & _ & Hf).
  simpl in Hf. destruct Hf as [-> Hf].
  by destruct (Hf Hp) as [-> Hrel].
Qed.

Lemma fork_failure_is_fatal_witness :
  [EvClose 4; EvClose 3; EvUnlink SERVER_PATH]
    = [EvClose 4; EvClose 3; EvUnlink SERVER_PATH] /\
  exists w',
    server_mode 10 w_acceptor_no_fork = Done w' tt /\
    (3 ∉ dom (fds w')) /\ (SERVER_PATH ∉ fs w').
Proof.
  apply (fork_failure_is_fatal 10 w_acceptor_no_fork
           [EvSocket 3; EvBind 3 SERVER_PATH 0; EvListen 3 1 0;
            EvChmod SERVER_PATH 438 0] 3 4 (-1)).
  - vm_compute. reflexivity.
  - lia.
Defined.

(** X12. A process in which fork has returned 0 never goes back to the
    work of the acceptor: in every run of server_mode, what follows a
    fork that returned 0 are calls of the worker and of its shell only
    (openpty, fork, close, setsid, dup2, ioctl, execvp, select, read,
    write); it never accepts, and it never removes the rendezvous
    path. *)
Theorem forked_child_never_accepts fuel w pre post :
  trace (world_of (server_mode fuel w)) = trace w ++ pre ++ EvFork 0 :: post ->
  Forall (fun e => is_child_event e = true) post.
Proof.
  intros Ht.
  destruct (server_mode_fork_outcome fuel w pre _ Ht) as (l & _ & Hf).
  by apply Hf.
Qed.

Lemma forked_child_never_accepts_witness :
  Forall (fun e => is_child_event e = true)
    [EvClose 3; EvOpenpty (-1) 0 0; EvClose 4].
Proof.
  apply (forked_child_never_accepts 10 w_worker_no_pty
           [EvSocket 3; EvBind 3 SERVER_PATH 0; EvListen 3 1 0;
            EvChmod SERVER_PATH 438 0; EvAccept 3 4]).
  vm_compute. reflexivity.
Defined.

(** ** The removal of the rendezvous path *)

Lemma child_event_not_unlink e :
  is_child_event e = true -> is_unlink e = false.
Proof. by destruct e. Qed.

Lemma unique_last_unlink l0 u : forall pre e post,
  Forall (fun e => is_unlink e = false) l0 ->
  l0 ++ [u] = pre ++ e :: post ->
  is_unlink e = true ->
  pre = l0 /\ e = u /\ post = [].
Proof.
  induction l0 as [|x l0 IH]; intros pre e post Hl0 Heq He.
  - destruct pre as [|y pre]; simpl in Heq.
    + by injection Heq as -> <-.
    + injection Heq as _ Heq. by destruct pre.
  - destruct pre as [|y pre]; simpl in Heq.
    + injection Heq as -> _. apply Forall_cons in Hl0 as [Hx _]. congruence.
    + injection Heq as -> Heq. apply Forall_cons in Hl0 as [_ Hl0].
      destruct (IH _ _ _ Hl0 Heq He) as (-> & -> & ->). done.
Qed.

Lemma unlinks_last_cons lsock o e evs :
  is_unlink e = false -> is_fork_child e = false ->
  unlinks_last lsock o evs -> unlinks_last lsock o (e :: evs).
Proof.
  intros Hu Hc [H|(pre & -> & Hpre & Hpar & Hfat & Hrel)].
  - left. by constructor.
  - right. exists (e :: pre). split_and!; try done.
    + by constructor.
    + by constructor.
    + by apply Exists_cons_tl.
Qed.

Lemma unlinks_last_failure lsock o pre :
  Forall (fun e => is_unlink e = false) pre ->
  stays_parent pre ->
  Exists (fun e => is_fatal e = true) pre ->
  released lsock o ->
  unlinks_last lsock o (pre ++ [EvClose lsock; EvUnlink SERVER_PATH]).
Proof. intros. right. by exists pre. Qed.

Lemma acceptor_run_unlinks_last lsock evs o :
  acceptor_run lsock evs o -> unlinks_last lsock o evs.
Proof.
  induction 1 as [w'|r o Hr Hrel|conn pid o Hc Hp Hrel
                 |conn pid rest o Hc Hp Hrun IH
                 |conn sp w1 w' Hc Hsp Herr|conn sp o Hc Hsp Hret].
  - left. constructor.
  - apply (unlinks_last_failure lsock o [EvAccept lsock r]); try done.
    + by repeat constructor.
    + by repeat constructor.
    + apply Exists_cons_hd. simpl. by apply Z.ltb_lt.
  - apply (unlinks_last_failure lsock o
             [EvAccept lsock conn; EvFork pid; EvClose conn]); try done.
    + by repeat constructor.
    + repeat constructor. simpl. apply Z.eqb_neq. lia.
    + apply Exists_cons_tl, Exists_cons_hd. simpl. by apply Z.ltb_lt.
  - repeat apply unlinks_last_cons; try done.
    simpl. apply Z.eqb_neq. lia.
  - left. repeat (constructor; [done|]).
    apply Forall_app. split; [|by repeat constructor].
    eapply Forall_impl; [by eapply spawn_run_child_events|].
    apply child_event_not_unlink.
  - left. repeat (constructor; [done|]).
    eapply Forall_impl; [by eapply spawn_run_child_events|].
    apply child_event_not_unlink.
Qed.

Lemma server_run_unlinks_last evs o :
  server_run evs o -> exists lsock, unlinks_last lsock o evs.
Proof.
  destruct 1 as [r w' Hr|lsock r o Hl Hr Hrel|lsock b r o Hl Hb Hr Hrel
                |lsock b l r o Hl Hb Hl0 Hr Hrel|lsock b l c evs o Hl Hb Hl0 Hc Hrun].
  - exists r. left. by repeat constructor.
  - exists lsock.
    apply (unlinks_last_failure lsock o
             [EvSocket lsock; EvBind lsock SERVER_PATH r]); try done.
    + by repeat constructor.
    + by repeat constructor.
    + apply Exists_cons_tl, Exists_cons_hd. simpl. by apply Z.ltb_lt.
  - exists lsock.
    apply (unlinks_last_failure lsock o
             [EvSocket lsock; EvBind lsock SERVER_PATH b;
              EvListen lsock 1 r]); try done.
    + by repeat constructor.
    + by repeat constructor.
    + do 2 apply Exists_cons_tl. apply Exists_cons_hd. simpl.
      by apply Z.ltb_lt.
  - exists lsock.
    apply (unlinks_last_failure lsock o
             [EvSocket lsock; EvBind lsock SERVER_PATH b;
              EvListen lsock 1 l; EvChmod SERVER_PATH 438 r]); try done.
    + by repeat constructor.
    + by repeat constructor.
    + do 3 apply Exists_cons_tl. apply Exists_cons_hd. simpl.
      by apply Z.ltb_lt.
  - exists lsock. apply acceptor_run_unlinks_last in Hrun.
    simpl. by repeat apply unlinks_last_cons.
Qed.

(** X13. server_mode removes the rendezvous path only when the acceptor
    gives up.  In every run of server_mode, an unlink is the last call of
    the run and it removes the rendezvous path; the call before it closes
    the listening socket; before that, bind, listen, chmod, accept or
    fork has failed, and no fork has returned 0: a worker never removes
    the path, and the acceptor never goes on without it. *)
Theorem rendezvous_removed_only_on_failure fuel w pre p post :
  trace (world_of (server_mode fuel w)) = trace w ++ pre ++ EvUnlink p :: post ->
  p = SERVER_PATH /\ post = [] /\
  stays_parent pre /\
  Exists (fun e => is_fatal e = true) pre /\
  exists lsock pre',
    pre = pre' ++ [EvClose lsock] /\ released lsock (server_mode fuel w).
Proof.
  intros Ht.
  destruct (server_mode_run fuel w) as (evs & Ht' & Hrun & _).
  rewrite Ht' in Ht. apply app_inv_head in Ht as ->.
  destruct (server_run_unlinks_last _ _ Hrun)
    as (lsock & [H|(pre0 & Heq & Hpre & Hpar & Hfat & Hrel)]).
  { apply Forall_app in H as [_ H]. by apply Forall_cons in H as [? _]. }
  change (pre0 ++ [EvClose lsock; EvUnlink SERVER_PATH])
    with (pre0 ++ [EvClose lsock] ++ [EvUnlink SERVER_PATH]) in Heq.
  rewrite app_assoc in Heq. symmetry in Heq.
  apply unique_last_unlink in Heq as (-> & [= ->] & ->); try done.
  - split_and!; try done.
    + apply Forall_app. split; [done|]. by repeat constructor.
    + apply Exists_app. by left.
    + by exists lsock, pre0.
  - apply Forall_app. split; [done|]. by repeat constructor.
Qed.

Lemma rendezvous_removed_only_on_failure_witness :
  SERVER_PATH = SERVER_PATH /\ [] = @nil event /\
  stays_parent
    [EvSocket 3; EvBind 3 SERVER_PATH 0; EvListen 3 1 0;
     EvChmod SERVER_PATH 438 0; EvAccept 3 4; EvFork 77; EvClose 4;
     EvAccept 3 (-1); EvClose 3] /\
  Exists (fun e => is_fatal e = true)
    [EvSocket 3; EvBind 3 SERVER_PATH 0; EvListen 3 1 0;
     EvChmod SERVER_PATH 438 0; EvAccept 3 4; EvFork 77; EvClose 4;
     EvAccept 3 (-1); EvClose 3] /\
  exists lsock pre',
    [EvSocket 3; EvBind 3 SERVER_PATH 0; EvListen 3 1 0;
     EvChmod SERVER_PATH 438 0; EvAccept 3 4; EvFork 77; EvClose 4;
     EvAccept 3 (-1); EvClose 3] = pre' ++ [EvClose lsock] /\
    released lsock (server_mode 10 w_acceptor).
Proof.
  apply (rendezvous_removed_only_on_failure 10 w_acceptor).
  vm_compute. reflexivity.
Defined.

(** ** The descriptors of the client *)





(** ** main *)

(** X15. main never reports a failure through its status: whenever it
    returns, in the client, in the daemon, in a worker of the daemon or
    in the process that started the daemon, and whatever has failed on
    the way, the status is 0. *)
Theorem main_returns_zero fuel argv w w' status :
  main fuel argv w = Done w' status -> status = 0.
Proof.
  unfold main. destruct (parse_command_line argv) as [mode local_echo].
  destruct (mode =? MODE_DAEMON).
  { unfold bind, sys_fork.
    destruct (answered_cases EvFork w) as (w1 & pid & -> & _).
    destruct (negb (pid =? 0)); [by intros [= _ <-]|].
    unfold sys_unlink, sys_signal_ign_chld, call.
    match goal with |- context [server_mode fuel ?w0] =>
      destruct (server_mode fuel w0) as [w2 []|w2|w2|w2 st]
    end; try done.
    by intros [= _ <-]. }
  destruct (mode =? MODE_CLIENT).
  { unfold bind.
    destruct (client_mode fuel local_echo w) as [w2 []|w2|w2|w2 st]; try done.
    by intros [= _ <-]. }
  unfold print_usage, bind, printf, call, sys_exit. done.
Qed.

Lemma main_returns_zero_witness :
  stderr (world_of (main 10 ["shell-tunnel"; "--client"] w_no_socket))
    = ["could not open socket"] /\
  0 = 0.
Proof.
  split; [vm_compute; reflexivity|].
  apply (main_returns_zero 10 ["shell-tunnel"; "--client"] w_no_socket
           (world_of (main 10 ["shell-tunnel"; "--client"] w_no_socket)) 0).
  vm_compute. reflexivity.
Defined.

(** X16. The process that starts the daemon returns at once.  With
    --daemon selected, when fork does not return 0, main returns 0 after
    the fork and nothing else: no other call is made and nothing is
    printed, also when the fork has failed and no daemon runs. *)
Theorem daemon_invoker_returns_at_once fuel argv0 args w :
  selected_mode args = MODE_DAEMON ->
  hd 0 (rets w) <> 0 ->
  exists w',
    main fuel (argv0 :: args) w = Done w' 0 /\
    trace w' = trace w ++ [EvFork (hd 0 (rets w))] /\
    fds w' = fds w /\ fs w' = fs w /\
    stderr w' = stderr w /\ stdout w' = stdout w.
Proof.
  intros Hmode Hpid. rewrite main_daemon by done.
  unfold bind, sys_fork.
  destruct (answered_cases EvFork w)
    as (w1 & pid & -> & Ht & He & Ho & Hfs & Hf & -> & _).
  destruct (Z.eqb_spec (hd 0 (rets w)) 0) as [E|_]; [done|].
  exists w1. by split_and!.
Qed.

Lemma daemon_invoker_returns_at_once_witness :
  exists w',
    main 10 ["shell-tunnel"; "--daemon"] w_invoker = Done w' 0 /\
    trace w' = trace w_invoker ++ [EvFork (hd 0 (rets w_invoker))] /\
    fds w' = fds w_invoker /\ fs w' = fs w_invoker /\
    stderr w' = stderr w_invoker /\ stdout w' = stdout w_invoker.
Proof.
  apply (daemon_invoker_returns_at_once 10 "shell-tunnel" ["--daemon"]
           w_invoker).
  - reflexivity.
  - simpl. lia.
Defined.

(** The first two calls of server_mode when the rendezvous path does not
    exist: the result of bind is the answer of the environment. *)
Lemma server_mode_bind fuel w :
  SERVER_PATH ∉ fs w ->
  exists lsock rest,
    trace (world_of (server_mode fuel w)) = trace w ++ EvSocket lsock :: rest /\
    (0 <= lsock ->
     exists rest',
       rest = EvBind lsock SERVER_PATH (hd 0 (rets w)) :: rest').
Proof.
  intros Hfs. unfold server_mode, bind, sys_socket.
  destruct (handed_out_cases EvSocket w)
    as (w1 & lsock & -> & Ht1 & _ & _ & Hfs1 & Hr1 & _).
  destruct (Z.ltb_spec lsock 0) as [Hl|Hl].
  { exists lsock, []. split; [trace_norm; reflexivity|]. lia. }
  destruct (sys_bind_cases lsock SERVER_PATH w1)
    as (w2 & b & -> & Ht2 & _ & _ & _ & [(Hin & _)|(_ & -> & _)]).
  { by rewrite Hfs1 in Hin. }
  rewrite Hr1 in *.
  destruct (Z.ltb_spec (hd 0 (rets w)) 0).
  { eexists lsock, _. split; [trace_norm; reflexivity|]. eauto. }
  unfold sys_listen.
  destruct (answered_cases (EvListen lsock 1) w2) as (w3 & l & -> & Ht3 & _).
  destruct (Z.ltb_spec l 0).
  { eexists lsock, _. split; [trace_norm; reflexivity|]. eauto. }
  unfold sys_chmod.
  destruct (answered_cases (EvChmod SERVER_PATH 438) w3)
    as (w4 & m & -> & Ht4 & _).
  destruct (Z.ltb_spec m 0).
  { eexists lsock, _. split; [trace_norm; reflexivity|]. eauto. }
  destruct (accept_loop_run fuel lsock fuel w4) as (evs & Ht5 & _).
  eexists lsock, _. split; [rewrite Ht5; trace_norm; reflexivity|]. eauto.
Qed.

(** X17. A rendezvous path left behind does not stop the daemon.  With
    --daemon selected, in the process in which fork returns 0, main
    removes the rendezvous path and ignores SIGCHLD before server_mode
    opens its socket; so the result of the bind that follows is the
    answer of the environment, also when the path existed when main was
    called. *)
Theorem daemon_clears_stale_rendezvous fuel argv0 args w evs :
  selected_mode args = MODE_DAEMON ->
  hd 0 (rets w) = 0 ->
  trace (world_of (main fuel (argv0 :: args) w)) = trace w ++ evs ->
  exists lsock rest,
    evs = EvFork 0 :: EvUnlink SERVER_PATH :: EvSignalIgnChld
            :: EvSocket lsock :: rest /\
    (0 <= lsock ->
     exists rest',
       rest = EvBind lsock SERVER_PATH (hd 0 (tl (rets w))) :: rest').
Proof.
  intros Hmode Hpid. rewrite main_daemon by done.
  unfold bind, sys_fork.
  destruct (answered_cases EvFork w)
    as (w1 & pid & -> & Ht1 & _ & _ & Hfs1 & _ & -> & Hr1).
  rewrite Hpid. simpl.
  unfold sys_unlink, sys_signal_ign_chld, call.
  match goal with |- context [server_mode fuel ?w0] =>
    destruct (server_mode_bind fuel w0) as (lsock & rest & Ht & Hb);
    [simpl; apply not_elem_of_difference; right; by apply elem_of_singleton|];
    assert (Ht' : trace (world_of
                (match server_mode fuel w0 with
                 | Done w' _ => ret 0 w'
                 | Running w' => Running w'
                 | Execed w' => Execed w'
                 | Exited w' s => Exited w' s
                 end)) = trace w0 ++ EvSocket lsock :: rest)
      by (rewrite <- Ht; by destruct (server_mode fuel w0));
    simpl in Hb
  end.
  rewrite Ht'. simpl. rewrite Ht1, Hpid, <- !app_assoc. simpl.
  intros Heq. apply app_inv_head in Heq as <-.
  exists lsock, rest. split; [done|]. by rewrite <- Hr1.
Qed.

Lemma daemon_clears_stale_rendezvous_witness :
  SERVER_PATH ∈ fs w_stale_path /\
  exists lsock rest,
    [EvFork 0; EvUnlink SERVER_PATH; EvSignalIgnChld; EvSocket 3;
     EvBind 3 SERVER_PATH 0; EvListen 3 1 0; EvChmod SERVER_PATH 438 0;
     EvAccept 3 (-1); EvClose 3; EvUnlink SERVER_PATH]
    = EvFork 0 :: EvUnlink SERVER_PATH :: EvSignalIgnChld
        :: EvSocket lsock :: rest /\
    (0 <= lsock ->
     exists rest',
       rest = EvBind lsock SERVER_PATH (hd 0 (tl (rets w_stale_path)))
                :: rest').
Proof.
  split; [simpl; by apply elem_of_singleton|].
  apply (daemon_clears_stale_rendezvous 10 "shell-tunnel" ["--daemon"]
           w_stale_path).
  - reflexivity.
  - reflexivity.
  - vm_compute. reflexivity.
Defined.

(** ** Raw mode, the other flags *)

Lemma small_index (i : Z) :
  0 <= i < 32 -> exists n : nat, (n < 32)%nat /\ i = Z.of_nat n.
Proof. intros H. exists (Z.to_nat i). lia. Qed.

(** X18. Raw mode changes two local flags and nothing else: of the 32
    bits of c_lflag, every bit other than ICANON (bit 1) and ECHO (bit 3)
    is in the settings the client applies what it was in the settings of
    the terminal, and the four other fields are the same. *)
Theorem raw_mode_keeps_other_flags local_echo t i :
  0 <= i < 32 -> i <> 1 -> i <> 3 ->
  Z.testbit (c_lflag (raw_state local_echo t)) i = Z.testbit (c_lflag t) i /\
  c_iflag (raw_state local_echo t) = c_iflag t /\
  c_oflag (raw_state local_echo t) = c_oflag t /\
  c_cflag (raw_state local_echo t) = c_cflag t /\
  c_cc (raw_state local_echo t) = c_cc t.
Proof.
  intros Hi H1 H3. split; [|done].
  unfold raw_state, raw_lflag. cbn [c_lflag].
  rewrite Z.land_spec.
  destruct (small_index i Hi) as (n & Hn & ->).
  assert (Hmask : Z.testbit
            (to_tcflag (Z.lnot (Z.lor ICANON (if negb local_echo then ECHO else 0))))
            (Z.of_nat n) = true).
  { do 32 (destruct n as [|n]; [destruct local_echo; (reflexivity || lia)|]).
    lia. }
  rewrite Hmask. apply andb_true_r.
Qed.

Lemma raw_mode_keeps_other_flags_witness :
  Z.testbit (c_lflag (raw_state false (Termios 0 0 0 35387 []))) 15
    = Z.testbit (c_lflag (Termios 0 0 0 35387 [])) 15 /\
  c_iflag (raw_state false (Termios 0 0 0 35387 [])) = 0 /\
  c_oflag (raw_state false (Termios 0 0 0 35387 [])) = 0 /\
  c_cflag (raw_state false (Termios 0 0 0 35387 [])) = 0 /\
  c_cc (raw_state false (Termios 0 0 0 35387 [])) = [].
Proof.
  apply (raw_mode_keeps_other_flags false (Termios 0 0 0 35387 []) 15); lia.
Defined.

(** ** The shell of a worker *)

(** X19. What the shell of a worker starts with.  In a worker whose
    three standard descriptors are open and whose connection is a
    descriptor above them, when spawn_shell ends in the exec of the
    shell: the process has closed the master, has made the slave its
    three standard descriptors and has closed the slave itself; and the
    connection is still open in it: the shell inherits the socket of
    the session. *)
Theorem worker_shell_inherits_the_connection fuel sockfd csock w w' :
  is_Some (fds w !! STDIN_FILENO) ->
  is_Some (fds w !! STDOUT_FILENO) ->
  is_Some (fds w !! STDERR_FILENO) ->
  fds w !! sockfd = Some csock -> 2 < sockfd ->
  spawn_shell fuel sockfd w = Execed w' ->
  exists mst slv c r1 r2 r3,
    trace w' = trace w ++ [EvOpenpty 0 mst slv; EvFork 0; EvClose mst]
                 ++ shell_attach slv r1 r2
                 ++ [EvClose slv; EvExecvp "/bin/bash" ["/bin/bash"; "-i"] r3] /\
    fds w' !! STDIN_FILENO = Some c /\
    fds w' !! STDOUT_FILENO = Some c /\
    fds w' !! STDERR_FILENO = Some c /\
    fds w' !! mst = None /\ fds w' !! slv = None /\
    fds w' !! sockfd = Some csock.
Proof.
  intros [c0 H0] [c1 H1] [c2 H2] Hsock Hgt.
  unfold STDIN_FILENO, STDOUT_FILENO, STDERR_FILENO in *.
  unfold spawn_shell, bind.
  destruct (sys_openpty_cases w)
    as (w1 & r & mst & slv & -> & He1 & Ho1 & Hfs1 & Hr1 &
        [(-> & Hf1 & Ht1)
        |(-> & Hm & Hs & Hne & Ht1 & Hm0 & Hs0 & cm & cs & Hf1)]);
    [done|].
  simpl. unfold sys_fork.
  destruct (answered_cases EvFork w1)
    as (w2 & pid & -> & Ht2 & He2 & Ho2 & Hfs2 & Hf2 & _ & _).
  destruct (Z.eqb_spec pid (-1)); [done|].
  destruct (Z.eqb_spec pid 0) as [->|_].
  2:{ unfold sys_close, call; simpl.
      match goal with |- context [byte_interchange ?a ?b ?c ?d ?e ?w0] =>
        destruct (byte_interchange_run a b c d e w0) as (brk & evs & Hres & _);
        destruct (byte_interchange a b c d e w0)
      end; done. }
  match goal with |- shell slv ?w0 = _ -> _ => set (w3 := w0) end.
  assert (Ht3 : trace w3 = trace w2 ++ [EvClose mst]) by done.
  assert (Hf3 : fds w3 = delete mst (fds w2)) by done.
  clearbody w3.
  assert (Hslv : 2 < slv).
  { destruct (decide (slv = 0)) as [->|]; [congruence|].
    destruct (decide (slv = 1)) as [->|]; [congruence|].
    destruct (decide (slv = 2)) as [->|]; [congruence|]. lia. }
  assert (Hmst : 2 < mst).
  { destruct (decide (mst = 0)) as [->|]; [congruence|].
    destruct (decide (mst = 1)) as [->|]; [congruence|].
    destruct (decide (mst = 2)) as [->|]; [congruence|]. lia. }
  assert (Hf3' : fds w3 = <[slv := cs]> (fds w)).
  { rewrite Hf3, Hf2, Hf1, delete_insert_ne by done.
    by rewrite delete_insert_id. }
  assert (Hlook : fds w3 !! slv = Some cs)
    by (rewrite Hf3'; apply lookup_insert_eq).
  intros Hexec.
  destruct (shell_cases slv cs w3 Hlook Hslv)
    as [(w4 & r & E & _)|[(w4 & r1 & r2 & E & _)
       |(w4 & r1 & r2 & r3 & [] & E & _ & _ & _ & Ht4 & _ & Hf4)]];
    try congruence.
  rewrite Hexec in E. injection E as <-.
  exists mst, slv, cs, r1, r2, r3.
  assert (sockfd <> slv) by congruence.
  split; [rewrite Ht4, Ht3, Ht2, Ht1, <- !app_assoc; reflexivity|].
  rewrite Hf4, Hf3'. unfold wired_to, on_stdio,
    STDIN_FILENO, STDOUT_FILENO, STDERR_FILENO.
  split_and!.
  - rewrite lookup_delete_ne by lia.
    rewrite !lookup_insert_ne by lia. apply lookup_insert_eq.
  - rewrite lookup_delete_ne by lia.
    rewrite lookup_insert_ne by lia. apply lookup_insert_eq.
  - rewrite lookup_delete_ne by lia. apply lookup_insert_eq.
  - rewrite lookup_delete_ne by done.
    rewrite !lookup_insert_ne by (done || lia). exact Hm.
  - apply lookup_delete_eq.
  - rewrite lookup_delete_ne by done.
    rewrite !lookup_insert_ne by (done || lia). exact Hsock.
Qed.

Lemma worker_shell_inherits_the_connection_witness :
  exists mst slv c r1 r2 r3,
    trace (world_of (spawn_shell 5 4 w_worker_child))
      = trace w_worker_child ++ [EvOpenpty 0 mst slv; EvFork 0; EvClose mst]
          ++ shell_attach slv r1 r2
          ++ [EvClose slv; EvExecvp "/bin/bash" ["/bin/bash"; "-i"] r3] /\
    fds (world_of (spawn_shell 5 4 w_worker_child)) !! STDIN_FILENO = Some c /\
    fds (world_of (spawn_shell 5 4 w_worker_child)) !! STDOUT_FILENO = Some c /\
    fds (world_of (spawn_shell 5 4 w_worker_child)) !! STDERR_FILENO = Some c /\
    fds (world_of (spawn_shell 5 4 w_worker_child)) !! mst = None /\
    fds (world_of (spawn_shell 5 4 w_worker_child)) !! slv = None /\
    fds (world_of (spawn_shell 5 4 w_worker_child)) !! 4
      = Some (Chan [RdByte x6c] [] []).
Proof.
  apply (worker_shell_inherits_the_connection 5 4 (Chan [RdByte x6c] [] [])
           w_worker_child (world_of (spawn_shell 5 4 w_worker_child))).
  - exists empty_chan. reflexivity.
  - exists empty_chan. reflexivity.
  - exists empty_chan. reflexivity.
  - reflexivity.
  - lia.
  - vm_compute. reflexivity.
Defined.

(** ** The two sessions of the relay *)

(** X20. The worker relays between the connection and the master.  In a
    worker that stays the parent of its shell, when spawn_shell returns
    with a pseudo-terminal: it has closed the slave, relayed, and closed
    the master, in that order; the two ends of the pseudo-terminal were
    new descriptors; and in the relay every byte read from the
    connection is written at once to the master, every byte read from
    the master at once to the connection, and nothing else is written. *)
Theorem worker_relays_between_socket_and_master fuel sockfd w w' evs :
  hd 0 (rets w) <> 0 -> hd 0 (rets w) <> -1 ->
  spawn_shell fuel sockfd w = Done w' tt ->
  trace w' = trace w ++ evs ->
  evs = [EvOpenpty (-1) 0 0] \/
  exists mst slv relay,
    evs = [EvOpenpty 0 mst slv; EvFork (hd 0 (rets w)); EvClose slv]
            ++ relay ++ [EvClose mst] /\
    fds w !! mst = None /\ fds w !! slv = None /\ mst <> slv /\
    Forall (fun e => is_relay e = true) relay /\
    paired sockfd sockfd mst mst None relay.
Proof.
  intros Hp0 Hp1. unfold spawn_shell, bind.
  destruct (sys_openpty_cases w)
    as (w1 & r & mst & slv & -> & _ & _ & _ & Hr1 &
        [(-> & _ & Ht1)|(-> & Hm & Hs & Hne & Ht1 & _ & _ & _)]).
  { simpl. unfold perror, call. intros [= <-]. simpl. rewrite Ht1.
    intros Heq. apply app_inv_head in Heq as <-. by left. }
  simpl. unfold sys_fork.
  destruct (answered_cases EvFork w1)
    as (w2 & pid & -> & Ht2 & _ & _ & _ & _ & Hp & _).
  rewrite Hr1 in Hp. subst pid.
  destruct (Z.eqb_spec (hd 0 (rets w)) (-1)); [done|].
  destruct (Z.eqb_spec (hd 0 (rets w)) 0); [done|].
  unfold sys_close, call; simpl.
  match goal with |- context [byte_interchange fuel sockfd sockfd mst mst ?w0] =>
    destruct (byte_interchange_run fuel sockfd sockfd mst mst w0)
      as (brk & relay & _ & Ht3 & Hrel & _);
    destruct (byte_interchange_shape fuel sockfd sockfd mst mst w0)
      as (k & brk' & relay' & errs & _ & _ & Ht3' & _ & Hshape);
    rewrite Ht3 in Ht3'; apply app_inv_head in Ht3' as <-;
    destruct (byte_interchange fuel sockfd sockfd mst mst w0)
      as [w3 len|w3|w3|w3 st]
  end; try done.
  intros [= <-]. simpl in *. rewrite Ht3, Ht2, Ht1, <- !app_assoc.
  intros Heq. apply app_inv_head in Heq as <-.
  right. exists mst, slv, relay. split_and!; try done.
  by eapply relay_shape_paired.
Qed.

Lemma worker_relays_between_socket_and_master_witness :
  [EvOpenpty 0 5 6; EvFork 77; EvClose 6; EvSelect 6 [4]; EvRead 4 RdEof;
   EvClose 5] = [EvOpenpty (-1) 0 0] \/
  exists mst slv relay,
    [EvOpenpty 0 5 6; EvFork 77; EvClose 6; EvSelect 6 [4]; EvRead 4 RdEof;
     EvClose 5]
    = [EvOpenpty 0 mst slv; EvFork (hd 0 (rets w_worker_parent)); EvClose slv]
        ++ relay ++ [EvClose mst] /\
    fds w_worker_parent !! mst = None /\
    fds w_worker_parent !! slv = None /\ mst <> slv /\
    Forall (fun e => is_relay e = true) relay /\
    paired 4 4 mst mst None relay.
Proof.
  apply (worker_relays_between_socket_and_master 5 4 w_worker_parent
           (world_of (spawn_shell 5 4 w_worker_parent))).
  - simpl. lia.
  - simpl. lia.
  - vm_compute. reflexivity.
  - vm_compute. reflexivity.
Defined.

(** X21. The client relays between the terminal and the connection.  In
    a session of the client (connect has succeeded and client_mode has
    returned), between the switch to raw mode and the restore, every
    byte read from the standard input is written at once to the socket,
    every byte read from the socket at once to the standard output, and
    nothing else is written; the socket was a new descriptor. *)
Theorem client_relays_between_terminal_and_socket
    fuel local_echo w w' evs fd r :
  client_mode fuel local_echo w = Done w' tt ->
  trace w' = trace w ++ evs ->
  In (EvConnect fd SERVER_PATH r) evs -> 0 <= r ->
  fds w !! fd = None /\
  exists relay,
    evs = session_start local_echo w fd r ++ relay ++ session_end w fd /\
    paired STDIN_FILENO STDOUT_FILENO fd fd None relay.
Proof.
  unfold client_mode, bind, sys_socket.
  destruct (handed_out_run EvSocket w) as (w1 & fd1 & E1 & _ & _ & Hio1).
  destruct (handed_out_cases EvSocket w)
    as (w1' & fd1' & E1' & Ht1 & _ & _ & _ & _ & Hcase).
  rewrite E1 in E1'. injection E1' as <- <-. rewrite E1. clear E1.
  destruct (Z.ltb_spec fd1 0) as [Hfd|Hfd].
  { unfold perror, client_out_err_1, printf, call. intros [= <-].
    rewrite to_stdout_trace. simpl.
    rewrite Ht1. intros Heq. apply app_inv_head in Heq as <-.
    by intros [|[]]. }
  destruct Hcase as [[? _]|(_ & Hfresh & _)]; [lia|].
  unfold sys_connect.
  destruct (answered_run (EvConnect fd1 SERVER_PATH) w1)
    as (w2 & r2 & -> & Ht2 & _ & _ & Hio2).
  destruct (Z.ltb_spec r2 0) as [Hr2|Hr2].
  { unfold perror, client_out_err_2, client_out_err_1, sys_close, printf,
      bind, call.
    intros [= <-]. rewrite to_stdout_trace. simpl.
    rewrite Ht2, Ht1, <- !app_assoc.
    intros Heq. apply app_inv_head in Heq as <-.
    intros [|[[= -> ->]|[|[]]]]; try done. lia. }
  unfold console_proxy, bind.
  destruct (setup_console_config_run local_echo w2)
    as (w3 & -> & Ht3 & _ & _ & _ & Hts3 & _).
  destruct (byte_interchange_run fuel STDIN_FILENO STDOUT_FILENO fd1 fd1 w3)
    as (brk & relay & _ & Ht4 & Hrel & _ & Hio4 & _).
  destruct (byte_interchange_shape fuel STDIN_FILENO STDOUT_FILENO fd1 fd1 w3)
    as (k & brk' & relay' & errs & _ & _ & Ht4' & _ & Hshape).
  rewrite Ht4 in Ht4'. apply app_inv_head in Ht4' as <-.
  destruct (byte_interchange fuel STDIN_FILENO STDOUT_FILENO fd1 fd1 w3)
    as [w4 len|w4|w4|w4 st]; try done.
  simpl in Ht4, Hio4.
  destruct (setup_console_restore_run local_echo w4)
    as (w5 & -> & Ht5 & _).
  unfold ret, sys_shutdown, client_out_err_2, client_out_err_1, sys_close,
    printf, bind, call.
  intros [= <-]. rewrite to_stdout_trace. simpl.
  assert (Hsnap : snapshot w2 = snapshot w).
  { unfold snapshot. destruct Hio1 as [_ Hy1 Hs1], Hio2 as [_ Hy2 Hs2].
    by rewrite Hy2, Hy1, Hs2, Hs1. }
  assert (Htty : tty w2 = tty w).
  { destruct Hio1 as [_ Hy1 _], Hio2 as [_ Hy2 _]. by rewrite Hy2. }
  assert (Hts4 : term_state w4 = snapshot w).
  { destruct Hio4 as [_ _ Hs4]. by rewrite Hs4, Hts3. }
  rewrite Ht5, Ht4, Ht3, Ht2, Ht1, Hts4, Hsnap, Htty, <- !app_assoc.
  intros Heq. apply app_inv_head in Heq as <-.
  intros Hin Hr.
  assert (fd = fd1 /\ r = r2) as [-> ->].
  { apply (session_connect local_echo w fd1 r2 relay (session_end w fd1));
      [done| |exact Hin].
    intros e [<-|[<-|[<-|[]]]]; done. }
  split; [done|]. exists relay. split; [done|].
  by eapply relay_shape_paired.
Qed.

Lemma client_relays_between_terminal_and_socket_witness :
  fds w_session !! 3 = None /\
  exists relay,
    trace (world_of (client_mode 10 false w_session))
    = session_start false w_session 3 0 ++ relay ++ session_end w_session 3 /\
    paired STDIN_FILENO STDOUT_FILENO 3 3 None relay.
Proof.
  apply (client_relays_between_terminal_and_socket 10 false w_session
           (world_of (client_mode 10 false w_session))).
  - vm_compute. reflexivity.
  - reflexivity.
  - vm_compute. right. left. reflexivity.
  - lia.
Defined.

(** ** What the acceptor reports *)

Lemma omap_failure_report_app l1 l2 :
  omap failure_report (l1 ++ l2)
  = omap failure_report l1 ++ omap failure_report l2.
Proof. apply omap_app. Qed.

Lemma accept_loop_reports fuel lsock n : forall w,
  exists evs,
    trace (world_of (accept_loop n fuel lsock w)) = trace w ++ evs /\
    (Exists (fun e => is_fork_child e = true) evs \/
     (stderr (world_of (accept_loop n fuel lsock w))
        = stderr w ++ omap failure_report evs /\
      match accept_loop n fuel lsock w with
      | Done _ _ => length (omap failure_report evs) = 1%nat
      | Running _ => omap failure_report evs = []
      | _ => False
      end)).
Proof.
  induction n as [|n IH]; intros w.
  { exists []. simpl. rewrite !app_nil_r. split; [done|]. by right. }
  simpl. unfold bind, sys_accept.
  destruct (handed_out_cases (EvAccept lsock) w)
    as (w1 & conn & -> & Ht1 & He1 & _).
  destruct (conn <? 0) eqn:Ec.
  { eexists. split; [trace_norm; reflexivity|]. right. simpl.
    rewrite Ec, He1. by split. }
  unfold sys_fork.
  destruct (answered_cases EvFork w1) as (w2 & pid & -> & Ht2 & He2 & _).
  destruct (pid <? 0) eqn:Ep.
  { eexists. split; [trace_norm; reflexivity|]. right. simpl.
    rewrite Ec, Ep, He2, He1. by split. }
  destruct (Z.gtb_spec pid 0).
  - destruct (sys_close_run conn w2) as (w3 & -> & Ht3 & _ & He3 & _).
    destruct (IH w3) as (evs & Ht & H').
    exists ([EvAccept lsock conn; EvFork pid; EvClose conn] ++ evs).
    split; [rewrite Ht; trace_norm; reflexivity|].
    destruct H' as [H'|[Herr H']].
    + left. apply Exists_app. by right.
    + right. rewrite omap_failure_report_app. simpl. rewrite Ec, Ep. simpl.
      split; [|done]. by rewrite Herr, He3, He2, He1.
  - assert (pid = 0) as -> by (apply Z.ltb_ge in Ep; lia).
    destruct (sys_close_run lsock w2) as (w3 & -> & Ht3 & _).
    destruct (spawn_shell_run fuel conn w3) as (sp & Ht4 & _).
    destruct (spawn_shell fuel conn w3) as [w4 []|w4|w4|w4 st]; simpl in *;
      (eexists; split; [trace_norm; reflexivity|]; left;
       apply Exists_cons; right; apply Exists_cons; by left).
Qed.

Lemma server_mode_reports fuel w :
  exists evs,
    trace (world_of (server_mode fuel w)) = trace w ++ evs /\
    (Exists (fun e => is_fork_child e = true) evs \/
     (stderr (world_of (server_mode fuel w))
        = stderr w ++ omap failure_report evs /\
      match server_mode fuel w with
      | Done _ _ => length (omap failure_report evs) = 1%nat
      | Running _ => omap failure_report evs = []
      | _ => False
      end)).
Proof.
  unfold server_mode, bind, sys_socket.
  destruct (handed_out_cases EvSocket w) as (w1 & lsock & -> & Ht1 & He1 & _).
  destruct (lsock <? 0) eqn:El.
  { eexists. split; [trace_norm; reflexivity|]. right. simpl.
    rewrite El, He1. by split. }
  destruct (sys_bind_cases lsock SERVER_PATH w1)
    as (w2 & b & -> & Ht2 & _ & He2 & _).
  destruct (b <? 0) eqn:Eb.
  { eexists. split; [trace_norm; reflexivity|]. right. simpl.
    rewrite El, Eb, He2, He1. by split. }
  unfold sys_listen.
  destruct (answered_cases (EvListen lsock 1) w2)
    as (w3 & l & -> & Ht3 & He3 & _).
  destruct (l <? 0) eqn:El0.
  { eexists. split; [trace_norm; reflexivity|]. right. simpl.
    rewrite El, Eb, El0, He3, He2, He1. by split. }
  unfold sys_chmod.
  destruct (answered_cases (EvChmod SERVER_PATH 438) w3)
    as (w4 & m & -> & Ht4 & He4 & _).
  destruct (m <? 0) eqn:Em.
  { eexists. split; [trace_norm; reflexivity|]. right. simpl.
    rewrite El, Eb, El0, Em, He4, He3, He2, He1. by split. }
  destruct (accept_loop_reports fuel lsock fuel w4) as (evs & Ht5 & H').
  exists ([EvSocket lsock; EvBind lsock SERVER_PATH b;
           EvListen lsock 1 l; EvChmod SERVER_PATH 438 m] ++ evs).
  split; [rewrite Ht5; trace_norm; reflexivity|].
  destruct H' as [H'|[Herr H']]; [left; apply Exists_app; by right|right].
  rewrite omap_failure_report_app. simpl. rewrite El, Eb, El0, Em. simpl.
  split; [|done]. by rewrite Herr, He4, He3, He2, He1.
Qed.

(** X22. The acceptor reports each failure once.  In a run of
    server_mode in which no fork returns 0 (the process stays the
    acceptor), what is printed on the standard error is one message for
    each failed call of socket, bind, listen, chmod, accept and fork, in
    the order of the calls, and nothing else; a run that has returned
    has printed exactly one message, and a run that still accepts has
    printed none. *)
Theorem acceptor_reports_each_failure_once fuel w evs :
  trace (world_of (server_mode fuel w)) = trace w ++ evs ->
  stays_parent evs ->
  stderr (world_of (server_mode fuel w))
    = stderr w ++ omap failure_report evs /\
  (forall w', server_mode fuel w = Done w' tt ->
     length (omap failure_report evs) = 1%nat) /\
  (forall w', server_mode fuel w = Running w' ->
     omap failure_report evs = []).
Proof.
  intros Ht Hpar.
  destruct (server_mode_reports fuel w) as (evs' & Ht' & H).
  rewrite Ht in Ht'. apply app_inv_head in Ht' as <-.
  destruct H as [H|[Herr H]]; [by destruct (stays_parent_no_child _ Hpar H)|].
  split; [done|]. split; intros w' E; by rewrite E in H.
Qed.

Lemma acceptor_reports_each_failure_once_witness :
  stderr (world_of (server_mode 10 w_acceptor))
    = stderr w_acceptor ++ ["could not accept connection"] /\
  (forall w', server_mode 10 w_acceptor = Done w' tt ->
     length ["could not accept connection"] = 1%nat) /\
  (forall w', server_mode 10 w_acceptor = Running w' ->
     ["could not accept connection"] = []).
Proof.
  apply (acceptor_reports_each_failure_once 10 w_acceptor
           [EvSocket 3; EvBind 3 SERVER_PATH 0; EvListen 3 1 0;
            EvChmod SERVER_PATH 438 0; EvAccept 3 4; EvFork 77; EvClose 4;
            EvAccept 3 (-1); EvClose 3; EvUnlink SERVER_PATH]).
  - vm_compute. reflexivity.
  - repeat constructor.
Defined.
